(** * Rigid-diaphragm lateral-force distribution

    A shallow embedding of the four solver variants of the repository

      - [rigid_diaphragm_analysis_R1.py]  ([R1.compute_rigid_diaphragm]),
      - [rigid_diaphragm_app_R1.py]       ([AppR1.compute_rigid_diaphragm]),
      - [rigid_diaphragm_app_v2.py]       ([V2.compute_rigid_diaphragm]),
      - [rigid_streamlit_app.py]          ([Streamlit.compute_rigid_diaph]),

    and of the wall classifier they share.  The solvers are written once
    over an interface [Arith] of the float operations the Python code
    uses, and run on two carriers: IEEE binary64 ([float], the numbers
    Python computes with) and exact rationals extended with the two
    infinities and NaN ([xreal], the real-number reading of the
    formulas).  Python exceptions are values of [Py.result]. *)

From Stdlib Require Import List String Ascii Bool Arith ZArith Lia.
From Stdlib Require Import QArith Qpower Qcanon Field Floats Permutation Sorted.
Import ListNotations.

Set Implicit Arguments.
Set Warnings "-inexact-float".
Close Scope Q_scope.
Close Scope Qc_scope.
Open Scope nat_scope.

(** ** Python exceptions *)

Module Py.

Inductive error : Type :=
  | ValueError (msg : string)
  | ZeroDivisionError
  | OverflowError
  | KeyError (arg : string).

Inductive result (A : Type) : Type :=
  | Ok (a : A)
  | Raise (e : error).

Arguments Ok {A} a.
Arguments Raise {A} e.

Definition bind {A B : Type} (m : result A) (k : A -> result B) : result B :=
  match m with
  | Ok a => k a
  | Raise e => Raise e
  end.

(** A [for] loop that builds a list and stops at the first exception. *)
Fixpoint for_each {A B : Type} (f : A -> result B) (l : list A) : result (list B) :=
  match l with
  | [] => Ok []
  | a :: l' =>
      bind (f a) (fun b => bind (for_each f l') (fun bs => Ok (b :: bs)))
  end.

Definition raises {A : Type} (m : result A) : Prop :=
  exists e, m = Raise e.

End Py.

Notation "x <- m ;; k" := (Py.bind m (fun x => k))
  (at level 61, m at next level, right associativity).

(** ** The float operations of the code *)

Class Arith (F : Type) : Type := {
  fzero : F;                 (* 0.0 *)
  fone : F;                  (* 1.0 *)
  fthree : F;                (* 3.0 *)
  ffour : F;                 (* 4.0 *)
  ftenth : F;                (* 0.1 and 0.10 *)
  fnan : F;                  (* float("nan"), np.nan *)
  fadd : F -> F -> F;
  fsub : F -> F -> F;
  fmul : F -> F -> F;
  fdiv : F -> F -> F;        (* IEEE division: x/0 is an infinity or NaN *)
  fabs : F -> F;
  fpow3 : F -> F;            (* pow(x, 3.0) of the C library *)
  feqb : F -> F -> bool;     (* == *)
  fisinf : F -> bool         (* math.isinf *)
}.

Section FloatOps.
Context {F : Type} {AF : Arith F}.

(** [math.isnan]: NaN is the one value that differs from itself. *)
Definition is_nan (x : F) : bool := negb (feqb x x).

(** [x == 0] *)
Definition is_zero (x : F) : bool := feqb x fzero.

(** [x != 0] *)
Definition neq0 (x : F) : bool := negb (feqb x fzero).

Definition is_finite (x : F) : bool := negb (is_nan x || fisinf x).

(** [x ** 2] on a pandas column: numpy squares. *)
Definition fsquare (x : F) : F := fmul x x.

(** Python's [a / b] on two floats raises on a zero divisor. *)
Definition py_div (a b : F) : Py.result F :=
  if is_zero b then Py.Raise Py.ZeroDivisionError else Py.Ok (fdiv a b).

(** Python's [x ** 3] on a float raises when a finite base overflows. *)
Definition py_pow3 (x : F) : Py.result F :=
  let r := fpow3 x in
  if is_finite x && fisinf r then Py.Raise Py.OverflowError else Py.Ok r.

(** [Series.sum()] and [np.nansum]: NaN entries count as 0.  The
    entries are added from the first row to the last (numpy's pairwise
    order, which differs in rounding from eight rows on, is not
    modelled). *)
Definition series_sum (col : list F) : F :=
  fold_left fadd (map (fun x => if is_nan x then fzero else x) col) fzero.

(** The plain sum of a column, NaN entries included. *)
Definition total (col : list F) : F := fold_left fadd col fzero.

End FloatOps.

(** ** Carrier 1: IEEE binary64

    Rocq's primitive floats are the binary64 numbers of Python and
    numpy, with IEEE rounding to nearest.  The cube is taken as
    [x * x * x]; the C library's [pow] is not part of the repository and
    agrees with it wherever the cube is a binary64 number. *)

#[export] Instance float_arith : Arith float := {|
  fzero := 0%float;
  fone := 1%float;
  fthree := 3%float;
  ffour := 4%float;
  ftenth := 0x1.999999999999ap-4%float;   (* the binary64 nearest to 0.1 *)
  fnan := PrimFloat.nan;
  fadd := PrimFloat.add;
  fsub := PrimFloat.sub;
  fmul := PrimFloat.mul;
  fdiv := PrimFloat.div;
  fabs := PrimFloat.abs;
  fpow3 := fun x => PrimFloat.mul (PrimFloat.mul x x) x;
  feqb := PrimFloat.eqb;
  fisinf := PrimFloat.is_infinity
|}.

(** ** Carrier 2: exact rationals with infinities and NaN

    The special values follow IEEE 754 (a nonzero number over zero is an
    infinity, [0/0] and [inf - inf] are NaN, NaN differs from itself);
    finite results are exact: no rounding, no overflow, one zero. *)

Inductive xreal : Type :=
| Fin (q : Qc)
| Inf (neg : bool)
| NaN.

Module X.

Definition qneg (q : Qc) : bool :=
  match (q ?= 0)%Qc with Lt => true | _ => false end.

Definition qzero (q : Qc) : bool := Qc_eq_bool q 0%Qc.

Definition opp (x : xreal) : xreal :=
  match x with
  | Fin q => Fin (- q)%Qc
  | Inf s => Inf (negb s)
  | NaN => NaN
  end.

Definition add (x y : xreal) : xreal :=
  match x, y with
  | Fin a, Fin b => Fin (a + b)%Qc
  | Fin _, Inf s => Inf s
  | Inf s, Fin _ => Inf s
  | Inf s, Inf t => if Bool.eqb s t then Inf s else NaN
  | _, _ => NaN
  end.

Definition sub (x y : xreal) : xreal := add x (opp y).

Definition mul (x y : xreal) : xreal :=
  match x, y with
  | Fin a, Fin b => Fin (a * b)%Qc
  | Fin a, Inf s => if qzero a then NaN else Inf (xorb (qneg a) s)
  | Inf s, Fin b => if qzero b then NaN else Inf (xorb s (qneg b))
  | Inf s, Inf t => Inf (xorb s t)
  | _, _ => NaN
  end.

Definition div (x y : xreal) : xreal :=
  match x, y with
  | Fin a, Fin b =>
      if qzero b then (if qzero a then NaN else Inf (qneg a))
      else Fin (a / b)%Qc
  | Fin _, Inf _ => Fin 0%Qc
  | Inf s, Fin b => Inf (xorb s (qneg b))
  | _, _ => NaN
  end.

Definition abs (x : xreal) : xreal :=
  match x with
  | Fin q => Fin (if qneg q then - q else q)%Qc
  | Inf _ => Inf false
  | NaN => NaN
  end.

Definition eqb (x y : xreal) : bool :=
  match x, y with
  | Fin a, Fin b => Qc_eq_bool a b
  | Inf s, Inf t => Bool.eqb s t
  | _, _ => false
  end.

Definition isinf (x : xreal) : bool :=
  match x with Inf _ => true | _ => false end.

Definition of_Z (z : Z) : xreal := Fin (Q2Qc (inject_Z z)).
Definition frac (n : Z) (d : positive) : xreal := Fin (Q2Qc (n # d)).

(** The sum of a list of rationals, accumulated left to right. *)
Definition qsum (l : list Qc) : Qc := fold_left Qcplus l 0%Qc.

End X.

#[export] Instance xreal_arith : Arith xreal := {|
  fzero := Fin 0%Qc;
  fone := Fin 1%Qc;
  fthree := X.of_Z 3;
  ffour := X.of_Z 4;
  ftenth := X.frac 1 10;
  fnan := NaN;
  fadd := X.add;
  fsub := X.sub;
  fmul := X.mul;
  fdiv := X.div;
  fabs := X.abs;
  fpow3 := fun x => X.mul (X.mul x x) x;
  feqb := X.eqb;
  fisinf := X.isinf
|}.

(** ** Strings: the [str] methods the classifier uses (ASCII names) *)

Module Str.

(** Whitespace removed by [str.strip()]. *)
Definition is_space (c : ascii) : bool :=
  let n := nat_of_ascii c in
  ((9 <=? n) && (n <=? 13)) || ((28 <=? n) && (n <=? 32)).

Definition upper_char (c : ascii) : ascii :=
  let n := nat_of_ascii c in
  if (97 <=? n) && (n <=? 122) then ascii_of_nat (n - 32) else c.

Fixpoint upper (s : string) : string :=
  match s with
  | EmptyString => EmptyString
  | String c s' => String (upper_char c) (upper s')
  end.

Fixpoint lstrip (s : string) : string :=
  match s with
  | EmptyString => EmptyString
  | String c s' => if is_space c then lstrip s' else s
  end.

Fixpoint rstrip (s : string) : string :=
  match s with
  | EmptyString => EmptyString
  | String c s' =>
      match rstrip s' with
      | EmptyString => if is_space c then EmptyString else String c EmptyString
      | r => String c r
      end
  end.

Definition strip (s : string) : string := rstrip (lstrip s).

Definition startswith (s p : string) : bool := String.prefix p s.

(** [sub in s] *)
Fixpoint contains (sub s : string) : bool :=
  String.prefix sub s ||
  match s with
  | EmptyString => false
  | String _ s' => contains sub s'
  end.

(** [s.isascii()].  On such a string [upper] and [strip] are Python's
    [str.upper] and [str.strip]; on other strings Python follows
    Unicode (["ß".upper()] is ["SS"], U+00A0 is stripped), which the
    two functions above do not. *)
Fixpoint is_ascii (s : string) : bool :=
  match s with
  | EmptyString => true
  | String c s' => (nat_of_ascii c <? 128) && is_ascii s'
  end.

End Str.

(** ** Data model of the [compute_rigid_diaphragm] variants *)

(** The [inputs] dictionary. *)
Module Inputs.
Record t (F : Type) : Type := mk {
    L : F;
    B : F;
    Xcm_manual : F;
    Ycm_manual : F;
    W : F;
    X_offset : F;
    Y_offset : F;
    Fx : F;
    Fy : F
  }.
End Inputs.

(** One wall dictionary; [w_k_kN = None] when the key is absent. *)
Module Wall.
Record t (F : Type) : Type := mk {
    Wall_Name : string;
    Length_m : F;
    Height_m : F;
    w_k_kN : option F;
    x_coord_m : F;
    y_coord_m : F
  }.
End Wall.

(** One row of the result table, in the order of [ordered_cols]. *)
Module Row.
Record t (F : Type) : Type := mk {
    Wall_Name : string;
    Length_m : F;
    Height_m : F;
    w_k_kN : option F;
    x_coord_m : F;
    y_coord_m : F;
    xk_m : F;
    yk_m : F;
    Di : F;
    Rix : F;
    Riy : F;
    Riy_xk : F;
    Rix_yk : F;
    xbar : F;
    ybar : F;
    Riy_xbar2 : F;
    Rix_ybar2 : F;
    Real_Tor_Ratio_x : F;
    Real_Tor_Ratio_y : F;
    Vx_Real_Tor : F;
    Vy_Real_Tor : F;
    Direct_Shear_Ratio_x : F;
    Direct_Shear_Ratio_y : F;
    Direct_Shear_x : F;
    Direct_Shear_y : F;
    AccTorRatio_x : F;
    AccTorRatio_y : F;
    Vx_Acc_Tor : F;
    Vy_Acc_Tor : F;
    Vx_kN : F;
    Vy_kN : F
  }.
End Row.

(** The [summary] dictionary; only the v2 variant has the key ["W"]. *)
Module Summary.
Record t (F : Type) : Type := mk {
    L : F;
    B : F;
    X_offset : F;
    Y_offset : F;
    Xcm : F;
    Ycm : F;
    Xcr : F;
    Ycr : F;
    ex : F;
    ey : F;
    exbar : F;
    eybar : F;
    Jp : F;
    Fx : F;
    Fy : F;
    sum_Rix : F;
    sum_Riy : F;
    W : option F
  }.
End Summary.

(** The thirteen columns a wall has before the table-wide steps. *)
Module Base.
Record t (F : Type) : Type := mk {
    Wall_Name : string;
    Length_m : F;
    Height_m : F;
    w_k_kN : option F;
    x_coord_m : F;
    y_coord_m : F;
    xk_m : F;
    yk_m : F;
    Di : F;
    Rix : F;
    Riy : F;
    Riy_xk : F;
    Rix_yk : F
  }.
End Base.

(** ** Row ordering of the two apps: [sort_values(..., kind="stable")] *)

Module Sorting.

(** [_dir_key] / [_dir_order] *)
Definition _dir_order (nm : string) : nat :=
  let u := Str.upper nm in
  if Str.contains "EW"%string u then 0
  else if Str.contains "NS"%string u then 1
  else 2.

(** Order on the key pair [(_dir, Wall Name)]. *)
Definition key_le (a b : string) : bool :=
  let da := _dir_order a in
  let db := _dir_order b in
  (da <? db) || ((da =? db) && String.leb a b).

Section Sort.
Context {A : Type} (name : A -> string).

Fixpoint insert (x : A) (l : list A) : list A :=
  match l with
  | [] => [x]
  | y :: l' =>
      if key_le (name x) (name y) then x :: l else y :: insert x l'
  end.

(** Rows with equal keys keep their input order. *)
Definition sort_values (l : list A) : list A := fold_right insert [] l.
End Sort.

End Sorting.

(** ** The pages of the two apps

    What the block under [if run:] receives and what it shows.  A row
    of the wall editor is a row of [st.session_state["walls_df"]]: the
    name cell holds text and an empty number cell holds NaN. *)

Module Editor.
Record t (F : Type) : Type := mk {
    Wall_Name : string;
    Length_m : F;
    Height_m : F;
    w_k_kN : F;
    x_coord_m : F;
    y_coord_m : F
  }.
End Editor.

Module Page.

(** The argument of [st.error]: a fixed text, a text that ends with the
    list [bad], or a text that ends with the exception caught. *)
Inductive message : Type :=
| Text (s : string)
| TextNames (s : string) (bad : list string)
| TextError (s : string) (e : Py.error).

(** The run ends at [st.error(...); st.stop()], or goes on to display
    the table and the summary it computed. *)
Inductive outcome (F : Type) : Type :=
| Stop (m : message)
| Show (df_out : list (Row.t F)) (summary : Summary.t F).

Arguments Stop {F} m.
Arguments Show {F} df_out summary.

(** [("EW" not in nm.upper()) and ("NS" not in nm.upper())] *)
Definition bad_name (nm : string) : bool :=
  negb (Str.contains "EW" (Str.upper nm)) && negb (Str.contains "NS" (Str.upper nm)).

(** [to_dict(orient="records")]: every record has the six keys. *)
Definition to_dict {F : Type} (r : Editor.t F) : Wall.t F :=
  Wall.mk (Editor.Wall_Name r) (Editor.Length_m r) (Editor.Height_m r)
    (Some (Editor.w_k_kN r)) (Editor.x_coord_m r) (Editor.y_coord_m r).

Definition Jp_zero_text : string :=
  "Jp became zero (division by zero). Check wall geometry, naming, and coordinates.".

Definition bad_names_text : string :=
  "These walls do not contain 'EW' or 'NS' in the name: ".

(** [try: ... except ZeroDivisionError: ... except Exception as e: ...] *)
Definition report {F : Type} (m : Py.result (list (Row.t F) * Summary.t F))
  : outcome F :=
  match m with
  | Py.Ok out => Show (fst out) (snd out)
  | Py.Raise Py.ZeroDivisionError => Stop (Text Jp_zero_text)
  | Py.Raise e => Stop (TextError "Error: " e)
  end.

End Page.

(** ** Steps the three [compute_rigid_diaphragm] functions have in common

    [rigid_diaphragm_analysis_R1.py], [rigid_diaphragm_app_R1.py] and
    [rigid_diaphragm_app_v2.py] repeat the same statements for the wall
    classifier, the rigidity modulus and the columns from [xbar] to
    [Vy (kN)]; they are embedded once here. *)

Module Template.
Section Template.
Context {F : Type} {AF : Arith F}.

Definition _clean_wall_name (name : string) : string := Str.strip name.

(** [_wall_orientation_factors]; [tail] is the end of the error
    message, the one thing the three copies differ in. *)
Definition orientation (tail : string) (wall_name : string) (Di : F)
  : Py.result (F * F) :=
  let nm := Str.upper wall_name in
  if Str.contains "EW" nm then
    r <- py_div fone Di ;; Py.Ok (r, fzero)
  else if Str.contains "NS" nm then
    r <- py_div fone Di ;; Py.Ok (fzero, r)
  else
    Py.Raise (Py.ValueError
      ("Wall Name '" ++ wall_name ++ "' must contain 'EW' or 'NS'" ++ tail)).

(** [Di = 4.0 * (height / length) ** 3 + 3.0 * (height / length)] on
    Python floats; the quotient is computed twice in the source, with
    the same outcome both times. *)
Definition rigidity_modulus (height length : F) : Py.result F :=
  q <- py_div height length ;;
  c <- py_pow3 q ;;
  Py.Ok (fadd (fmul ffour c) (fmul fthree q)).

(** The same expression on pandas columns: nothing is raised. *)
Definition rigidity_modulus_np (height length : F) : F :=
  let q := fdiv height length in
  fadd (fmul ffour (fpow3 q)) (fmul fthree q).

Section Loop.
Variable classify : string -> F -> Py.result (F * F).
Variables X_offset Y_offset : F.

(** Body of [for w in walls: ... rows.append({...})]. *)
Definition wall_row (w : Wall.t F) : Py.result (Base.t F) :=
  let name := _clean_wall_name (Wall.Wall_Name w) in
  let length := Wall.Length_m w in
  let height := Wall.Height_m w in
  let wk := Wall.w_k_kN w in
  let x_coord := Wall.x_coord_m w in
  let y_coord := Wall.y_coord_m w in
  let xk := fsub x_coord X_offset in
  let yk := fsub y_coord Y_offset in
  Di <- rigidity_modulus height length ;;
  R <- classify name Di ;;
  let Rix := fst R in
  let Riy := snd R in
  Py.Ok (Base.mk name length height wk x_coord y_coord xk yk Di Rix Riy
           (fmul Riy xk) (fmul Rix yk)).
End Loop.

(** [df = pd.DataFrame(rows)]: the column ["w_k (kN)"] is numeric as
    soon as one wall carries a weight, and the entry of a wall without
    one then reads NaN; when no wall carries a weight every entry stays
    [None].  The other columns hold floats and are taken as they are. *)
Definition has_weight (r : Base.t F) : bool :=
  match Base.w_k_kN r with Some _ => true | None => false end.

Definition nan_weight (r : Base.t F) : Base.t F :=
  Base.mk (Base.Wall_Name r) (Base.Length_m r) (Base.Height_m r)
    (match Base.w_k_kN r with Some v => Some v | None => Some fnan end)
    (Base.x_coord_m r) (Base.y_coord_m r) (Base.xk_m r) (Base.yk_m r)
    (Base.Di r) (Base.Rix r) (Base.Riy r) (Base.Riy_xk r) (Base.Rix_yk r).

Definition frame (rows : list (Base.t F)) : list (Base.t F) :=
  if existsb has_weight rows then map nan_weight rows else rows.

Section Columns.
Variables Fx Fy ex ey exbar eybar Xcr Ycr sum_Rix sum_Riy : F.

Definition xbar (r : Base.t F) : F := fsub (Base.xk_m r) Xcr.
Definition ybar (r : Base.t F) : F := fsub (Base.yk_m r) Ycr.
Definition Riy_xbar2 (r : Base.t F) : F := fmul (Base.Riy r) (fsquare (xbar r)).
Definition Rix_ybar2 (r : Base.t F) : F := fmul (Base.Rix r) (fsquare (ybar r)).

(** [Jp = float(df["Riy*xbar2"].sum() + df["Rix*ybar2"].sum())] *)
Definition polar (rows : list (Base.t F)) : F :=
  fadd (series_sum (map Riy_xbar2 rows)) (series_sum (map Rix_ybar2 rows)).

Variable Jp : F.

(** Steps 8 to 11 for one row of the table. *)
Definition fill (r : Base.t F) : Row.t F :=
  let Rix := Base.Rix r in
  let Riy := Base.Riy r in
  let Real_Tor_Ratio_x := fdiv (fmul (fmul Rix (ybar r)) ey) Jp in
  let Real_Tor_Ratio_y := fdiv (fmul (fmul Riy (xbar r)) ex) Jp in
  let Vx_Real_Tor := fmul Fx Real_Tor_Ratio_x in
  let Vy_Real_Tor := fmul Fy Real_Tor_Ratio_y in
  let Direct_Shear_Ratio_x := if neq0 sum_Rix then fdiv Rix sum_Rix else fzero in
  let Direct_Shear_Ratio_y := if neq0 sum_Riy then fdiv Riy sum_Riy else fzero in
  let Direct_Shear_x := fmul Fx Direct_Shear_Ratio_x in
  let Direct_Shear_y := fmul Fy Direct_Shear_Ratio_y in
  let AccTorRatio_x := fdiv (fmul (fmul eybar Rix) (ybar r)) Jp in
  let AccTorRatio_y := fdiv (fmul (fmul exbar Riy) (xbar r)) Jp in
  let Vx_Acc_Tor := fmul Fy AccTorRatio_x in
  let Vy_Acc_Tor := fmul Fx AccTorRatio_y in
  let Vx := fadd (fadd Vx_Real_Tor Direct_Shear_x) Vx_Acc_Tor in
  let Vy := fadd (fadd Vy_Real_Tor Direct_Shear_y) (fabs Vy_Acc_Tor) in
  Row.mk (Base.Wall_Name r) (Base.Length_m r) (Base.Height_m r)
    (Base.w_k_kN r) (Base.x_coord_m r) (Base.y_coord_m r)
    (Base.xk_m r) (Base.yk_m r) (Base.Di r) Rix Riy
    (Base.Riy_xk r) (Base.Rix_yk r)
    (xbar r) (ybar r) (Riy_xbar2 r) (Rix_ybar2 r)
    Real_Tor_Ratio_x Real_Tor_Ratio_y Vx_Real_Tor Vy_Real_Tor
    Direct_Shear_Ratio_x Direct_Shear_Ratio_y Direct_Shear_x Direct_Shear_y
    AccTorRatio_x AccTorRatio_y Vx_Acc_Tor Vy_Acc_Tor
    Vx Vy.
End Columns.

(** [for w in walls: ...]: the list [rows], or the first exception. *)
Definition loop (classify : string -> F -> Py.result (F * F))
    (X_offset Y_offset : F) (walls : list (Wall.t F))
  : Py.result (list (Base.t F)) :=
  Py.for_each (wall_row classify X_offset Y_offset) walls.

(** [moment / sum if sum != 0 else undefined]: a centre-of-rigidity
    coordinate; [undefined] is [float("nan")] in R1 and [0.0] in v2. *)
Definition center (undefined moment sum : F) : F :=
  if neq0 sum then fdiv moment sum else undefined.

Definition Xcr_of (undefined : F) (rows : list (Base.t F)) : F :=
  center undefined (series_sum (map (@Base.Riy_xk F) rows))
                   (series_sum (map (@Base.Riy F) rows)).

Definition Ycr_of (undefined : F) (rows : list (Base.t F)) : F :=
  center undefined (series_sum (map (@Base.Rix_yk F) rows))
                   (series_sum (map (@Base.Rix F) rows)).

(** The value [Jp] takes on the table [rows]. *)
Definition Jp_of (undefined : F) (rows : list (Base.t F)) : F :=
  polar (Xcr_of undefined rows) (Ycr_of undefined rows) rows.

(** [compute_rigid_diaphragm] of the R1 script and of the R1 app, up
      to the classifier's message and the app's final sort. *)
Definition compute (classify : string -> F -> Py.result (F * F))
    (inputs : Inputs.t F) (walls : list (Wall.t F))
  : Py.result (list (Row.t F) * Summary.t F) :=
  let L := Inputs.L inputs in
  let B := Inputs.B inputs in
  let Xcm_manual := Inputs.Xcm_manual inputs in
  let Ycm_manual := Inputs.Ycm_manual inputs in
  let X_offset := Inputs.X_offset inputs in
  let Y_offset := Inputs.Y_offset inputs in
  let Fx := Inputs.Fx inputs in
  let Fy := Inputs.Fy inputs in
  let exbar := fmul ftenth L in
  let eybar := fmul ftenth B in
  let Xcm := fsub Xcm_manual X_offset in
  let Ycm := fsub Ycm_manual Y_offset in
  rows <- loop classify X_offset Y_offset walls ;;
  let rows := frame rows in
  match rows with
  | [] => Py.Raise (Py.KeyError "Rix")     (* df["Rix"] on an empty frame *)
  | _ =>
      let sum_Rix := series_sum (map (@Base.Rix F) rows) in
      let sum_Riy := series_sum (map (@Base.Riy F) rows) in
      let Xcr := center fnan (series_sum (map (@Base.Riy_xk F) rows)) sum_Riy in
      let Ycr := center fnan (series_sum (map (@Base.Rix_yk F) rows)) sum_Rix in
      let ex := fabs (fsub Xcm Xcr) in
      let ey := fabs (fsub Ycm Ycr) in
      let Jp := polar Xcr Ycr rows in
      let df := map (fill Fx Fy ex ey exbar eybar Xcr Ycr sum_Rix sum_Riy Jp) rows in
      Py.Ok (df,
             Summary.mk L B X_offset Y_offset Xcm Ycm Xcr Ycr ex ey
               exbar eybar Jp Fx Fy sum_Rix sum_Riy None)
  end.

(** The pair [compute] returns once the loop has produced [rows]: the
    same statements, read as a function of the table. *)
Definition finish (undefined : F) (W : option F)
    (inputs : Inputs.t F) (rows : list (Base.t F))
  : list (Row.t F) * Summary.t F :=
  let L := Inputs.L inputs in
  let B := Inputs.B inputs in
  let X_offset := Inputs.X_offset inputs in
  let Y_offset := Inputs.Y_offset inputs in
  let Fx := Inputs.Fx inputs in
  let Fy := Inputs.Fy inputs in
  let exbar := fmul ftenth L in
  let eybar := fmul ftenth B in
  let Xcm := fsub (Inputs.Xcm_manual inputs) X_offset in
  let Ycm := fsub (Inputs.Ycm_manual inputs) Y_offset in
  let sum_Rix := series_sum (map (@Base.Rix F) rows) in
  let sum_Riy := series_sum (map (@Base.Riy F) rows) in
  let Xcr := Xcr_of undefined rows in
  let Ycr := Ycr_of undefined rows in
  let ex := fabs (fsub Xcm Xcr) in
  let ey := fabs (fsub Ycm Ycr) in
  let Jp := Jp_of undefined rows in
  (map (fill Fx Fy ex ey exbar eybar Xcr Ycr sum_Rix sum_Riy Jp) rows,
   Summary.mk L B X_offset Y_offset Xcm Ycm Xcr Ycr ex ey
     exbar eybar Jp Fx Fy sum_Rix sum_Riy W).

End Template.
End Template.

(** ** [rigid_diaphragm_analysis_R1.py] *)

Module R1.
Section R1.
Context {F : Type} {AF : Arith F}.

Definition _wall_orientation_factors : string -> F -> Py.result (F * F) :=
  Template.orientation " so the script can assign Rix/Riy.".

Definition compute_rigid_diaphragm
  : Inputs.t F -> list (Wall.t F) -> Py.result (list (Row.t F) * Summary.t F) :=
  Template.compute _wall_orientation_factors.
End R1.
End R1.

(** ** [rigid_diaphragm_app_R1.py] *)

Module AppR1.
Section AppR1.
Context {F : Type} {AF : Arith F}.

Definition _wall_orientation_factors : string -> F -> Py.result (F * F) :=
  Template.orientation ".".

(** The body of the R1 script, then the rows sorted east-west first. *)
Definition compute_rigid_diaphragm
    (inputs : Inputs.t F) (walls : list (Wall.t F))
  : Py.result (list (Row.t F) * Summary.t F) :=
  out <- Template.compute _wall_orientation_factors inputs walls ;;
  Py.Ok (Sorting.sort_values (@Row.Wall_Name F) (fst out), snd out).

(** [walls_df["Wall Name"].fillna("").astype(str).str.strip()] on one
    row. *)
Definition strip_name (r : Editor.t F) : Editor.t F :=
  Editor.mk (Str.strip (Editor.Wall_Name r)) (Editor.Length_m r)
    (Editor.Height_m r) (Editor.w_k_kN r) (Editor.x_coord_m r)
    (Editor.y_coord_m r).

(** The rows left after [walls_df[walls_df["Wall Name"] != ""]]. *)
Definition kept (walls_df : list (Editor.t F)) : list (Editor.t F) :=
  filter (fun r => negb (String.eqb (Editor.Wall_Name r) EmptyString))
    (map strip_name walls_df).

(** The block under [if run:]: blank rows are ignored, an empty table
    and unmarked names are reported, then the table is solved. *)
Definition on_run (inputs : Inputs.t F) (walls_df : list (Editor.t F))
  : Page.outcome F :=
  let walls_df := kept walls_df in
  if Nat.eqb (List.length walls_df) 0 then
    Page.Stop (Page.Text "Please add at least one wall.")
  else
    let walls := map Page.to_dict walls_df in
    let bad := map (@Wall.Wall_Name F)
                 (filter (fun w => Page.bad_name (Wall.Wall_Name w)) walls) in
    match bad with
    | _ :: _ => Page.Stop (Page.TextNames Page.bad_names_text bad)
    | [] => Page.report (compute_rigid_diaphragm inputs walls)
    end.
End AppR1.
End AppR1.

(** ** [rigid_diaphragm_app_v2.py] *)

Module V2.
Section V2.
Context {F : Type} {AF : Arith F}.

Definition _wall_orientation_factors : string -> F -> Py.result (F * F) :=
  Template.orientation ".".

(** The table before the classifier loop: names stripped, working
    coordinates and [Di] computed column-wise. *)
Definition frame_row (X_offset Y_offset : F) (w : Wall.t F)
  : string * Wall.t F * F * F * F :=
  (Str.strip (Wall.Wall_Name w), w,
   fsub (Wall.x_coord_m w) X_offset,
   fsub (Wall.y_coord_m w) Y_offset,
   Template.rigidity_modulus_np (Wall.Height_m w) (Wall.Length_m w)).

(** One turn of [for nm, Di in zip(...)], with the two products
    [Riy*xk] and [Rix*yk] of the following step. *)
Definition classify_row (r : string * Wall.t F * F * F * F)
  : Py.result (Base.t F) :=
  let '(nm, w, xk, yk, Di) := r in
  R <- _wall_orientation_factors nm Di ;;
  let rix := fst R in
  let riy := snd R in
  Py.Ok (Base.mk nm (Wall.Length_m w) (Wall.Height_m w)
           (match Wall.w_k_kN w with Some v => Some v | None => Some fnan end)
           (Wall.x_coord_m w) (Wall.y_coord_m w) xk yk Di rix riy
           (fmul riy xk) (fmul rix yk)).

Definition has_w_k (w : Wall.t F) : bool :=
  match Wall.w_k_kN w with Some _ => true | None => false end.

(** The table when the rigidity sums are taken: classified and sorted. *)
Definition table (X_offset Y_offset : F) (walls : list (Wall.t F))
  : Py.result (list (Base.t F)) :=
  classified <- Py.for_each classify_row
                  (map (frame_row X_offset Y_offset) walls) ;;
  Py.Ok (Sorting.sort_values (@Base.Wall_Name F) classified).

Definition compute_rigid_diaphragm
    (inputs : Inputs.t F) (walls : list (Wall.t F))
  : Py.result (list (Row.t F) * Summary.t F) :=
  let L := Inputs.L inputs in
  let B := Inputs.B inputs in
  let Xcm_manual := Inputs.Xcm_manual inputs in
  let Ycm_manual := Inputs.Ycm_manual inputs in
  let W := Inputs.W inputs in
  let X_offset := Inputs.X_offset inputs in
  let Y_offset := Inputs.Y_offset inputs in
  let Fx := Inputs.Fx inputs in
  let Fy := Inputs.Fy inputs in
  let Xcm := fsub Xcm_manual X_offset in
  let Ycm := fsub Ycm_manual Y_offset in
  match walls with
  | [] => Py.Raise (Py.ValueError "No walls provided.")
  | _ =>
      rows <- table X_offset Y_offset walls ;;
      let sum_Rix := series_sum (map (@Base.Rix F) rows) in
      let sum_Riy := series_sum (map (@Base.Riy F) rows) in
      let Xcr := Template.center fzero
                   (series_sum (map (@Base.Riy_xk F) rows)) sum_Riy in
      let Ycr := Template.center fzero
                   (series_sum (map (@Base.Rix_yk F) rows)) sum_Rix in
      let ex := fabs (fsub Xcm Xcr) in
      let ey := fabs (fsub Ycm Ycr) in
      let exbar := fmul ftenth L in
      let eybar := fmul ftenth B in
      let Jp := Template.polar Xcr Ycr rows in
      if is_zero Jp then Py.Raise Py.ZeroDivisionError
      else
        let df := map (Template.fill Fx Fy ex ey exbar eybar Xcr Ycr
                         sum_Rix sum_Riy Jp) rows in
        (* df[ordered_cols] needs the column "w_k (kN)" *)
        if existsb has_w_k walls then
          Py.Ok (df,
                 Summary.mk L B X_offset Y_offset Xcm Ycm Xcr Ycr ex ey
                   exbar eybar Jp Fx Fy sum_Rix sum_Riy (Some W))
        else Py.Raise (Py.KeyError "['w_k (kN)'] not in index")
  end.

(** The rows left after
    [df_in[df_in["Wall Name"].astype(str).str.strip() != ""]]; the
    names themselves are not stripped here. *)
Definition kept (walls_df : list (Editor.t F)) : list (Editor.t F) :=
  filter (fun r => negb (String.eqb (Str.strip (Editor.Wall_Name r)) EmptyString))
    walls_df.

(** The block under [if run:] of [main]: blank rows are ignored,
    unmarked names are reported, then the table is solved. *)
Definition on_run (inputs : Inputs.t F) (walls_df : list (Editor.t F))
  : Page.outcome F :=
  let df_in := kept walls_df in
  let bad := filter Page.bad_name (map (@Editor.Wall_Name F) df_in) in
  match bad with
  | _ :: _ => Page.Stop (Page.TextNames Page.bad_names_text bad)
  | [] => Page.report (compute_rigid_diaphragm inputs (map Page.to_dict df_in))
  end.
End V2.
End V2.

(** ** [rigid_streamlit_app.py] *)

Module Streamlit.

(** A row of the [walls] frame, numbers already through [_to_float]
    (a blank cell is NaN). *)
Module WallIn.
Record t (F : Type) : Type := mk {
    marker : string;
    L : F;
    H : F;
    w : F;
    x : F;
    y : F
  }.
End WallIn.

(** The [inputs] dictionary after [_to_float]. *)
Module In.
Record t (F : Type) : Type := mk {
    Vx : F;
    Vy : F;
    origin_x : F;
    origin_y : F;
    plan_dim_x : F;
    plan_dim_y : F;
    diaphragm_w : F;
    diaphragm_x : F;
    diaphragm_y : F
  }.
End In.

(** A row of the returned frame, columns in the order they are made. *)
Module Out.
Record t (F : Type) : Type := mk {
    marker : string;
    L : F;
    H : F;
    w : F;
    x : F;
    y : F;
    xk : F;
    yk : F;
    delta : F;
    Ri_EW : F;
    Ri_NS : F;
    xbar : F;
    ybar : F;
    DirectRatio_X : F;
    DirectRatio_Y : F;
    DirectShear_X : F;
    DirectShear_Y : F;
    RealTorRatio_X : F;
    RealTorRatio_Y : F;
    AccTorRatio_X : F;
    AccTorRatio_Y : F;
    RealTor_X : F;
    RealTor_Y : F;
    AccTor_X : F;
    AccTor_Y : F;
    V_X : F;
    V_Y : F
  }.
End Out.

Module Globals.
Record t (F : Type) : Type := mk {
    sum_Ri_EW : F;
    sum_Ri_NS : F;
    xr_local : F;
    yr_local : F;
    xcg_local : F;
    ycg_local : F;
    ex_real : F;
    ey_real : F;
    ex_acc : F;
    ey_acc : F;
    Jpx : F;
    Jpy : F;
    Jp : F;
    Wtot : F
  }.
End Globals.

(** The columns up to [Ri_NS], which need no table-wide quantity. *)
Module Pre.
Record t (F : Type) : Type := mk {
    marker : string;
    L : F;
    H : F;
    w : F;
    x : F;
    y : F;
    xk : F;
    yk : F;
    delta : F;
    Ri_EW : F;
    Ri_NS : F
  }.
End Pre.

Section Streamlit.
Context {F : Type} {AF : Arith F}.

(** [astype(str).replace('nan', '').str.strip()]: a marker that reads
    nan becomes empty, then whitespace is stripped. *)
Definition clean_marker (m : string) : string :=
  Str.strip (if String.eqb m "nan" then EmptyString else m).

(** A row is dropped when it has no marker and no geometry. *)
Definition is_empty_row (r : WallIn.t F) : bool :=
  String.eqb (clean_marker (WallIn.marker r)) EmptyString &&
  (is_nan (WallIn.L r) && is_nan (WallIn.H r) &&
   is_nan (WallIn.x r) && is_nan (WallIn.y r)).

Definition is_EW (m : string) : bool := Str.startswith (Str.upper m) "EW".
Definition is_NS (m : string) : bool := Str.startswith (Str.upper m) "NS".

Definition pre_row (ox oy : F) (r : WallIn.t F) : Pre.t F :=
  let marker := clean_marker (WallIn.marker r) in
  let xk := fsub (WallIn.x r) ox in
  let yk := fsub (WallIn.y r) oy in
  let hl := fdiv (WallIn.H r) (WallIn.L r) in
  let delta := fadd (fmul ffour (fpow3 hl)) (fmul fthree hl) in
  let Ri_EW := if is_EW marker then fdiv fone delta else fzero in
  let Ri_NS := if is_NS marker then fdiv fone delta else fzero in
  Pre.mk marker (WallIn.L r) (WallIn.H r) (WallIn.w r) (WallIn.x r)
    (WallIn.y r) xk yk delta Ri_EW Ri_NS.

(** [w.fillna(0.0)] *)
Definition fillna0 (v : F) : F := if is_nan v then fzero else v.

Section Rows.
Variables Vx Vy xr yr sum_Ri_EW sum_Ri_NS ex_real ey_real ex_acc ey_acc Jp : F.

Definition xbar (r : Pre.t F) : F := fsub (Pre.xk r) xr.
Definition ybar (r : Pre.t F) : F := fsub (Pre.yk r) yr.

(** The columns from [xbar] to [V_Y] of one row. *)
Definition out_row (r : Pre.t F) : Out.t F :=
  let DirectRatio_X := if neq0 sum_Ri_EW then fdiv (Pre.Ri_EW r) sum_Ri_EW else fnan in
  let DirectRatio_Y := if neq0 sum_Ri_NS then fdiv (Pre.Ri_NS r) sum_Ri_NS else fnan in
  let DirectShear_X := fmul Vx DirectRatio_X in
  let DirectShear_Y := fmul Vy DirectRatio_Y in
  let RealTorRatio_X :=
    if neq0 Jp then fdiv (fmul (fmul ey_real (Pre.Ri_EW r)) (ybar r)) Jp else fnan in
  let RealTorRatio_Y :=
    if neq0 Jp then fdiv (fmul (fmul ex_real (Pre.Ri_NS r)) (xbar r)) Jp else fnan in
  let AccTorRatio_X :=
    if neq0 Jp then fdiv (fmul (fmul ey_acc (Pre.Ri_EW r)) (ybar r)) Jp else fnan in
  let AccTorRatio_Y :=
    if neq0 Jp then fdiv (fmul (fmul ex_acc (Pre.Ri_NS r)) (xbar r)) Jp else fnan in
  let RealTor_X := fmul Vx RealTorRatio_X in
  let RealTor_Y := fmul Vy RealTorRatio_Y in
  let AccTor_X := fmul Vx AccTorRatio_X in
  let AccTor_Y := fmul Vy AccTorRatio_Y in
  let V_X := fadd (fadd DirectShear_X RealTor_X) (fabs AccTor_X) in
  let V_Y := fadd (fadd DirectShear_Y RealTor_Y) (fabs AccTor_Y) in
  Out.mk (Pre.marker r) (Pre.L r) (Pre.H r) (Pre.w r) (Pre.x r) (Pre.y r)
    (Pre.xk r) (Pre.yk r) (Pre.delta r) (Pre.Ri_EW r) (Pre.Ri_NS r)
    (xbar r) (ybar r)
    DirectRatio_X DirectRatio_Y DirectShear_X DirectShear_Y
    RealTorRatio_X RealTorRatio_Y AccTorRatio_X AccTorRatio_Y
    RealTor_X RealTor_Y AccTor_X AccTor_Y V_X V_Y.
End Rows.

(** [value if sum != 0 else np.nan] *)
Definition ratio_or_nan (num den : F) : F :=
  if neq0 den then fdiv num den else fnan.

(** [abs(a - b) if (not np.isnan(a) and not np.isnan(b)) else np.nan] *)
Definition ecc (cg r : F) : F :=
  if negb (is_nan cg) && negb (is_nan r) then fabs (fsub cg r) else fnan.

Definition wall_w (r : Pre.t F) : F := fillna0 (Pre.w r).

Definition compute_rigid_diaph (walls : list (WallIn.t F)) (inputs : In.t F)
  : list (Out.t F) * Globals.t F :=
  let df0 := filter (fun r => negb (is_empty_row r)) walls in
  let ox := In.origin_x inputs in
  let oy := In.origin_y inputs in
  let Vx := In.Vx inputs in
  let Vy := In.Vy inputs in
  let plan_x := In.plan_dim_x inputs in
  let plan_y := In.plan_dim_y inputs in
  let dia_w := In.diaphragm_w inputs in
  let dia_x := In.diaphragm_x inputs in
  let dia_y := In.diaphragm_y inputs in
  let df := map (pre_row ox oy) df0 in
  let sum_Ri_EW := series_sum (map (@Pre.Ri_EW F) df) in
  let sum_Ri_NS := series_sum (map (@Pre.Ri_NS F) df) in
  let xr := ratio_or_nan
              (series_sum (map (fun r => fmul (Pre.Ri_NS r) (Pre.xk r)) df))
              sum_Ri_NS in
  let yr := ratio_or_nan
              (series_sum (map (fun r => fmul (Pre.Ri_EW r) (Pre.yk r)) df))
              sum_Ri_EW in
  let Jpy := series_sum (map (fun r => fmul (Pre.Ri_NS r) (fsquare (xbar xr r))) df) in
  let Jpx := series_sum (map (fun r => fmul (Pre.Ri_EW r) (fsquare (ybar yr r))) df) in
  let Jp := fadd Jpx Jpy in
  let dia_xk := fsub dia_x ox in
  let dia_yk := fsub dia_y oy in
  let Wtot := fadd (series_sum (map wall_w df))
                   (if is_nan dia_w then fzero else dia_w) in
  let xcg := ratio_or_nan
               (fadd (series_sum (map (fun r => fmul (wall_w r) (Pre.xk r)) df))
                     (fmul dia_w dia_xk)) Wtot in
  let ycg := ratio_or_nan
               (fadd (series_sum (map (fun r => fmul (wall_w r) (Pre.yk r)) df))
                     (fmul dia_w dia_yk)) Wtot in
  let ex_real := ecc xcg xr in
  let ey_real := ecc ycg yr in
  let ex_acc := fmul ftenth plan_x in
  let ey_acc := fmul ftenth plan_y in
  (map (out_row Vx Vy xr yr sum_Ri_EW sum_Ri_NS ex_real ey_real ex_acc ey_acc Jp) df,
   Globals.mk sum_Ri_EW sum_Ri_NS xr yr xcg ycg ex_real ey_real
     ex_acc ey_acc Jpx Jpy Jp Wtot).

End Streamlit.
End Streamlit.

(** ** Laws of the float operations the proofs rely on

    Each of them holds in IEEE binary64 and in the exact carrier: NaN
    absorbs, and the rigidity modulus of a zero ratio is zero. *)

Class ArithLaws (F : Type) {AF : Arith F} : Prop := {
  feqb_zero_zero : feqb fzero fzero = true;
  fadd_zero_zero : fadd fzero fzero = fzero;
  fsub_nan_r : forall x, fsub x fnan = fnan;
  fmul_nan_l : forall x, fmul fnan x = fnan;
  fmul_nan_r : forall x, fmul x fnan = fnan;
  fdiv_nan_l : forall x, fdiv fnan x = fnan;
  fadd_nan_l : forall x, fadd fnan x = fnan;
  fdiv_zero_l : forall a b,
    is_zero a = true -> is_zero b = false -> is_nan b = false ->
    is_zero (fdiv a b) = true;
  fpow3_zero : forall x, is_zero x = true -> is_zero (fpow3 x) = true;
  fmul_four_zero : forall x, is_zero x = true -> is_zero (fmul ffour x) = true;
  fmul_three_zero : forall x, is_zero x = true -> is_zero (fmul fthree x) = true;
  fadd_zero : forall x y,
    is_zero x = true -> is_zero y = true -> is_zero (fadd x y) = true;
  fmul_finite_zero : forall x,
    is_finite x = true -> is_zero (fmul x fzero) = true
}.

(** ** Properties of a result table *)

Section Properties.
Context {F : Type} {AF : Arith F}.

(** Accidental torsion driven by the orthogonal force (step 10). *)
Definition cross_coupled (inputs : Inputs.t F)
    (out : list (Row.t F) * Summary.t F) : Prop :=
  let eybar := fmul ftenth (Inputs.B inputs) in
  let exbar := fmul ftenth (Inputs.L inputs) in
  let Jp := Summary.Jp (snd out) in
  Forall (fun r =>
    Row.AccTorRatio_x r = fdiv (fmul (fmul eybar (Row.Rix r)) (Row.ybar r)) Jp /\
    Row.AccTorRatio_y r = fdiv (fmul (fmul exbar (Row.Riy r)) (Row.xbar r)) Jp /\
    Row.Vx_Acc_Tor r = fmul (Inputs.Fy inputs) (Row.AccTorRatio_x r) /\
    Row.Vy_Acc_Tor r = fmul (Inputs.Fx inputs) (Row.AccTorRatio_y r)) (fst out).

(** The same reading on the streamlit table. *)
Definition streamlit_cross_coupled (inputs : Streamlit.In.t F)
    (out : list (Streamlit.Out.t F) * Streamlit.Globals.t F) : Prop :=
  Forall (fun r =>
    Streamlit.Out.AccTor_X r
      = fmul (Streamlit.In.Vy inputs) (Streamlit.Out.AccTorRatio_X r) /\
    Streamlit.Out.AccTor_Y r
      = fmul (Streamlit.In.Vx inputs) (Streamlit.Out.AccTorRatio_Y r)) (fst out).

(** What the streamlit table has instead: the force of the same axis,
    and a NaN ratio when [Jp] is zero. *)
Definition streamlit_same_axis (inputs : Streamlit.In.t F)
    (out : list (Streamlit.Out.t F) * Streamlit.Globals.t F) : Prop :=
  let ey_acc := fmul ftenth (Streamlit.In.plan_dim_y inputs) in
  let ex_acc := fmul ftenth (Streamlit.In.plan_dim_x inputs) in
  let Jp := Streamlit.Globals.Jp (snd out) in
  Forall (fun r =>
    Streamlit.Out.AccTorRatio_X r
      = (if neq0 Jp
         then fdiv (fmul (fmul ey_acc (Streamlit.Out.Ri_EW r)) (Streamlit.Out.ybar r)) Jp
         else fnan) /\
    Streamlit.Out.AccTorRatio_Y r
      = (if neq0 Jp
         then fdiv (fmul (fmul ex_acc (Streamlit.Out.Ri_NS r)) (Streamlit.Out.xbar r)) Jp
         else fnan) /\
    Streamlit.Out.AccTor_X r
      = fmul (Streamlit.In.Vx inputs) (Streamlit.Out.AccTorRatio_X r) /\
    Streamlit.Out.AccTor_Y r
      = fmul (Streamlit.In.Vy inputs) (Streamlit.Out.AccTorRatio_Y r)) (fst out).

(** Totals of step 11: X signed, Y with the accidental term in magnitude. *)
Definition asymmetric_totals (out : list (Row.t F) * Summary.t F) : Prop :=
  Forall (fun r =>
    Row.Vx_kN r
      = fadd (fadd (Row.Vx_Real_Tor r) (Row.Direct_Shear_x r)) (Row.Vx_Acc_Tor r) /\
    Row.Vy_kN r
      = fadd (fadd (Row.Vy_Real_Tor r) (Row.Direct_Shear_y r))
             (fabs (Row.Vy_Acc_Tor r))) (fst out).

(** The same reading on the streamlit table. *)
Definition streamlit_asymmetric_totals
    (out : list (Streamlit.Out.t F) * Streamlit.Globals.t F) : Prop :=
  Forall (fun r =>
    Streamlit.Out.V_X r
      = fadd (fadd (Streamlit.Out.RealTor_X r) (Streamlit.Out.DirectShear_X r))
             (Streamlit.Out.AccTor_X r) /\
    Streamlit.Out.V_Y r
      = fadd (fadd (Streamlit.Out.RealTor_Y r) (Streamlit.Out.DirectShear_Y r))
             (fabs (Streamlit.Out.AccTor_Y r))) (fst out).

(** What the streamlit table has instead: both accidental terms in
    magnitude, added to direct plus real torsion. *)
Definition streamlit_abs_totals
    (out : list (Streamlit.Out.t F) * Streamlit.Globals.t F) : Prop :=
  Forall (fun r =>
    Streamlit.Out.V_X r
      = fadd (fadd (Streamlit.Out.DirectShear_X r) (Streamlit.Out.RealTor_X r))
             (fabs (Streamlit.Out.AccTor_X r)) /\
    Streamlit.Out.V_Y r
      = fadd (fadd (Streamlit.Out.DirectShear_Y r) (Streamlit.Out.RealTor_Y r))
             (fabs (Streamlit.Out.AccTor_Y r))) (fst out).

(** A wall the classifier takes as east-west. *)
Definition classified_EW (name : string) : bool :=
  Str.contains "EW" (Str.upper (Str.strip name)).

(** A wall name with neither marker, case-insensitively. *)
Definition unmarked (name : string) : bool :=
  negb (Str.contains "EW" (Str.upper name)) &&
  negb (Str.contains "NS" (Str.upper name)).

(** The message of the naming error, [tail] as in [Template.orientation]. *)
Definition naming_error (tail : string) (name : string) : Py.error :=
  Py.ValueError
    ("Wall Name '" ++ Str.strip name ++ "' must contain 'EW' or 'NS'" ++ tail).

(** All four torsion ratios of every row are NaN. *)
Definition streamlit_nan_torsion
    (out : list (Streamlit.Out.t F) * Streamlit.Globals.t F) : Prop :=
  Forall (fun r =>
    Streamlit.Out.RealTorRatio_X r = fnan /\
    Streamlit.Out.RealTorRatio_Y r = fnan /\
    Streamlit.Out.AccTorRatio_X r = fnan /\
    Streamlit.Out.AccTorRatio_Y r = fnan) (fst out).


(** The centre of rigidity of an axis that has resisting walls. *)
Definition center_computed (out : list (Row.t F) * Summary.t F) : Prop :=
  let s := snd out in
  (is_zero (Summary.sum_Riy s) = false ->
   Summary.Xcr s
   = fdiv (series_sum (map (@Row.Riy_xk F) (fst out))) (Summary.sum_Riy s)) /\
  (is_zero (Summary.sum_Rix s) = false ->
   Summary.Ycr s
   = fdiv (series_sum (map (@Row.Rix_yk F) (fst out))) (Summary.sum_Rix s)).



(** *** Erasing the weights *)

Definition forget_W (i : Inputs.t F) : Inputs.t F :=
  Inputs.mk (Inputs.L i) (Inputs.B i) (Inputs.Xcm_manual i)
    (Inputs.Ycm_manual i) fzero (Inputs.X_offset i) (Inputs.Y_offset i)
    (Inputs.Fx i) (Inputs.Fy i).

Definition forget_wk (w : Wall.t F) : Wall.t F :=
  Wall.mk (Wall.Wall_Name w) (Wall.Length_m w) (Wall.Height_m w) None
    (Wall.x_coord_m w) (Wall.y_coord_m w).

Definition forget_base_wk (r : Base.t F) : Base.t F :=
  Base.mk (Base.Wall_Name r) (Base.Length_m r) (Base.Height_m r) None
    (Base.x_coord_m r) (Base.y_coord_m r) (Base.xk_m r) (Base.yk_m r)
    (Base.Di r) (Base.Rix r) (Base.Riy r) (Base.Riy_xk r) (Base.Rix_yk r).

Definition forget_row_wk (r : Row.t F) : Row.t F :=
  Row.mk (Row.Wall_Name r) (Row.Length_m r) (Row.Height_m r) None
    (Row.x_coord_m r) (Row.y_coord_m r) (Row.xk_m r) (Row.yk_m r)
    (Row.Di r) (Row.Rix r) (Row.Riy r) (Row.Riy_xk r) (Row.Rix_yk r)
    (Row.xbar r) (Row.ybar r) (Row.Riy_xbar2 r) (Row.Rix_ybar2 r)
    (Row.Real_Tor_Ratio_x r) (Row.Real_Tor_Ratio_y r)
    (Row.Vx_Real_Tor r) (Row.Vy_Real_Tor r)
    (Row.Direct_Shear_Ratio_x r) (Row.Direct_Shear_Ratio_y r)
    (Row.Direct_Shear_x r) (Row.Direct_Shear_y r)
    (Row.AccTorRatio_x r) (Row.AccTorRatio_y r)
    (Row.Vx_Acc_Tor r) (Row.Vy_Acc_Tor r) (Row.Vx_kN r) (Row.Vy_kN r).

Definition forget_summary_W (s : Summary.t F) : Summary.t F :=
  Summary.mk (Summary.L s) (Summary.B s) (Summary.X_offset s)
    (Summary.Y_offset s) (Summary.Xcm s) (Summary.Ycm s) (Summary.Xcr s)
    (Summary.Ycr s) (Summary.ex s) (Summary.ey s) (Summary.exbar s)
    (Summary.eybar s) (Summary.Jp s) (Summary.Fx s) (Summary.Fy s)
    (Summary.sum_Rix s) (Summary.sum_Riy s) None.

Definition forget_pair (o : list (Row.t F) * Summary.t F)
  : list (Row.t F) * Summary.t F :=
  (map forget_row_wk (fst o), forget_summary_W (snd o)).

(** The outcome of a solve, but for the echoed weights. *)
Definition forget_weights (o : Py.result (list (Row.t F) * Summary.t F))
  : Py.result (list (Row.t F) * Summary.t F) :=
  match o with
  | Py.Ok p => Py.Ok (forget_pair p)
  | Py.Raise e => Py.Raise e
  end.

(** A map over the rows a loop has built, if it has built them. *)
Definition lift_rows (f : Base.t F -> Base.t F) (m : Py.result (list (Base.t F)))
  : Py.result (list (Base.t F)) :=
  match m with
  | Py.Ok rows => Py.Ok (map f rows)
  | Py.Raise e => Py.Raise e
  end.

(** The weights as the column ["w_k (kN)"] of a frame holds them: NaN
    for a wall without a weight once a wall of the column has one. *)
Definition numeric_weight (v : option F) : option F :=
  match v with Some x => Some x | None => Some fnan end.

Definition has_value (v : option F) : bool :=
  match v with Some _ => true | None => false end.

Definition pd_weights (col : list (option F)) : list (option F) :=
  if existsb has_value col then map numeric_weight col else col.

(** Two inputs that differ in the wall weights and in [W] at most. *)
Definition same_but_weights (i1 : Inputs.t F) (ws1 : list (Wall.t F))
    (i2 : Inputs.t F) (ws2 : list (Wall.t F)) : Prop :=
  forget_W i1 = forget_W i2 /\ map forget_wk ws1 = map forget_wk ws2.

(** *** Moving the origin *)

(** The offset and the mass centre moved by [(a, b)]. *)
Definition translate_inputs (a b : F) (i : Inputs.t F) : Inputs.t F :=
  Inputs.mk (Inputs.L i) (Inputs.B i)
    (fadd (Inputs.Xcm_manual i) a) (fadd (Inputs.Ycm_manual i) b)
    (Inputs.W i)
    (fadd (Inputs.X_offset i) a) (fadd (Inputs.Y_offset i) b)
    (Inputs.Fx i) (Inputs.Fy i).

(** A wall moved by [(a, b)]. *)
Definition translate_wall (a b : F) (w : Wall.t F) : Wall.t F :=
  Wall.mk (Wall.Wall_Name w) (Wall.Length_m w) (Wall.Height_m w)
    (Wall.w_k_kN w) (fadd (Wall.x_coord_m w) a) (fadd (Wall.y_coord_m w) b).







(** Length and height are finite numbers. *)
Definition finite_geometry (w : Wall.t F) : bool :=
  is_finite (Wall.Length_m w) && is_finite (Wall.Height_m w).

(** Length and height are finite numbers other than zero. *)
Definition proper_geometry (w : Wall.t F) : bool :=
  finite_geometry w &&
  negb (is_zero (Wall.Length_m w)) && negb (is_zero (Wall.Height_m w)).

Definition streamlit_proper_geometry (r : Streamlit.WallIn.t F) : bool :=
  is_finite (Streamlit.WallIn.L r) && is_finite (Streamlit.WallIn.H r) &&
  negb (is_zero (Streamlit.WallIn.L r)) && negb (is_zero (Streamlit.WallIn.H r)).


(** The direct shears of the table add up to the applied forces. *)
Definition direct_shear_conserved (inputs : Inputs.t F)
    (out : list (Row.t F) * Summary.t F) : Prop :=
  total (map (@Row.Direct_Shear_x F) (fst out)) = Inputs.Fx inputs /\
  total (map (@Row.Direct_Shear_y F) (fst out)) = Inputs.Fy inputs.

End Properties.

(** ** Concrete inputs *)

Module Demo.

Local Open Scope float_scope.
Local Open Scope string_scope.

(** The default layout of the two apps (binary64). *)
Definition inputs : Inputs.t float :=
  Inputs.mk 64.61 62.61 31.5 35 0 55.8 9.87 145 145.

Definition walls : list (Wall.t float) :=
  [ Wall.mk "EW1" 3.4 3.07 (Some 0) 0 62.61;
    Wall.mk "EW2" 4.1 3.07 (Some 0) 0 62.61;
    Wall.mk "NS1" 6.5 3.07 (Some 0) 64.61 0;
    Wall.mk "NS2" 4.8 3.07 (Some 0) 62.81 0 ].

(** A layout with walls on both sides of the centre of rigidity. *)
Definition plan_inputs : Inputs.t float :=
  Inputs.mk 20 10 12 7 0 2 1 100 50.

Definition plan_walls : list (Wall.t float) :=
  [ Wall.mk "EW1" 2 2 (Some 0) 0 1;
    Wall.mk "EW2" 2 2 (Some 0) 0 9;
    Wall.mk "NS1" 2 2 (Some 0) 2 0;
    Wall.mk "NS2" 2 2 (Some 0) 18 0 ].

(** The same layout for the streamlit solver. *)
Definition st_inputs : Streamlit.In.t float :=
  Streamlit.In.mk 100 50 2 1 20 10 1000 12 7.

Definition st_walls : list (Streamlit.WallIn.t float) :=
  [ Streamlit.WallIn.mk "EW1" 2 2 0 0 1;
    Streamlit.WallIn.mk "EW2" 2 2 0 0 9;
    Streamlit.WallIn.mk "NS1" 2 2 0 2 0;
    Streamlit.WallIn.mk "NS2" 2 2 0 18 0 ].

(** The demo layout with a third east-west wall named ["W1"]. *)
Definition w1_walls : list (Wall.t float) :=
  [ Wall.mk "EW1" 2 2 (Some 0) 0 1;
    Wall.mk "W1" 2 2 (Some 0) 0 5;
    Wall.mk "EW2" 2 2 (Some 0) 0 9;
    Wall.mk "NS1" 2 2 (Some 0) 2 0;
    Wall.mk "NS2" 2 2 (Some 0) 18 0 ].

Definition st_w1_walls : list (Streamlit.WallIn.t float) :=
  [ Streamlit.WallIn.mk "EW1" 2 2 0 0 1;
    Streamlit.WallIn.mk "W1" 2 2 0 0 5;
    Streamlit.WallIn.mk "EW2" 2 2 0 0 9;
    Streamlit.WallIn.mk "NS1" 2 2 0 2 0;
    Streamlit.WallIn.mk "NS2" 2 2 0 18 0 ].

(** The demo layout with the marker of the last wall inside its name. *)
Definition inner_marker_walls : list (Wall.t float) :=
  [ Wall.mk "EW1" 2 2 (Some 0) 0 1;
    Wall.mk "EW2" 2 2 (Some 0) 0 9;
    Wall.mk "NS1" 2 2 (Some 0) 2 0;
    Wall.mk "xNS2" 2 2 (Some 0) 18 0 ].

Definition st_inner_marker_walls : list (Streamlit.WallIn.t float) :=
  [ Streamlit.WallIn.mk "EW1" 2 2 0 0 1;
    Streamlit.WallIn.mk "EW2" 2 2 0 0 9;
    Streamlit.WallIn.mk "NS1" 2 2 0 2 0;
    Streamlit.WallIn.mk "xNS2" 2 2 0 18 0 ].

(** Two east-west and two north-south walls, each pair on one line:
    every wall sits on the centre of rigidity and [Jp] is zero. *)
Definition coincident_walls : list (Wall.t float) :=
  [ Wall.mk "EW1" 2 2 (Some 0) 0 5;
    Wall.mk "EW2" 2 2 (Some 0) 0 5;
    Wall.mk "NS1" 2 2 (Some 0) 3 0;
    Wall.mk "NS2" 2 2 (Some 0) 3 0 ].

Definition st_coincident_walls : list (Streamlit.WallIn.t float) :=
  [ Streamlit.WallIn.mk "EW1" 2 2 0 0 5;
    Streamlit.WallIn.mk "EW2" 2 2 0 0 5;
    Streamlit.WallIn.mk "NS1" 2 2 0 3 0;
    Streamlit.WallIn.mk "NS2" 2 2 0 3 0 ].

(** East-west walls only. *)
Definition ew_walls : list (Wall.t float) :=
  [ Wall.mk "EW1" 2 2 (Some 0) 0 1;
    Wall.mk "EW2" 2 2 (Some 0) 0 9 ].



(** The demo layout with a negative length, a zero length, a zero height. *)
Definition negative_length_walls : list (Wall.t float) :=
  [ Wall.mk "EW1" (-1) 2 (Some 0) 0 1;
    Wall.mk "EW2" 2 2 (Some 0) 0 9;
    Wall.mk "NS1" 2 2 (Some 0) 2 0;
    Wall.mk "NS2" 2 2 (Some 0) 18 0 ].

Definition zero_length_walls : list (Wall.t float) :=
  [ Wall.mk "EW1" 2 2 (Some 0) 0 1;
    Wall.mk "EW2" 0 2 (Some 0) 0 9;
    Wall.mk "NS1" 2 2 (Some 0) 2 0;
    Wall.mk "NS2" 2 2 (Some 0) 18 0 ].

Definition zero_height_walls : list (Wall.t float) :=
  [ Wall.mk "EW1" 2 2 (Some 0) 0 1;
    Wall.mk "EW2" 2 0 (Some 0) 0 9;
    Wall.mk "NS1" 2 2 (Some 0) 2 0;
    Wall.mk "NS2" 2 2 (Some 0) 18 0 ].

Definition st_zero_length_walls : list (Streamlit.WallIn.t float) :=
  [ Streamlit.WallIn.mk "EW1" 2 2 0 0 1;
    Streamlit.WallIn.mk "EW2" 0 2 0 0 9;
    Streamlit.WallIn.mk "NS1" 2 2 0 2 0;
    Streamlit.WallIn.mk "NS2" 2 2 0 18 0 ].

(** The demo layout with other weights. *)
Definition weighted_inputs : Inputs.t float :=
  Inputs.mk 20 10 12 7 2456 2 1 100 50.

Definition weighted_walls : list (Wall.t float) :=
  [ Wall.mk "EW1" 2 2 (Some 10) 0 1;
    Wall.mk "EW2" 2 2 (Some 20) 0 9;
    Wall.mk "NS1" 2 2 (Some 30) 2 0;
    Wall.mk "NS2" 2 2 (Some 40) 18 0 ].

(** The demo layout with a weight on the first and the last wall only. *)
Definition partly_weighted_walls : list (Wall.t float) :=
  [ Wall.mk "EW1" 2 2 (Some 5) 0 1;
    Wall.mk "EW2" 2 2 None 0 9;
    Wall.mk "NS1" 2 2 None 2 0;
    Wall.mk "NS2" 2 2 (Some 7) 18 0 ].

(** The demo layout moved by [(1, 2)]. *)
Definition moved_inputs : Inputs.t float := translate_inputs 1 2 plan_inputs.


End Demo.

(** The demo layout in exact arithmetic. *)
Module XDemo.

Definition n (z : Z) : xreal := X.of_Z z.

Definition inputs : Inputs.t xreal :=
  Inputs.mk (n 20) (n 10) (n 12) (n 7) (n 0) (n 2) (n 1) (n 100) (n 50).

Definition walls : list (Wall.t xreal) :=
  [ Wall.mk "EW1" (n 2) (n 2) (Some (n 0)) (n 0) (n 1);
    Wall.mk "EW2" (n 2) (n 2) (Some (n 0)) (n 0) (n 9);
    Wall.mk "NS1" (n 2) (n 2) (Some (n 0)) (n 2) (n 0);
    Wall.mk "NS2" (n 2) (n 2) (Some (n 0)) (n 18) (n 0) ].

Definition st_inputs : Streamlit.In.t xreal :=
  Streamlit.In.mk (n 100) (n 50) (n 2) (n 1) (n 20) (n 10) (n 1000) (n 12) (n 7).

Definition st_walls : list (Streamlit.WallIn.t xreal) :=
  [ Streamlit.WallIn.mk "EW1" (n 2) (n 2) (n 0) (n 0) (n 1);
    Streamlit.WallIn.mk "EW2" (n 2) (n 2) (n 0) (n 0) (n 9);
    Streamlit.WallIn.mk "NS1" (n 2) (n 2) (n 0) (n 2) (n 0);
    Streamlit.WallIn.mk "NS2" (n 2) (n 2) (n 0) (n 18) (n 0) ].

End XDemo.

(** ** Properties of the exceptions, the row order and the pages *)

(** The row [x] may stand before the row [y] in a table sorted by
    [(_dir, Wall Name)]. *)
Definition comes_before {A : Type} (name : A -> string) (x y : A) : Prop :=
  Sorting.key_le (name x) (name y) = true.

Section Outcomes.
Context {F : Type} {AF : Arith F}.

(** The ways one turn of the wall loop of the R1 script can fail on the
    wall [w]: a zero length or a zero [Di], an overflowing cube, or a
    name without a marker. *)
Definition row_failure (tail : string) (w : Wall.t F) (e : Py.error) : Prop :=
  (e = Py.ZeroDivisionError /\
   (is_zero (Wall.Length_m w) = true \/
    exists Di,
      Template.rigidity_modulus (Wall.Height_m w) (Wall.Length_m w) = Py.Ok Di /\
      is_zero Di = true /\ unmarked (Wall.Wall_Name w) = false)) \/
  (e = Py.OverflowError /\
   Template.rigidity_modulus (Wall.Height_m w) (Wall.Length_m w)
   = Py.Raise Py.OverflowError) \/
  (e = naming_error tail (Wall.Wall_Name w) /\
   unmarked (Wall.Wall_Name w) = true /\
   exists Di,
     Template.rigidity_modulus (Wall.Height_m w) (Wall.Length_m w) = Py.Ok Di).

(** The ways one turn of the classifier loop of app_v2 can fail: a
    zero [Di] of a marked wall, or a name without a marker. *)
Definition v2_row_failure (w : Wall.t F) (e : Py.error) : Prop :=
  (e = Py.ZeroDivisionError /\
   unmarked (Wall.Wall_Name w) = false /\
   is_zero (Template.rigidity_modulus_np (Wall.Height_m w) (Wall.Length_m w))
   = true) \/
  (e = naming_error "." (Wall.Wall_Name w) /\
   unmarked (Wall.Wall_Name w) = true).

End Outcomes.

(** Tables of the wall editor (binary64). *)
Module PageDemo.

Local Open Scope float_scope.
Local Open Scope string_scope.

(** The rows both apps start with, and an empty row under them. *)
Definition default_rows : list (Editor.t float) :=
  [ Editor.mk "EW1" 3.4 3.07 0 0 62.61;
    Editor.mk "EW2" 4.1 3.07 0 0 62.61;
    Editor.mk "NS1" 6.5 3.07 0 64.61 0;
    Editor.mk "NS2" 4.8 3.07 0 62.81 0;
    Editor.mk "  " nan nan nan nan nan ].

(** A wall so slender that the cube of [height / length] overflows. *)
Definition slender_rows : list (Editor.t float) :=
  [ Editor.mk "EW1" 1e-10 1e150 0 0 1;
    Editor.mk "NS1" 2 2 0 2 0 ].

Definition zero_length_rows : list (Editor.t float) :=
  [ Editor.mk " EW1 " 0 2 0 0 1;
    Editor.mk "NS1" 2 2 0 2 0 ].

Definition zero_height_rows : list (Editor.t float) :=
  [ Editor.mk " EW1 " 2 0 0 0 1;
    Editor.mk "NS1" 2 2 0 2 0 ].

Definition unmarked_rows : list (Editor.t float) :=
  [ Editor.mk "EW1" 2 2 0 0 1;
    Editor.mk " W1 " 2 2 0 0 5;
    Editor.mk "NS1" 2 2 0 2 0 ].

(** Every wall on the centre of rigidity: [Jp] is zero. *)
Definition coincident_rows : list (Editor.t float) :=
  [ Editor.mk "EW1" 2 2 0 0 5;
    Editor.mk "EW2" 2 2 0 0 5;
    Editor.mk "NS1" 2 2 0 3 0;
    Editor.mk "NS2" 2 2 0 3 0 ].

Definition blank_rows : list (Editor.t float) :=
  [ Editor.mk "" nan nan nan nan nan;
    Editor.mk "   " nan nan nan nan nan ].

(** The demo plan of the streamlit solver without any weight. *)
Definition st_weightless_inputs : Streamlit.In.t float :=
  Streamlit.In.mk 100 50 2 1 20 10 0 12 7.

End PageDemo.

(** ** The table and the walls it was computed from *)

Section Echo.
Context {F : Type} {AF : Arith F}.

(** The row [r] of a table is the row of the wall [w]: it repeats the
    wall's columns, the name stripped, and holds its working
    coordinates. *)
Definition echoes (X_offset Y_offset : F) (w : Wall.t F) (r : Row.t F) : Prop :=
  Row.Wall_Name r = Str.strip (Wall.Wall_Name w) /\
  Row.Length_m r = Wall.Length_m w /\
  Row.Height_m r = Wall.Height_m w /\
  Row.x_coord_m r = Wall.x_coord_m w /\
  Row.y_coord_m r = Wall.y_coord_m w /\
  Row.xk_m r = fsub (Wall.x_coord_m w) X_offset /\
  Row.yk_m r = fsub (Wall.y_coord_m w) Y_offset.

(** The wall dictionary read back from the first six columns of a row. *)
Definition row_wall (r : Row.t F) : Wall.t F :=
  Wall.mk (Row.Wall_Name r) (Row.Length_m r) (Row.Height_m r)
    (Row.w_k_kN r) (Row.x_coord_m r) (Row.y_coord_m r).

(** The same on a row of the loop. *)
Definition base_wall (r : Base.t F) : Wall.t F :=
  Wall.mk (Base.Wall_Name r) (Base.Length_m r) (Base.Height_m r)
    (Base.w_k_kN r) (Base.x_coord_m r) (Base.y_coord_m r).

End Echo.

(** ** One direction per wall *)

Section OneDirection.
Context {F : Type} {AF : Arith F}.

(** One of the two rigidities of the row is [0.0], the other [1/Di]. *)
Definition one_direction (r : Row.t F) : Prop :=
  (Row.Rix r = fdiv fone (Row.Di r) /\ Row.Riy r = fzero) \/
  (Row.Rix r = fzero /\ Row.Riy r = fdiv fone (Row.Di r)).

(** In the streamlit table a row may also have neither. *)
Definition streamlit_one_direction (o : Streamlit.Out.t F) : Prop :=
  Streamlit.Out.Ri_EW o = fzero \/ Streamlit.Out.Ri_NS o = fzero.

End OneDirection.

(** ** NaN in the streamlit solver

    Two more facts of the float operations, true in IEEE binary64 and
    in the exact carrier. *)

Class NanLaws (F : Type) {AF : Arith F} : Prop := {
  is_nan_nan : is_nan fnan = true;
  fadd_nan_r : forall x, fadd x fnan = fnan
}.

Section Weightless.
Context {F : Type} {AF : Arith F}.

(** A weight cell that is blank or zero. *)
Definition no_weight (v : F) : Prop := is_nan v = true \/ is_zero v = true.

(** The real-torsion shear and the total shear of a row are NaN in
    both directions. *)
Definition streamlit_nan_shear (o : Streamlit.Out.t F) : Prop :=
  Streamlit.Out.RealTor_X o = fnan /\ Streamlit.Out.RealTor_Y o = fnan /\
  Streamlit.Out.V_X o = fnan /\ Streamlit.Out.V_Y o = fnan.

End Weightless.

(** ** Properties in exact arithmetic: balance of the wall shears *)

(** The four rationals the table-wide steps read from a row. *)
Module QRow.
Record t : Type := mk {
    Rix : Qc;
    Riy : Qc;
    xk : Qc;
    yk : Qc
  }.
End QRow.

Section Balance.
Context {F : Type} {AF : Arith F}.

(** The dimensions, the mass centre, the offsets and the forces are
    finite numbers. *)
Definition finite_inputs (i : Inputs.t F) : bool :=
  is_finite (Inputs.L i) && is_finite (Inputs.B i) &&
  is_finite (Inputs.Xcm_manual i) && is_finite (Inputs.Ycm_manual i) &&
  is_finite (Inputs.X_offset i) && is_finite (Inputs.Y_offset i) &&
  is_finite (Inputs.Fx i) && is_finite (Inputs.Fy i).

(** Length, height and both coordinates of a wall are finite numbers. *)
Definition finite_wall (w : Wall.t F) : bool :=
  finite_geometry w &&
  is_finite (Wall.x_coord_m w) && is_finite (Wall.y_coord_m w).

(** The torsional shears of a table cancel: each of the four torsion
    columns adds up to zero, the total X shears add up to [Fx], and the
    total Y shears to [Fy] plus the magnitudes of the accidental term. *)
Definition torsion_balanced (inputs : Inputs.t F) (df : list (Row.t F)) : Prop :=
  total (map (@Row.Vx_Real_Tor F) df) = fzero /\
  total (map (@Row.Vy_Real_Tor F) df) = fzero /\
  total (map (@Row.Vx_Acc_Tor F) df) = fzero /\
  total (map (@Row.Vy_Acc_Tor F) df) = fzero /\
  total (map (@Row.Vx_kN F) df) = Inputs.Fx inputs /\
  total (map (@Row.Vy_kN F) df)
  = fadd (Inputs.Fy inputs) (total (map (fun r => fabs (Row.Vy_Acc_Tor r)) df)).

End Balance.

(** The magnitude of a rational, as [X.abs] takes it. *)
Definition qabs (v : Qc) : Qc := if X.qneg v then (- v)%Qc else v.


(** ** Walls a solve cannot fail on (exact arithmetic) *)

Definition qpos (q : Qc) : bool :=
  match (q ?= 0)%Qc with Gt => true | _ => false end.

(** A number greater than zero. *)
Definition positive (x : xreal) : bool :=
  match x with Fin q => qpos q | _ => false end.

(** A wall with positive length and height, finite coordinates and a
    name that holds a marker. *)
Definition sound_wall (w : Wall.t xreal) : bool :=
  positive (Wall.Length_m w) && positive (Wall.Height_m w) &&
  is_finite (Wall.x_coord_m w) && is_finite (Wall.y_coord_m w) &&
  negb (unmarked (Wall.Wall_Name w)).

(** ** The weights in the streamlit solver *)

Section StreamlitMass.
Context {F : Type} {AF : Arith F}.

(** A wall row without its weight. *)
Definition st_forget_w (r : Streamlit.WallIn.t F) : Streamlit.WallIn.t F :=
  Streamlit.WallIn.mk (Streamlit.WallIn.marker r) (Streamlit.WallIn.L r)
    (Streamlit.WallIn.H r) fzero (Streamlit.WallIn.x r) (Streamlit.WallIn.y r).

(** The inputs without the weight and the position of the diaphragm. *)
Definition st_forget_mass (i : Streamlit.In.t F) : Streamlit.In.t F :=
  Streamlit.In.mk (Streamlit.In.Vx i) (Streamlit.In.Vy i)
    (Streamlit.In.origin_x i) (Streamlit.In.origin_y i)
    (Streamlit.In.plan_dim_x i) (Streamlit.In.plan_dim_y i) fzero fzero fzero.

(** A row of the result without the weight, the real-torsion columns
    and the totals. *)
Definition st_forget_out (o : Streamlit.Out.t F) : Streamlit.Out.t F :=
  Streamlit.Out.mk (Streamlit.Out.marker o) (Streamlit.Out.L o)
    (Streamlit.Out.H o) fzero (Streamlit.Out.x o) (Streamlit.Out.y o)
    (Streamlit.Out.xk o) (Streamlit.Out.yk o) (Streamlit.Out.delta o)
    (Streamlit.Out.Ri_EW o) (Streamlit.Out.Ri_NS o)
    (Streamlit.Out.xbar o) (Streamlit.Out.ybar o)
    (Streamlit.Out.DirectRatio_X o) (Streamlit.Out.DirectRatio_Y o)
    (Streamlit.Out.DirectShear_X o) (Streamlit.Out.DirectShear_Y o)
    fzero fzero
    (Streamlit.Out.AccTorRatio_X o) (Streamlit.Out.AccTorRatio_Y o)
    fzero fzero
    (Streamlit.Out.AccTor_X o) (Streamlit.Out.AccTor_Y o)
    fzero fzero.

(** The globals without the mass centre, the real eccentricities and
    the total weight. *)
Definition st_forget_globals (g : Streamlit.Globals.t F) : Streamlit.Globals.t F :=
  Streamlit.Globals.mk (Streamlit.Globals.sum_Ri_EW g)
    (Streamlit.Globals.sum_Ri_NS g) (Streamlit.Globals.xr_local g)
    (Streamlit.Globals.yr_local g) fzero fzero fzero fzero
    (Streamlit.Globals.ex_acc g) (Streamlit.Globals.ey_acc g)
    (Streamlit.Globals.Jpx g) (Streamlit.Globals.Jpy g)
    (Streamlit.Globals.Jp g) fzero.

Definition st_forget (o : list (Streamlit.Out.t F) * Streamlit.Globals.t F)
  : list (Streamlit.Out.t F) * Streamlit.Globals.t F :=
  (map st_forget_out (fst o), st_forget_globals (snd o)).

End StreamlitMass.

(** ** Closed forms over the rationals

    What the table-wide steps compute on rows of rationals [qs], for
    the inputs [fx], [fy] (forces), [l], [b] (plan), [xm], [ym] (mass
    centre) and [xo], [yo] (offsets), when no division is by zero. *)

Module QForm.
Section QForm.
Local Open Scope Qc_scope.
Variables (fx fy l b xm ym xo yo : Qc) (qs : list QRow.t).

Definition sa : Qc := X.qsum (map QRow.Rix qs).
Definition sb : Qc := X.qsum (map QRow.Riy qs).
Definition cx : Qc := X.qsum (map (fun q => QRow.Riy q * QRow.xk q) qs) / sb.
Definition cy : Qc := X.qsum (map (fun q => QRow.Rix q * QRow.yk q) qs) / sa.
Definition ex : Qc := qabs (xm + - xo + - cx).
Definition ey : Qc := qabs (ym + - yo + - cy).

End QForm.

(** The wall [q] seen from an origin moved by [(a, b)]. *)
Definition moved (a b : Qc) (q : QRow.t) : QRow.t :=
  QRow.mk (QRow.Rix q) (QRow.Riy q) (QRow.xk q + - a)%Qc (QRow.yk q + - b)%Qc.
End QForm.

(** ** The shares of the direct shear, the choice of the origin *)

Section Relations.
Context {F : Type} {AF : Arith F}.

(** Step 9: each wall takes the share [R / sum R] of the force of its
    direction, [0.0] when the sum is zero. *)
Definition direct_shares (inputs : Inputs.t F)
    (out : list (Row.t F) * Summary.t F) : Prop :=
  let sx := Summary.sum_Rix (snd out) in
  let sy := Summary.sum_Riy (snd out) in
  Forall (fun r =>
    Row.Direct_Shear_Ratio_x r
    = (if neq0 sx then fdiv (Row.Rix r) sx else fzero) /\
    Row.Direct_Shear_Ratio_y r
    = (if neq0 sy then fdiv (Row.Riy r) sy else fzero) /\
    Row.Direct_Shear_x r = fmul (Inputs.Fx inputs) (Row.Direct_Shear_Ratio_x r) /\
    Row.Direct_Shear_y r = fmul (Inputs.Fy inputs) (Row.Direct_Shear_Ratio_y r))
    (fst out).

(** The same in the streamlit table, where the share is NaN when the
    sum is zero. *)
Definition streamlit_direct_shares (inputs : Streamlit.In.t F)
    (out : list (Streamlit.Out.t F) * Streamlit.Globals.t F) : Prop :=
  let sx := Streamlit.Globals.sum_Ri_EW (snd out) in
  let sy := Streamlit.Globals.sum_Ri_NS (snd out) in
  sx = series_sum (map (@Streamlit.Out.Ri_EW F) (fst out)) /\
  sy = series_sum (map (@Streamlit.Out.Ri_NS F) (fst out)) /\
  Forall (fun r =>
    Streamlit.Out.DirectRatio_X r
    = (if neq0 sx then fdiv (Streamlit.Out.Ri_EW r) sx else fnan) /\
    Streamlit.Out.DirectRatio_Y r
    = (if neq0 sy then fdiv (Streamlit.Out.Ri_NS r) sy else fnan) /\
    Streamlit.Out.DirectShear_X r
    = fmul (Streamlit.In.Vx inputs) (Streamlit.Out.DirectRatio_X r) /\
    Streamlit.Out.DirectShear_Y r
    = fmul (Streamlit.In.Vy inputs) (Streamlit.Out.DirectRatio_Y r))
    (fst out).

(** Two inputs that differ in the two offsets at most. *)
Definition same_but_offsets (i i' : Inputs.t F) : Prop :=
  Inputs.L i' = Inputs.L i /\ Inputs.B i' = Inputs.B i /\
  Inputs.Xcm_manual i' = Inputs.Xcm_manual i /\
  Inputs.Ycm_manual i' = Inputs.Ycm_manual i /\
  Inputs.W i' = Inputs.W i /\
  Inputs.Fx i' = Inputs.Fx i /\ Inputs.Fy i' = Inputs.Fy i.

(** The result [out'] is the result [out] seen from an origin moved by
    [(a, b)]: the same total shears wall by wall, and working
    coordinates and a centre of rigidity lower by [(a, b)]. *)
Definition seen_from (a b : F) (out out' : list (Row.t F) * Summary.t F) : Prop :=
  map (@Row.Vx_kN F) (fst out') = map (@Row.Vx_kN F) (fst out) /\
  map (@Row.Vy_kN F) (fst out') = map (@Row.Vy_kN F) (fst out) /\
  map (@Row.xk_m F) (fst out')
  = map (fun v => fsub v a) (map (@Row.xk_m F) (fst out)) /\
  map (@Row.yk_m F) (fst out')
  = map (fun v => fsub v b) (map (@Row.yk_m F) (fst out)) /\
  Summary.Xcr (snd out') = fsub (Summary.Xcr (snd out)) a /\
  Summary.Ycr (snd out') = fsub (Summary.Ycr (snd out)) b.

(** Both rigidity sums and [Jp] are other than zero. *)
Definition nondegenerate (s : Summary.t F) : bool :=
  negb (is_zero (Summary.sum_Rix s)) && negb (is_zero (Summary.sum_Riy s)) &&
  negb (is_zero (Summary.Jp s)).

(** The same plan given from two origins: the walls agree in name,
    length, height and weight, the inputs in everything but the offsets
    and the mass centre, and every working coordinate
    [coordinate - offset], of the walls and of the mass centre, is the
    same float in both. *)
Definition same_plan (i : Inputs.t F) (ws : list (Wall.t F))
    (i' : Inputs.t F) (ws' : list (Wall.t F)) : Prop :=
  Inputs.L i' = Inputs.L i /\ Inputs.B i' = Inputs.B i /\
  Inputs.Fx i' = Inputs.Fx i /\ Inputs.Fy i' = Inputs.Fy i /\
  fsub (Inputs.Xcm_manual i') (Inputs.X_offset i')
  = fsub (Inputs.Xcm_manual i) (Inputs.X_offset i) /\
  fsub (Inputs.Ycm_manual i') (Inputs.Y_offset i')
  = fsub (Inputs.Ycm_manual i) (Inputs.Y_offset i) /\
  Forall2 (fun w w' =>
    Wall.Wall_Name w' = Wall.Wall_Name w /\
    Wall.Length_m w' = Wall.Length_m w /\
    Wall.Height_m w' = Wall.Height_m w /\
    Wall.w_k_kN w' = Wall.w_k_kN w /\
    fsub (Wall.x_coord_m w') (Inputs.X_offset i')
    = fsub (Wall.x_coord_m w) (Inputs.X_offset i) /\
    fsub (Wall.y_coord_m w') (Inputs.Y_offset i')
    = fsub (Wall.y_coord_m w) (Inputs.Y_offset i)) ws ws'.

End Relations.

(** ** Binary64 results free of rounding error

    [exact x] is the number the binary64 value [x] stands for.  A
    binary64 result is free of rounding error when the solve in exact
    arithmetic, from the numbers of the same input, returns the numbers
    of that result. *)

Definition exact (x : float) : xreal :=
  match Prim2SF x with
  | S754_zero _ => Fin 0%Qc
  | S754_infinity s => Inf s
  | S754_nan => NaN
  | S754_finite s m e =>
      Fin (Q2Qc (inject_Z (if s then Zneg m else Zpos m) * Qpower 2 e))
  end.

Definition exact_inputs (r : Inputs.t float) : Inputs.t xreal :=
  Inputs.mk
    (exact (Inputs.L r)) (exact (Inputs.B r)) (exact (Inputs.Xcm_manual r))
    (exact (Inputs.Ycm_manual r)) (exact (Inputs.W r))
    (exact (Inputs.X_offset r)) (exact (Inputs.Y_offset r))
    (exact (Inputs.Fx r)) (exact (Inputs.Fy r)).

Definition exact_wall (r : Wall.t float) : Wall.t xreal :=
  Wall.mk
    (Wall.Wall_Name r) (exact (Wall.Length_m r)) (exact (Wall.Height_m r))
    (option_map exact (Wall.w_k_kN r)) (exact (Wall.x_coord_m r))
    (exact (Wall.y_coord_m r)).

Definition exact_row (r : Row.t float) : Row.t xreal :=
  Row.mk
    (Row.Wall_Name r) (exact (Row.Length_m r)) (exact (Row.Height_m r))
    (option_map exact (Row.w_k_kN r)) (exact (Row.x_coord_m r))
    (exact (Row.y_coord_m r)) (exact (Row.xk_m r)) (exact (Row.yk_m r))
    (exact (Row.Di r)) (exact (Row.Rix r)) (exact (Row.Riy r))
    (exact (Row.Riy_xk r)) (exact (Row.Rix_yk r)) (exact (Row.xbar r))
    (exact (Row.ybar r)) (exact (Row.Riy_xbar2 r))
    (exact (Row.Rix_ybar2 r)) (exact (Row.Real_Tor_Ratio_x r))
    (exact (Row.Real_Tor_Ratio_y r)) (exact (Row.Vx_Real_Tor r))
    (exact (Row.Vy_Real_Tor r)) (exact (Row.Direct_Shear_Ratio_x r))
    (exact (Row.Direct_Shear_Ratio_y r)) (exact (Row.Direct_Shear_x r))
    (exact (Row.Direct_Shear_y r)) (exact (Row.AccTorRatio_x r))
    (exact (Row.AccTorRatio_y r)) (exact (Row.Vx_Acc_Tor r))
    (exact (Row.Vy_Acc_Tor r)) (exact (Row.Vx_kN r)) (exact (Row.Vy_kN r)).

Definition exact_summary (r : Summary.t float) : Summary.t xreal :=
  Summary.mk
    (exact (Summary.L r)) (exact (Summary.B r))
    (exact (Summary.X_offset r)) (exact (Summary.Y_offset r))
    (exact (Summary.Xcm r)) (exact (Summary.Ycm r)) (exact (Summary.Xcr r))
    (exact (Summary.Ycr r)) (exact (Summary.ex r)) (exact (Summary.ey r))
    (exact (Summary.exbar r)) (exact (Summary.eybar r))
    (exact (Summary.Jp r)) (exact (Summary.Fx r)) (exact (Summary.Fy r))
    (exact (Summary.sum_Rix r)) (exact (Summary.sum_Riy r))
    (option_map exact (Summary.W r)).

Definition exact_table (out : list (Row.t float) * Summary.t float)
  : list (Row.t xreal) * Summary.t xreal :=
  (map exact_row (fst out), exact_summary (snd out)).

Definition exact_st_wall (r : Streamlit.WallIn.t float) : Streamlit.WallIn.t xreal :=
  Streamlit.WallIn.mk
    (Streamlit.WallIn.marker r) (exact (Streamlit.WallIn.L r))
    (exact (Streamlit.WallIn.H r)) (exact (Streamlit.WallIn.w r))
    (exact (Streamlit.WallIn.x r)) (exact (Streamlit.WallIn.y r)).

Definition exact_st_inputs (r : Streamlit.In.t float) : Streamlit.In.t xreal :=
  Streamlit.In.mk
    (exact (Streamlit.In.Vx r)) (exact (Streamlit.In.Vy r))
    (exact (Streamlit.In.origin_x r)) (exact (Streamlit.In.origin_y r))
    (exact (Streamlit.In.plan_dim_x r)) (exact (Streamlit.In.plan_dim_y r))
    (exact (Streamlit.In.diaphragm_w r))
    (exact (Streamlit.In.diaphragm_x r))
    (exact (Streamlit.In.diaphragm_y r)).

Definition exact_st_row (r : Streamlit.Out.t float) : Streamlit.Out.t xreal :=
  Streamlit.Out.mk
    (Streamlit.Out.marker r) (exact (Streamlit.Out.L r))
    (exact (Streamlit.Out.H r)) (exact (Streamlit.Out.w r))
    (exact (Streamlit.Out.x r)) (exact (Streamlit.Out.y r))
    (exact (Streamlit.Out.xk r)) (exact (Streamlit.Out.yk r))
    (exact (Streamlit.Out.delta r)) (exact (Streamlit.Out.Ri_EW r))
    (exact (Streamlit.Out.Ri_NS r)) (exact (Streamlit.Out.xbar r))
    (exact (Streamlit.Out.ybar r)) (exact (Streamlit.Out.DirectRatio_X r))
    (exact (Streamlit.Out.DirectRatio_Y r))
    (exact (Streamlit.Out.DirectShear_X r))
    (exact (Streamlit.Out.DirectShear_Y r))
    (exact (Streamlit.Out.RealTorRatio_X r))
    (exact (Streamlit.Out.RealTorRatio_Y r))
    (exact (Streamlit.Out.AccTorRatio_X r))
    (exact (Streamlit.Out.AccTorRatio_Y r))
    (exact (Streamlit.Out.RealTor_X r)) (exact (Streamlit.Out.RealTor_Y r))
    (exact (Streamlit.Out.AccTor_X r)) (exact (Streamlit.Out.AccTor_Y r))
    (exact (Streamlit.Out.V_X r)) (exact (Streamlit.Out.V_Y r)).

Definition exact_st_globals (r : Streamlit.Globals.t float) : Streamlit.Globals.t xreal :=
  Streamlit.Globals.mk
    (exact (Streamlit.Globals.sum_Ri_EW r))
    (exact (Streamlit.Globals.sum_Ri_NS r))
    (exact (Streamlit.Globals.xr_local r))
    (exact (Streamlit.Globals.yr_local r))
    (exact (Streamlit.Globals.xcg_local r))
    (exact (Streamlit.Globals.ycg_local r))
    (exact (Streamlit.Globals.ex_real r))
    (exact (Streamlit.Globals.ey_real r))
    (exact (Streamlit.Globals.ex_acc r))
    (exact (Streamlit.Globals.ey_acc r)) (exact (Streamlit.Globals.Jpx r))
    (exact (Streamlit.Globals.Jpy r)) (exact (Streamlit.Globals.Jp r))
    (exact (Streamlit.Globals.Wtot r)).

Definition exact_st_table
    (out : list (Streamlit.Out.t float) * Streamlit.Globals.t float)
  : list (Streamlit.Out.t xreal) * Streamlit.Globals.t xreal :=
  (map exact_st_row (fst out), exact_st_globals (snd out)).

(** One of the three [compute_rigid_diaphragm] functions on a carrier. *)
Definition solver (F : Type) : Type :=
  Inputs.t F -> list (Wall.t F) -> Py.result (list (Row.t F) * Summary.t F).

(** The binary64 result [out] holds no rounding error. *)
Definition exact_result (xsolve : solver xreal) (inputs : Inputs.t float)
    (walls : list (Wall.t float))
    (out : list (Row.t float) * Summary.t float) : Prop :=
  xsolve (exact_inputs inputs) (map exact_wall walls) = Py.Ok (exact_table out).

Definition exact_st_result (walls : list (Streamlit.WallIn.t float))
    (inputs : Streamlit.In.t float) : Prop :=
  Streamlit.compute_rigid_diaph (map exact_st_wall walls) (exact_st_inputs inputs)
  = exact_st_table (Streamlit.compute_rigid_diaph walls inputs).

(** Conservation of the direct shear in the binary64 results that are
    free of rounding error: the numbers of the two direct-shear columns
    add up to the two forces. *)
Definition conserves_when_exact (solve : solver float) (xsolve : solver xreal)
  : Prop :=
  forall inputs walls out,
    is_finite (Inputs.Fx inputs) = true ->
    is_finite (Inputs.Fy inputs) = true ->
    Forall (fun w => proper_geometry w = true) walls ->
    solve inputs walls = Py.Ok out ->
    exact_result xsolve inputs walls out ->
    is_zero (Summary.sum_Rix (snd out)) = false ->
    is_zero (Summary.sum_Riy (snd out)) = false ->
    direct_shear_conserved (exact_inputs inputs) (exact_table out).

Definition streamlit_conserves_when_exact : Prop :=
  forall walls inputs,
    is_finite (Streamlit.In.Vx inputs) = true ->
    is_finite (Streamlit.In.Vy inputs) = true ->
    Forall (fun r => streamlit_proper_geometry r = true) walls ->
    exact_st_result walls inputs ->
    let out := Streamlit.compute_rigid_diaph walls inputs in
    is_zero (Streamlit.Globals.sum_Ri_EW (snd out)) = false ->
    is_zero (Streamlit.Globals.sum_Ri_NS (snd out)) = false ->
    total (map (@Streamlit.Out.DirectShear_X xreal) (fst (exact_st_table out)))
    = exact (Streamlit.In.Vx inputs) /\
    total (map (@Streamlit.Out.DirectShear_Y xreal) (fst (exact_st_table out)))
    = exact (Streamlit.In.Vy inputs).

(** The choice of the origin in the binary64 results that are free of
    rounding error: for two inputs that differ in the offsets only, by
    [(a, b)], the second result is the first seen from the origin moved
    by [(a, b)]. *)
Definition origin_free_when_exact (solve : solver float) (xsolve : solver xreal)
  : Prop :=
  forall inputs inputs' walls out out',
    same_but_offsets inputs inputs' ->
    finite_inputs inputs = true ->
    finite_inputs inputs' = true ->
    Forall (fun w => finite_wall w = true) walls ->
    solve inputs walls = Py.Ok out ->
    solve inputs' walls = Py.Ok out' ->
    exact_result xsolve inputs walls out ->
    exact_result xsolve inputs' walls out' ->
    nondegenerate (snd out) = true ->
    seen_from
      (fsub (exact (Inputs.X_offset inputs')) (exact (Inputs.X_offset inputs)))
      (fsub (exact (Inputs.Y_offset inputs')) (exact (Inputs.Y_offset inputs)))
      (exact_table out) (exact_table out').

(** The balance of the torsional shears in the binary64 results that
    are free of rounding error. *)
Definition balanced_when_exact (solve : solver float) (xsolve : solver xreal)
  : Prop :=
  forall inputs walls out,
    finite_inputs inputs = true ->
    Forall (fun w => finite_wall w = true) walls ->
    Forall (fun w => proper_geometry w = true) walls ->
    solve inputs walls = Py.Ok out ->
    exact_result xsolve inputs walls out ->
    nondegenerate (snd out) = true ->
    torsion_balanced (exact_inputs inputs) (fst (exact_table out)).

(** A layout on which binary64 commits no rounding error: every wall
    has [height / length = 0.5], hence [Di = 2] and a rigidity of
    [0.5], and [Jp] is [32]. *)
Module ExactDemo.

Local Open Scope float_scope.
Local Open Scope string_scope.

Definition inputs : Inputs.t float :=
  Inputs.mk 10 10 8 7 0 2 1 100 50.

(** The same inputs with the offsets [(3, 3)]: the origin moved by
    [(1, 2)]. *)
Definition moved_inputs : Inputs.t float :=
  Inputs.mk 10 10 8 7 0 3 3 100 50.

Definition walls : list (Wall.t float) :=
  [ Wall.mk "EW1" 2 1 (Some 0) 0 1;
    Wall.mk "EW2" 2 1 (Some 0) 0 9;
    Wall.mk "NS1" 2 1 (Some 0) 2 0;
    Wall.mk "NS2" 2 1 (Some 0) 10 0 ].

Definition st_inputs : Streamlit.In.t float :=
  Streamlit.In.mk 100 50 2 1 10 10 1000 8 7.

Definition st_walls : list (Streamlit.WallIn.t float) :=
  [ Streamlit.WallIn.mk "EW1" 2 1 0 0 1;
    Streamlit.WallIn.mk "EW2" 2 1 0 0 9;
    Streamlit.WallIn.mk "NS1" 2 1 0 2 0;
    Streamlit.WallIn.mk "NS2" 2 1 0 10 0 ].

(** Three east-west and two north-south walls of rigidity [1/7], on
    which binary64 rounds. *)
Definition five_walls : list (Wall.t float) :=
  [ Wall.mk "EW1" 2 2 (Some 0) 0 1;
    Wall.mk "EW2" 2 2 (Some 0) 0 5;
    Wall.mk "EW3" 2 2 (Some 0) 0 9;
    Wall.mk "NS1" 2 2 (Some 0) 2 0;
    Wall.mk "NS2" 2 2 (Some 0) 18 0 ].

Definition st_five_walls : list (Streamlit.WallIn.t float) :=
  [ Streamlit.WallIn.mk "EW1" 2 2 0 0 1;
    Streamlit.WallIn.mk "EW2" 2 2 0 0 5;
    Streamlit.WallIn.mk "EW3" 2 2 0 0 9;
    Streamlit.WallIn.mk "NS1" 2 2 0 2 0;
    Streamlit.WallIn.mk "NS2" 2 2 0 18 0 ].

End ExactDemo.

(** * Proofs *)

(** ** The exception monad and the row sort *)

Lemma for_each_Forall2 (A B : Type) (f : A -> Py.result B) l bs :
  Py.for_each f l = Py.Ok bs -> Forall2 (fun a b => f a = Py.Ok b) l bs.
Proof.
  revert bs; induction l as [|a l IH]; simpl; intros bs H.
  - inversion H; constructor.
  - destruct (f a) as [b|e] eqn:Ha; simpl in H; [|discriminate].
    destruct (Py.for_each f l) as [bs'|e] eqn:Hl; simpl in H; [|discriminate].
    inversion H; subst. constructor; auto.
Qed.

Lemma Ok_inj (A : Type) (a b : A) : Py.Ok a = Py.Ok b -> a = b.
Proof. intros H. now inversion H. Qed.

Lemma for_each_raises (A B : Type) (f : A -> Py.result B) l :
  Exists (fun a => Py.raises (f a)) l -> Py.raises (Py.for_each f l).
Proof.
  induction 1 as [a l [e He]|a l _ [e He]]; simpl.
  - rewrite He; simpl. now exists e.
  - destruct (f a) as [b|e0]; simpl.
    + rewrite He; simpl. now exists e.
    + now exists e0.
Qed.

Lemma for_each_map (A B C : Type) (f : B -> Py.result C) (g : A -> B) l :
  Py.for_each f (map g l) = Py.for_each (fun a => f (g a)) l.
Proof.
  induction l as [|a l IH]; simpl; [reflexivity|]. now rewrite IH.
Qed.

Lemma insert_perm (A : Type) (name : A -> string) x l :
  Permutation (Sorting.insert name x l) (x :: l).
Proof.
  induction l as [|y l IH]; simpl; [reflexivity|].
  destruct (Sorting.key_le (name x) (name y)); [reflexivity|].
  rewrite IH. apply perm_swap.
Qed.

Lemma sort_values_perm (A : Type) (name : A -> string) l :
  Permutation (Sorting.sort_values name l) l.
Proof.
  induction l as [|x l IH]; simpl; [reflexivity|].
  rewrite insert_perm. now constructor.
Qed.

Lemma sort_values_Forall (A : Type) (name : A -> string) (P : A -> Prop) l :
  Forall P l -> Forall P (Sorting.sort_values name l).
Proof.
  intros H. eapply Permutation_Forall; [|exact H].
  symmetry; apply sort_values_perm.
Qed.

Lemma insert_map (A B : Type) (f : A -> B) (nb : B -> string) x l :
  Sorting.insert nb (f x) (map f l)
  = map f (Sorting.insert (fun a => nb (f a)) x l).
Proof.
  induction l as [|y l IH]; simpl; [reflexivity|].
  destruct (Sorting.key_le (nb (f x)) (nb (f y))); simpl; [reflexivity|].
  now rewrite IH.
Qed.

Lemma sort_values_map (A B : Type) (f : A -> B) (nb : B -> string) l :
  Sorting.sort_values nb (map f l)
  = map f (Sorting.sort_values (fun a => nb (f a)) l).
Proof.
  induction l as [|x l IH]; simpl; [reflexivity|].
  now rewrite IH, insert_map.
Qed.

Lemma sort_values_nil_iff (A : Type) (name : A -> string) l :
  Sorting.sort_values name l = [] <-> l = [].
Proof.
  split; intros H.
  - apply Permutation_nil. rewrite <- H. apply sort_values_perm.
  - now subst.
Qed.

(** ** Unfolding the solvers *)

Section Unfold.
Context {F : Type} {AF : Arith F}.

Lemma template_compute_eq classify (inputs : Inputs.t F) walls :
  Template.compute classify inputs walls
  = (rows <- Template.loop classify (Inputs.X_offset inputs)
               (Inputs.Y_offset inputs) walls ;;
     match rows with
     | [] => Py.Raise (Py.KeyError "Rix")
     | _ => Py.Ok (Template.finish fnan None inputs (Template.frame rows))
     end).
Proof.
  unfold Template.compute.
  destruct (Template.loop _ _ _ _) as [[|r rows]|e]; [reflexivity| |reflexivity].
  cbn [Py.bind]. unfold Template.frame.
  destruct (existsb _ _); reflexivity.
Qed.

Lemma template_compute_ok classify (inputs : Inputs.t F) walls out :
  Template.compute classify inputs walls = Py.Ok out ->
  exists rows,
    Template.loop classify (Inputs.X_offset inputs)
      (Inputs.Y_offset inputs) walls = Py.Ok rows /\
    rows <> [] /\ out = Template.finish fnan None inputs (Template.frame rows).
Proof.
  rewrite template_compute_eq.
  destruct (Template.loop _ _ _ _) as [[|r rows]|e]; cbn [Py.bind]; try discriminate.
  intros H; inversion H. exists (r :: rows). repeat split. discriminate.
Qed.

(** The frame differs from the rows of the loop in the weights only. *)
Lemma frame_cases (rows : list (Base.t F)) :
  Template.frame rows = rows \/ Template.frame rows = map Template.nan_weight rows.
Proof. unfold Template.frame. destruct (existsb _ _); auto. Qed.

Lemma frame_map (A : Type) (f : Base.t F -> A) (rows : list (Base.t F)) :
  (forall r, f (Template.nan_weight r) = f r) ->
  map f (Template.frame rows) = map f rows.
Proof.
  intros Hf. destruct (frame_cases rows) as [-> | ->]; [reflexivity|].
  rewrite map_map. apply map_ext, Hf.
Qed.

Lemma frame_Forall (P : Base.t F -> Prop) (rows : list (Base.t F)) :
  (forall r, P r -> P (Template.nan_weight r)) ->
  Forall P rows -> Forall P (Template.frame rows).
Proof.
  intros HP H. destruct (frame_cases rows) as [-> | ->]; [exact H|].
  apply Forall_forall. intros r Hr. apply in_map_iff in Hr as (b & <- & Hb).
  apply HP. revert Hb. now apply Forall_forall.
Qed.

Lemma frame_Forall2 (A : Type) (P : A -> Base.t F -> Prop) l (rows : list (Base.t F)) :
  (forall a r, P a r -> P a (Template.nan_weight r)) ->
  Forall2 P l rows -> Forall2 P l (Template.frame rows).
Proof.
  intros HP H. destruct (frame_cases rows) as [-> | ->]; [exact H|].
  induction H; cbn [map]; constructor; auto.
Qed.

Lemma frame_nil_iff (rows : list (Base.t F)) : Template.frame rows = [] <-> rows = [].
Proof.
  destruct (frame_cases rows) as [-> | ->]; [reflexivity|].
  destruct rows; cbn; split; intros H; try reflexivity; discriminate.
Qed.


(** The table-wide steps read nothing of the weights. *)
Lemma finish_frame_sums undefined (rows : list (Base.t F)) :
  Template.Xcr_of undefined (Template.frame rows) = Template.Xcr_of undefined rows /\
  Template.Ycr_of undefined (Template.frame rows) = Template.Ycr_of undefined rows /\
  Template.Jp_of undefined (Template.frame rows) = Template.Jp_of undefined rows /\
  series_sum (map (@Base.Rix F) (Template.frame rows))
  = series_sum (map (@Base.Rix F) rows) /\
  series_sum (map (@Base.Riy F) (Template.frame rows))
  = series_sum (map (@Base.Riy F) rows).
Proof.
  unfold Template.Jp_of, Template.polar, Template.Xcr_of, Template.Ycr_of.
  rewrite !(frame_map (@Base.Riy_xk F)), !(frame_map (@Base.Rix_yk F)),
    !(frame_map (@Base.Rix F)), !(frame_map (@Base.Riy F)) by reflexivity.
  repeat split.
  f_equal; f_equal; apply frame_map; reflexivity.
Qed.

Lemma v2_compute_eq (inputs : Inputs.t F) walls :
  V2.compute_rigid_diaphragm inputs walls
  = match walls with
    | [] => Py.Raise (Py.ValueError "No walls provided.")
    | _ =>
        rows <- V2.table (Inputs.X_offset inputs) (Inputs.Y_offset inputs) walls ;;
        if is_zero (Template.Jp_of fzero rows) then Py.Raise Py.ZeroDivisionError
        else if existsb (@V2.has_w_k F) walls
             then Py.Ok (Template.finish fzero (Some (Inputs.W inputs)) inputs rows)
             else Py.Raise (Py.KeyError "['w_k (kN)'] not in index")
    end.
Proof.
  unfold V2.compute_rigid_diaphragm.
  destruct walls as [|w walls]; [reflexivity|].
  destruct (V2.table _ _ _) as [rows|e]; reflexivity.
Qed.

Lemma v2_compute_nonempty (inputs : Inputs.t F) walls :
  walls <> [] ->
  V2.compute_rigid_diaphragm inputs walls
  = (rows <- V2.table (Inputs.X_offset inputs) (Inputs.Y_offset inputs) walls ;;
     if is_zero (Template.Jp_of fzero rows) then Py.Raise Py.ZeroDivisionError
     else if existsb (@V2.has_w_k F) walls
          then Py.Ok (Template.finish fzero (Some (Inputs.W inputs)) inputs rows)
          else Py.Raise (Py.KeyError "['w_k (kN)'] not in index")).
Proof.
  intros H. rewrite v2_compute_eq. destruct walls; [contradiction|reflexivity].
Qed.

Lemma v2_compute_ok (inputs : Inputs.t F) walls out :
  V2.compute_rigid_diaphragm inputs walls = Py.Ok out ->
  exists rows,
    V2.table (Inputs.X_offset inputs) (Inputs.Y_offset inputs) walls = Py.Ok rows /\
    is_zero (Template.Jp_of fzero rows) = false /\
    out = Template.finish fzero (Some (Inputs.W inputs)) inputs rows.
Proof.
  rewrite v2_compute_eq. destruct walls as [|w walls]; [discriminate|].
  destruct (V2.table _ _ _) as [rows|e]; cbn [Py.bind]; [|discriminate].
  destruct (is_zero (Template.Jp_of fzero rows)) eqn:HJ; [intros H; discriminate H|].
  destruct (existsb _ _); intros H; [|discriminate H].
  inversion H. now exists rows.
Qed.

Lemma appr1_compute_ok (inputs : Inputs.t F) walls out :
  AppR1.compute_rigid_diaphragm inputs walls = Py.Ok out ->
  exists o,
    Template.compute AppR1._wall_orientation_factors inputs walls = Py.Ok o /\
    out = (Sorting.sort_values (@Row.Wall_Name F) (fst o), snd o).
Proof.
  unfold AppR1.compute_rigid_diaphragm.
  destruct (Template.compute _ _ _) as [o|e]; cbn [Py.bind]; [|discriminate].
  intros H; inversion H. now exists o.
Qed.

End Unfold.

(** Names the frame [rows] once every fact at hand is about the frame. *)
Ltac to_frame rows :=
  let fr := fresh "fr" in
  let E := fresh "E" in
  remember (Template.frame rows) as fr eqn:E; clear E; clear rows;
  rename fr into rows.

(** ** Claims C1 and C2: the accidental-torsion columns and the totals *)

(** Refutes an equation between two binary64 values that differ. *)
Ltac float_absurd H :=
  match type of H with
  | ?a = _ =>
      let K := fresh in
      pose proof (f_equal (PrimFloat.Leibniz.eqb a) H) as K;
      vm_compute in K; discriminate K
  end.

Section Structure.
Context {F : Type} {AF : Arith F}.

Lemma finish_cross_coupled undefined W (inputs : Inputs.t F) rows :
  cross_coupled inputs (Template.finish undefined W inputs rows).
Proof.
  unfold cross_coupled, Template.finish; cbn [fst snd Summary.Jp].
  apply Forall_forall; intros r Hr.
  apply in_map_iff in Hr as [b [<- _]]. cbn. repeat split.
Qed.

Lemma finish_asymmetric_totals undefined W (inputs : Inputs.t F) rows :
  asymmetric_totals (Template.finish undefined W inputs rows).
Proof.
  unfold asymmetric_totals, Template.finish; cbn [fst].
  apply Forall_forall; intros r Hr.
  apply in_map_iff in Hr as [b [<- _]]. cbn. split; reflexivity.
Qed.

Lemma streamlit_same_axis_holds walls (inputs : Streamlit.In.t F) :
  streamlit_same_axis inputs (Streamlit.compute_rigid_diaph walls inputs).
Proof.
  unfold streamlit_same_axis, Streamlit.compute_rigid_diaph;
    cbn [fst snd Streamlit.Globals.Jp].
  apply Forall_forall; intros r Hr.
  apply in_map_iff in Hr as [b [<- _]]. cbn. repeat split.
Qed.

Lemma streamlit_abs_totals_hold walls (inputs : Streamlit.In.t F) :
  streamlit_abs_totals (Streamlit.compute_rigid_diaph walls inputs).
Proof.
  unfold streamlit_abs_totals, Streamlit.compute_rigid_diaph; cbn [fst].
  apply Forall_forall; intros r Hr.
  apply in_map_iff in Hr as [b [<- _]]. cbn. split; reflexivity.
Qed.

(** A property of every row survives the app's final sort. *)
Lemma sorted_rows (P : Row.t F -> Prop) (o : list (Row.t F) * Summary.t F) :
  Forall P (fst o) ->
  Forall P (fst (Sorting.sort_values (@Row.Wall_Name F) (fst o), snd o)).
Proof. intros H; cbn [fst]. now apply sort_values_Forall. Qed.

End Structure.

(** C1, amended.  In the three [compute_rigid_diaphragm] variants every
    row of a returned table has [AccTorRatio_x = eybar*Rix*ybar/Jp],
    [AccTorRatio_y = exbar*Riy*xbar/Jp], [Vx_Acc_Tor = Fy*AccTorRatio_x]
    and [Vy_Acc_Tor = Fx*AccTorRatio_y] (cross-coupled).  In
    [compute_rigid_diaph] of the streamlit app the accidental-torsion
    shear of an axis is the force of the same axis times the ratio, and
    the ratio is NaN when [Jp] is zero. *)
Theorem accidental_torsion_coupling :
  forall (F : Type) (AF : Arith F) (inputs : Inputs.t F)
         (walls : list (Wall.t F)) (st_walls : list (Streamlit.WallIn.t F))
         (st_inputs : Streamlit.In.t F),
    (forall out, R1.compute_rigid_diaphragm inputs walls = Py.Ok out ->
                 cross_coupled inputs out) /\
    (forall out, AppR1.compute_rigid_diaphragm inputs walls = Py.Ok out ->
                 cross_coupled inputs out) /\
    (forall out, V2.compute_rigid_diaphragm inputs walls = Py.Ok out ->
                 cross_coupled inputs out) /\
    streamlit_same_axis st_inputs
      (Streamlit.compute_rigid_diaph st_walls st_inputs).
Proof.
  intros F AF inputs walls st_walls st_inputs. repeat split.
  - intros out H. apply template_compute_ok in H as (rows & _ & _ & ->).
    apply finish_cross_coupled.
  - intros out H. apply appr1_compute_ok in H as (o & H & ->).
    apply template_compute_ok in H as (rows & _ & _ & ->).
    unfold cross_coupled. cbn [snd].
    apply sorted_rows.
    apply (finish_cross_coupled fnan None inputs (Template.frame rows)).
  - intros out H. apply v2_compute_ok in H as (rows & _ & _ & ->).
    apply finish_cross_coupled.
  - apply streamlit_same_axis_holds.
Qed.

Lemma accidental_torsion_coupling_witness :
  exists o1 o2 o3,
    R1.compute_rigid_diaphragm Demo.plan_inputs Demo.plan_walls = Py.Ok o1 /\
    AppR1.compute_rigid_diaphragm Demo.plan_inputs Demo.plan_walls = Py.Ok o2 /\
    V2.compute_rigid_diaphragm Demo.plan_inputs Demo.plan_walls = Py.Ok o3 /\
    cross_coupled Demo.plan_inputs o1 /\
    cross_coupled Demo.plan_inputs o2 /\
    cross_coupled Demo.plan_inputs o3.
Proof.
  destruct (@accidental_torsion_coupling float float_arith Demo.plan_inputs Demo.plan_walls
              Demo.st_walls Demo.st_inputs) as (H1 & H2 & H3 & _).
  do 3 eexists.
  split; [vm_compute; reflexivity|].
  split; [vm_compute; reflexivity|].
  split; [vm_compute; reflexivity|].
  split; [apply H1; vm_compute; reflexivity|].
  split; [apply H2; vm_compute; reflexivity|].
  apply H3; vm_compute; reflexivity.
Defined.

(** C1 as stated fails on the streamlit solver: wall EW1 of the demo
    layout has [AccTor_X = -2.5 = Vx * AccTorRatio_X], where the force
    of the other axis would give [Vy * AccTorRatio_X = -1.25]. *)
Lemma streamlit_not_cross_coupled :
  ~ streamlit_cross_coupled Demo.st_inputs
      (Streamlit.compute_rigid_diaph Demo.st_walls Demo.st_inputs).
Proof.
  unfold streamlit_cross_coupled. intros H.
  apply Forall_inv in H. destruct H as [H _].
  float_absurd H.
Qed.

(** C2, amended.  In the three [compute_rigid_diaphragm] variants every
    row of a returned table has
    [Vx (kN) = Vx_Real Tor + Direct Shear_x + Vx_Acc_Tor] (signed) and
    [Vy (kN) = Vy_Real Tor + Direct Shear_y + |Vy_Acc_Tor|].  In
    [compute_rigid_diaph] of the streamlit app both totals take the
    accidental term in magnitude:
    [V_X = DirectShear_X + RealTor_X + |AccTor_X|], and the same for Y. *)
Theorem total_shear_formulas :
  forall (F : Type) (AF : Arith F) (inputs : Inputs.t F)
         (walls : list (Wall.t F)) (st_walls : list (Streamlit.WallIn.t F))
         (st_inputs : Streamlit.In.t F),
    (forall out, R1.compute_rigid_diaphragm inputs walls = Py.Ok out ->
                 asymmetric_totals out) /\
    (forall out, AppR1.compute_rigid_diaphragm inputs walls = Py.Ok out ->
                 asymmetric_totals out) /\
    (forall out, V2.compute_rigid_diaphragm inputs walls = Py.Ok out ->
                 asymmetric_totals out) /\
    streamlit_abs_totals (Streamlit.compute_rigid_diaph st_walls st_inputs).
Proof.
  intros F AF inputs walls st_walls st_inputs. repeat split.
  - intros out H. apply template_compute_ok in H as (rows & _ & _ & ->).
    apply finish_asymmetric_totals.
  - intros out H. apply appr1_compute_ok in H as (o & H & ->).
    apply template_compute_ok in H as (rows & _ & _ & ->).
    unfold asymmetric_totals.
    apply sorted_rows.
    apply (finish_asymmetric_totals fnan None inputs (Template.frame rows)).
  - intros out H. apply v2_compute_ok in H as (rows & _ & _ & ->).
    apply finish_asymmetric_totals.
  - apply streamlit_abs_totals_hold.
Qed.

Lemma total_shear_formulas_witness :
  exists o1 o2 o3,
    R1.compute_rigid_diaphragm Demo.plan_inputs Demo.plan_walls = Py.Ok o1 /\
    AppR1.compute_rigid_diaphragm Demo.plan_inputs Demo.plan_walls = Py.Ok o2 /\
    V2.compute_rigid_diaphragm Demo.plan_inputs Demo.plan_walls = Py.Ok o3 /\
    asymmetric_totals o1 /\ asymmetric_totals o2 /\ asymmetric_totals o3.
Proof.
  destruct (@total_shear_formulas float float_arith Demo.plan_inputs Demo.plan_walls
              Demo.st_walls Demo.st_inputs) as (H1 & H2 & H3 & _).
  do 3 eexists.
  split; [vm_compute; reflexivity|].
  split; [vm_compute; reflexivity|].
  split; [vm_compute; reflexivity|].
  split; [apply H1; vm_compute; reflexivity|].
  split; [apply H2; vm_compute; reflexivity|].
  apply H3; vm_compute; reflexivity.
Defined.

(** C2 as stated fails on the streamlit solver: wall EW1 of the demo
    layout has [V_X = 50 + (-5) + |-2.5| = 47.5], where the signed sum
    is [42.5]. *)
Lemma streamlit_totals_not_asymmetric :
  ~ streamlit_asymmetric_totals
      (Streamlit.compute_rigid_diaph Demo.st_walls Demo.st_inputs).
Proof.
  unfold streamlit_asymmetric_totals. intros H.
  apply Forall_inv in H. destruct H as [H _].
  float_absurd H.
Qed.

(** ** Strings: a stripped name is a piece of the name *)

Lemma upper_app a b : Str.upper (a ++ b) = (Str.upper a ++ Str.upper b)%string.
Proof. induction a as [|c a IH]; simpl; [reflexivity|]. now rewrite IH. Qed.

Lemma lstrip_suffix s : exists p, s = (p ++ Str.lstrip s)%string.
Proof.
  induction s as [|c s [p IH]]; simpl.
  - now exists EmptyString.
  - destruct (Str.is_space c).
    + exists (String c p). simpl. now rewrite <- IH.
    + now exists EmptyString.
Qed.

Lemma rstrip_prefix s : exists q, s = (Str.rstrip s ++ q)%string.
Proof.
  induction s as [|c s [q IH]]; simpl.
  - now exists EmptyString.
  - destruct (Str.rstrip s) as [|d r] eqn:E.
    + destruct (Str.is_space c).
      * now exists (String c s).
      * exists q. simpl in IH |- *. now f_equal.
    + exists q. change (String c s = String c (String d r ++ q)%string).
      now f_equal.
Qed.

Lemma strip_middle s : exists p q, s = (p ++ Str.strip s ++ q)%string.
Proof.
  destruct (lstrip_suffix s) as [p Hp].
  destruct (rstrip_prefix (Str.lstrip s)) as [q Hq].
  exists p, q. unfold Str.strip. now rewrite <- Hq.
Qed.

Lemma prefix_app sub b c :
  String.prefix sub b = true -> String.prefix sub (b ++ c) = true.
Proof.
  revert b; induction sub as [|x sub IH]; intros b H;
    [now destruct (b ++ c)%string|].
  destruct b as [|y b]; simpl in *; [discriminate|].
  destruct (ascii_dec x y); [auto|discriminate].
Qed.

Lemma contains_app_l sub b c :
  Str.contains sub b = true -> Str.contains sub (b ++ c) = true.
Proof.
  induction b as [|y b IH]; intros H.
  - simpl in H. rewrite orb_false_r in H.
    destruct sub; [|discriminate]. now destruct c.
  - cbn [Str.contains] in H. apply orb_true_iff in H as [H|H].
    + change (String y b ++ c)%string with (String y (b ++ c)).
      cbn [Str.contains]. apply orb_true_iff; left.
      now apply (prefix_app sub (String y b) c).
    + change (String y b ++ c)%string with (String y (b ++ c)).
      cbn [Str.contains]. apply orb_true_iff; right. auto.
Qed.

Lemma contains_app_r sub a b :
  Str.contains sub b = true -> Str.contains sub (a ++ b) = true.
Proof.
  intros H. induction a as [|x a IH]; [exact H|].
  change (String x a ++ b)%string with (String x (a ++ b)).
  cbn [Str.contains]. rewrite IH. apply orb_true_r.
Qed.

Lemma contains_upper_strip sub s :
  Str.contains sub (Str.upper (Str.strip s)) = true ->
  Str.contains sub (Str.upper s) = true.
Proof.
  intros H. destruct (strip_middle s) as (p & q & Hs).
  rewrite Hs at 1. rewrite !upper_app.
  apply contains_app_r, contains_app_l, H.
Qed.

Lemma startswith_contains s p :
  Str.startswith s p = true -> Str.contains p s = true.
Proof.
  unfold Str.startswith. intros H.
  destruct s; cbn [Str.contains]; now rewrite H.
Qed.

Lemma unmarked_strip name :
  unmarked name = true ->
  Str.contains "EW" (Str.upper (Str.strip name)) = false /\
  Str.contains "NS" (Str.upper (Str.strip name)) = false.
Proof.
  unfold unmarked. intros H. apply andb_true_iff in H as [H1 H2].
  apply negb_true_iff in H1, H2. split.
  - destruct (Str.contains "EW" (Str.upper (Str.strip name))) eqn:E; [|reflexivity].
    apply contains_upper_strip in E. congruence.
  - destruct (Str.contains "NS" (Str.upper (Str.strip name))) eqn:E; [|reflexivity].
    apply contains_upper_strip in E. congruence.
Qed.

(** ** Claim C4: walls without a direction marker *)

Section Naming.
Context {F : Type} {AF : Arith F}.

Lemma for_each_first_raise (A B : Type) (f : A -> Py.result B) pre a post bs e :
  Py.for_each f pre = Py.Ok bs -> f a = Py.Raise e ->
  Py.for_each f (pre ++ a :: post) = Py.Raise e.
Proof.
  revert bs; induction pre as [|x pre IH]; simpl; intros bs Hpre Ha.
  - now rewrite Ha.
  - destruct (f x) as [b|e0]; simpl in *; [|discriminate].
    destruct (Py.for_each f pre) as [bs'|e0] eqn:E; simpl in *; [|discriminate].
    now rewrite (IH bs' eq_refl Ha).
Qed.

Lemma orientation_unmarked tail name (Di : F) :
  unmarked name = true ->
  Template.orientation tail (Str.strip name) Di = Py.Raise (naming_error tail name).
Proof.
  intros H. apply unmarked_strip in H as [H1 H2].
  unfold Template.orientation. now rewrite H1, H2.
Qed.

Lemma wall_row_unmarked tail X Y (w : Wall.t F) :
  unmarked (Wall.Wall_Name w) = true ->
  Py.raises (Template.wall_row (Template.orientation tail) X Y w) /\
  (forall Di,
     Template.rigidity_modulus (Wall.Height_m w) (Wall.Length_m w) = Py.Ok Di ->
     Template.wall_row (Template.orientation tail) X Y w
     = Py.Raise (naming_error tail (Wall.Wall_Name w))).
Proof.
  intros H. unfold Template.wall_row, Template._clean_wall_name. split.
  - destruct (Template.rigidity_modulus _ _) as [Di|e]; cbn [Py.bind].
    + rewrite orientation_unmarked by exact H. cbn [Py.bind]. eexists; reflexivity.
    + now exists e.
  - intros Di ->. cbn [Py.bind].
    rewrite orientation_unmarked by exact H. reflexivity.
Qed.

Lemma template_raises classify (inputs : Inputs.t F) walls :
  Py.raises (Template.loop classify (Inputs.X_offset inputs)
               (Inputs.Y_offset inputs) walls) ->
  Py.raises (Template.compute classify inputs walls).
Proof.
  intros [e He]. rewrite template_compute_eq, He. now exists e.
Qed.

Lemma template_raise classify (inputs : Inputs.t F) walls e :
  Template.loop classify (Inputs.X_offset inputs)
    (Inputs.Y_offset inputs) walls = Py.Raise e ->
  Template.compute classify inputs walls = Py.Raise e.
Proof. intros He. now rewrite template_compute_eq, He. Qed.

Lemma appr1_raises (inputs : Inputs.t F) walls :
  Py.raises (Template.compute AppR1._wall_orientation_factors inputs walls) ->
  Py.raises (AppR1.compute_rigid_diaphragm inputs walls).
Proof.
  intros [e He]. unfold AppR1.compute_rigid_diaphragm. rewrite He. now exists e.
Qed.

Lemma loop_raises_at classify X Y (walls : list (Wall.t F)) w :
  In w walls -> Py.raises (Template.wall_row classify X Y w) ->
  Py.raises (Template.loop classify X Y walls).
Proof.
  intros Hin Hw. apply for_each_raises, Exists_exists. now exists w.
Qed.

Lemma v2_classify_unmarked X Y (w : Wall.t F) :
  unmarked (Wall.Wall_Name w) = true ->
  V2.classify_row (V2.frame_row X Y w)
  = Py.Raise (naming_error "." (Wall.Wall_Name w)).
Proof.
  intros H. unfold V2.classify_row, V2.frame_row, V2._wall_orientation_factors.
  now rewrite orientation_unmarked by exact H.
Qed.

Lemma v2_raises (inputs : Inputs.t F) walls :
  Py.raises (V2.table (Inputs.X_offset inputs) (Inputs.Y_offset inputs) walls) ->
  Py.raises (V2.compute_rigid_diaphragm inputs walls).
Proof.
  intros [e He]. rewrite v2_compute_eq. destruct walls; [eexists; reflexivity|].
  rewrite He. now exists e.
Qed.

Lemma v2_table_raises_at X Y (walls : list (Wall.t F)) w :
  In w walls -> Py.raises (V2.classify_row (V2.frame_row X Y w)) ->
  Py.raises (V2.table X Y walls).
Proof.
  intros Hin [e He]. unfold V2.table. rewrite for_each_map.
  assert (Hx : Exists (fun a => Py.raises (V2.classify_row (V2.frame_row X Y a)))
                 walls).
  { apply Exists_exists. exists w. split; [exact Hin|now exists e]. }
  apply for_each_raises in Hx as [e' He'].
  rewrite He'. now exists e'.
Qed.

Lemma streamlit_unmarked_flags m :
  unmarked m = true ->
  Streamlit.is_EW (Streamlit.clean_marker m) = false /\
  Streamlit.is_NS (Streamlit.clean_marker m) = false.
Proof.
  intros H. unfold Streamlit.is_EW, Streamlit.is_NS, Streamlit.clean_marker.
  destruct (String.eqb m "nan"); [split; reflexivity|].
  apply unmarked_strip in H as [H1 H2]. split.
  - destruct (Str.startswith _ "EW") eqn:E; [|reflexivity].
    apply startswith_contains in E. congruence.
  - destruct (Str.startswith _ "NS") eqn:E; [|reflexivity].
    apply startswith_contains in E. congruence.
Qed.

(** Every non-empty input row has its row in the streamlit table. *)
Lemma streamlit_row_kept walls (inputs : Streamlit.In.t F) r :
  In r walls -> Streamlit.is_empty_row r = false ->
  exists o,
    In o (fst (Streamlit.compute_rigid_diaph walls inputs)) /\
    Streamlit.Out.marker o = Streamlit.clean_marker (Streamlit.WallIn.marker r) /\
    Streamlit.Out.L o = Streamlit.WallIn.L r /\
    Streamlit.Out.H o = Streamlit.WallIn.H r /\
    Streamlit.Out.Ri_EW o
      = Streamlit.Pre.Ri_EW (Streamlit.pre_row (Streamlit.In.origin_x inputs)
                               (Streamlit.In.origin_y inputs) r) /\
    Streamlit.Out.Ri_NS o
      = Streamlit.Pre.Ri_NS (Streamlit.pre_row (Streamlit.In.origin_x inputs)
                               (Streamlit.In.origin_y inputs) r).
Proof.
  intros Hin Hne. unfold Streamlit.compute_rigid_diaph. cbn [fst].
  eexists. split.
  - apply in_map, in_map, filter_In. split; [exact Hin|]. now rewrite Hne.
  - cbn. repeat split.
Qed.

End Naming.

(** C4, amended.  For names of ASCII characters: in the three
    [compute_rigid_diaphragm] variants a wall whose name contains
    neither "EW" nor "NS" (case-insensitively) makes the solve fail, so
    no table is returned; when the walls before it pass and its
    rigidity modulus evaluates (in v2 whenever the walls before it
    pass), the exception is the naming [ValueError] that quotes the
    stripped name, with the message of the variant.  In
    [compute_rigid_diaph] of the streamlit app nothing is raised, and
    the test is on the start of the marker: a wall whose marker does
    not start with "EW" or "NS" - it may hold one of them further on -
    stays in the table with [Ri_EW = 0] and [Ri_NS = 0]. *)
Theorem unmarked_wall_outcome :
  forall (F : Type) (AF : Arith F) (inputs : Inputs.t F)
         (walls : list (Wall.t F)) (w : Wall.t F)
         (st_walls : list (Streamlit.WallIn.t F))
         (st_inputs : Streamlit.In.t F) (r : Streamlit.WallIn.t F),
    (In w walls -> Str.is_ascii (Wall.Wall_Name w) = true ->
     unmarked (Wall.Wall_Name w) = true ->
       Py.raises (R1.compute_rigid_diaphragm inputs walls) /\
       Py.raises (AppR1.compute_rigid_diaphragm inputs walls) /\
       Py.raises (V2.compute_rigid_diaphragm inputs walls) /\
       (forall pre post rows Di,
          walls = pre ++ w :: post ->
          Template.loop R1._wall_orientation_factors (Inputs.X_offset inputs)
            (Inputs.Y_offset inputs) pre = Py.Ok rows ->
          Template.rigidity_modulus (Wall.Height_m w) (Wall.Length_m w)
            = Py.Ok Di ->
          R1.compute_rigid_diaphragm inputs walls
          = Py.Raise (naming_error " so the script can assign Rix/Riy."
                        (Wall.Wall_Name w))) /\
       (forall pre post rows Di,
          walls = pre ++ w :: post ->
          Template.loop AppR1._wall_orientation_factors (Inputs.X_offset inputs)
            (Inputs.Y_offset inputs) pre = Py.Ok rows ->
          Template.rigidity_modulus (Wall.Height_m w) (Wall.Length_m w)
            = Py.Ok Di ->
          AppR1.compute_rigid_diaphragm inputs walls
          = Py.Raise (naming_error "." (Wall.Wall_Name w))) /\
       (forall pre post rows,
          walls = pre ++ w :: post ->
          V2.table (Inputs.X_offset inputs) (Inputs.Y_offset inputs) pre
            = Py.Ok rows ->
          V2.compute_rigid_diaphragm inputs walls
          = Py.Raise (naming_error "." (Wall.Wall_Name w)))) /\
    (In r st_walls -> Str.is_ascii (Streamlit.WallIn.marker r) = true ->
     let marker := Streamlit.clean_marker (Streamlit.WallIn.marker r) in
     Str.startswith (Str.upper marker) "EW" = false ->
     Str.startswith (Str.upper marker) "NS" = false ->
     Streamlit.is_empty_row r = false ->
       exists o,
         In o (fst (Streamlit.compute_rigid_diaph st_walls st_inputs)) /\
         Streamlit.Out.marker o = marker /\
         Streamlit.Out.L o = Streamlit.WallIn.L r /\
         Streamlit.Out.H o = Streamlit.WallIn.H r /\
         Streamlit.Out.Ri_EW o = fzero /\
         Streamlit.Out.Ri_NS o = fzero).
Proof.
  intros F AF inputs walls w st_walls st_inputs r. split.
  - intros Hin _ Hun. repeat split.
    + apply template_raises. eapply loop_raises_at; [exact Hin|].
      now apply wall_row_unmarked.
    + apply appr1_raises, template_raises. eapply loop_raises_at; [exact Hin|].
      now apply wall_row_unmarked.
    + apply v2_raises. eapply v2_table_raises_at; [exact Hin|].
      rewrite v2_classify_unmarked by exact Hun. eexists; reflexivity.
    + intros pre post rows Di -> Hpre HDi.
      apply template_raise. unfold Template.loop in *.
      eapply for_each_first_raise; [exact Hpre|].
      unfold R1._wall_orientation_factors.
      exact (proj2 (wall_row_unmarked _ _ _ w Hun) Di HDi).
    + intros pre post rows Di -> Hpre HDi.
      unfold AppR1.compute_rigid_diaphragm.
      erewrite template_raise; [reflexivity|]. unfold Template.loop in *.
      eapply for_each_first_raise; [exact Hpre|].
      unfold AppR1._wall_orientation_factors.
      exact (proj2 (wall_row_unmarked _ _ _ w Hun) Di HDi).
    + intros pre post rows -> Hpre.
      rewrite v2_compute_nonempty by (now destruct pre).
      unfold V2.table in *. rewrite map_app. cbn [map].
      destruct (Py.for_each V2.classify_row
                  (map (V2.frame_row (Inputs.X_offset inputs)
                          (Inputs.Y_offset inputs)) pre)) as [bs|e] eqn:E;
        [|discriminate].
      erewrite for_each_first_raise;
        [reflexivity|exact E|now apply v2_classify_unmarked].
  - intros Hin _ marker HE HN Hne.
    destruct (streamlit_row_kept st_walls st_inputs r Hin Hne)
      as (o & Ho & Hm & HL & HH & HRE & HRN).
    exists o. repeat split; try assumption.
    + rewrite HRE. cbn. unfold Streamlit.is_EW. fold marker. now rewrite HE.
    + rewrite HRN. cbn. unfold Streamlit.is_NS. fold marker. now rewrite HN.
Qed.

Lemma unmarked_wall_outcome_witness :
  R1.compute_rigid_diaphragm Demo.plan_inputs Demo.w1_walls
  = Py.Raise (Py.ValueError
      "Wall Name 'W1' must contain 'EW' or 'NS' so the script can assign Rix/Riy.") /\
  AppR1.compute_rigid_diaphragm Demo.plan_inputs Demo.w1_walls
  = Py.Raise (Py.ValueError "Wall Name 'W1' must contain 'EW' or 'NS'.") /\
  V2.compute_rigid_diaphragm Demo.plan_inputs Demo.w1_walls
  = Py.Raise (Py.ValueError "Wall Name 'W1' must contain 'EW' or 'NS'.") /\
  (exists o,
     In o (fst (Streamlit.compute_rigid_diaph Demo.st_w1_walls Demo.st_inputs)) /\
     Streamlit.Out.marker o = "W1"%string /\
     Streamlit.Out.Ri_EW o = fzero /\ Streamlit.Out.Ri_NS o = fzero) /\
  (exists o,
     In o (fst (Streamlit.compute_rigid_diaph Demo.st_inner_marker_walls
                  Demo.st_inputs)) /\
     Streamlit.Out.marker o = "xNS2"%string /\
     Streamlit.Out.Ri_EW o = fzero /\ Streamlit.Out.Ri_NS o = fzero) /\
  (exists out,
     R1.compute_rigid_diaphragm Demo.plan_inputs Demo.inner_marker_walls
     = Py.Ok out /\
     map (@Row.Wall_Name float) (fst out)
     = ["EW1"; "EW2"; "NS1"; "xNS2"]%string /\
     map (fun r => is_zero (Row.Riy r)) (fst out) = [true; true; false; false]).
Proof.
  destruct (@unmarked_wall_outcome float float_arith Demo.plan_inputs
              Demo.w1_walls (Wall.mk "W1" 2 2 (Some 0) 0 5)%float
              Demo.st_w1_walls Demo.st_inputs
              (Streamlit.WallIn.mk "W1" 2 2 0 0 5)%float) as [H1 H2].
  destruct H1 as (_ & _ & _ & Hr1 & Ha & Hv2);
    [right; left; reflexivity|reflexivity|reflexivity|].
  split.
  { eapply (Hr1 [Wall.mk "EW1" 2 2 (Some 0) 0 1]%float);
      [reflexivity|vm_compute; reflexivity|vm_compute; reflexivity]. }
  split.
  { eapply (Ha [Wall.mk "EW1" 2 2 (Some 0) 0 1]%float);
      [reflexivity|vm_compute; reflexivity|vm_compute; reflexivity]. }
  split.
  { eapply (Hv2 [Wall.mk "EW1" 2 2 (Some 0) 0 1]%float);
      [reflexivity|vm_compute; reflexivity]. }
  split.
  { destruct H2 as (o & Ho & Hm & _ & _ & HE & HN);
      [right; left; reflexivity|reflexivity|reflexivity|reflexivity|reflexivity|].
    exists o. repeat split; assumption. }
  split.
  { destruct (proj2 (@unmarked_wall_outcome float float_arith Demo.plan_inputs
                Demo.w1_walls (Wall.mk "W1" 2 2 (Some 0) 0 5)%float
                Demo.st_inner_marker_walls Demo.st_inputs
                (Streamlit.WallIn.mk "xNS2" 2 2 0 18 0)%float))
      as (o & Ho & Hm & _ & _ & HE & HN);
      [do 3 right; left; reflexivity|reflexivity|reflexivity|reflexivity
      |reflexivity|].
    exists o. repeat split; assumption. }
  eexists. split; [vm_compute; reflexivity|]. split; reflexivity.
Defined.

(** C4 as stated fails on the streamlit solver: the wall named "W1" is
    in the returned table, with zero rigidity in both directions. *)
Lemma streamlit_keeps_unmarked_wall :
  exists o,
    In o (fst (Streamlit.compute_rigid_diaph Demo.st_w1_walls Demo.st_inputs)) /\
    Streamlit.Out.marker o = "W1"%string /\
    Streamlit.Out.Ri_EW o = 0%float /\
    Streamlit.Out.Ri_NS o = 0%float /\
    Streamlit.Out.V_X o = 0%float /\
    Streamlit.Out.V_Y o = 0%float.
Proof.
  eexists. split; [right; left; reflexivity|].
  vm_compute. repeat split.
Qed.

(** ** Claims C3 and C7: a zero [Jp], a zero rigidity sum *)

Section Degenerate.
Context {F : Type} {AF : Arith F}.

Lemma neq0_is_zero (x : F) : neq0 x = negb (is_zero x).
Proof. reflexivity. Qed.

Lemma finish_columns undefined W (inputs : Inputs.t F) rows :
  map (@Row.Riy_xk F) (fst (Template.finish undefined W inputs rows))
    = map (@Base.Riy_xk F) rows /\
  map (@Row.Rix_yk F) (fst (Template.finish undefined W inputs rows))
    = map (@Base.Rix_yk F) rows.
Proof.
  unfold Template.finish; cbn [fst]. rewrite !map_map. split; reflexivity.
Qed.


Lemma finish_center_computed undefined W (inputs : Inputs.t F) rows :
  center_computed (Template.finish undefined W inputs rows).
Proof.
  unfold center_computed.
  destruct (finish_columns undefined W inputs rows) as [-> ->].
  unfold Template.finish, Template.Xcr_of, Template.Ycr_of,
    Template.center; cbn. rewrite !neq0_is_zero.
  split; intros ->; reflexivity.
Qed.



Lemma for_each_length (A B : Type) (f : A -> Py.result B) l bs :
  Py.for_each f l = Py.Ok bs -> List.length bs = List.length l.
Proof.
  intros H. apply for_each_Forall2 in H.
  induction H; cbn [List.length]; congruence.
Qed.



Lemma streamlit_zero_Jp walls (inputs : Streamlit.In.t F) :
  is_zero (Streamlit.Globals.Jp (snd (Streamlit.compute_rigid_diaph walls inputs)))
    = true ->
  streamlit_nan_torsion (Streamlit.compute_rigid_diaph walls inputs).
Proof.
  unfold streamlit_nan_torsion, Streamlit.compute_rigid_diaph;
    cbn [fst snd Streamlit.Globals.Jp]. intros HJ.
  apply Forall_forall; intros r Hr.
  apply in_map_iff in Hr as [b [<- _]]. cbn.
  rewrite !neq0_is_zero, HJ. repeat split.
Qed.

Lemma streamlit_center walls (inputs : Streamlit.In.t F) :
  let g := snd (Streamlit.compute_rigid_diaph walls inputs) in
  (is_zero (Streamlit.Globals.sum_Ri_NS g) = true ->
   Streamlit.Globals.xr_local g = fnan) /\
  (is_zero (Streamlit.Globals.sum_Ri_EW g) = true ->
   Streamlit.Globals.yr_local g = fnan).
Proof.
  unfold Streamlit.compute_rigid_diaph, Streamlit.ratio_or_nan; cbn.
  rewrite !neq0_is_zero. split; intros ->; reflexivity.
Qed.

End Degenerate.

(** C3, amended.  In [compute_rigid_diaphragm] of app_v2 a table whose
    [Jp] evaluates to zero aborts the solve with [ZeroDivisionError], and
    no returned summary has [Jp == 0].  In [compute_rigid_diaph] of the
    streamlit app nothing is raised: when [Jp] is zero the table is
    returned with all four torsion ratios NaN. *)
Theorem zero_Jp_outcome :
  forall (F : Type) (AF : Arith F) (inputs : Inputs.t F)
         (walls : list (Wall.t F)) (rows : list (Base.t F))
         (st_walls : list (Streamlit.WallIn.t F))
         (st_inputs : Streamlit.In.t F),
    (walls <> [] ->
     V2.table (Inputs.X_offset inputs) (Inputs.Y_offset inputs) walls
       = Py.Ok rows ->
     is_zero (Template.Jp_of fzero rows) = true ->
     V2.compute_rigid_diaphragm inputs walls = Py.Raise Py.ZeroDivisionError) /\
    (forall out,
       V2.compute_rigid_diaphragm inputs walls = Py.Ok out ->
       is_zero (Summary.Jp (snd out)) = false) /\
    (is_zero (Streamlit.Globals.Jp
                (snd (Streamlit.compute_rigid_diaph st_walls st_inputs))) = true ->
     streamlit_nan_torsion (Streamlit.compute_rigid_diaph st_walls st_inputs)).
Proof.
  intros F AF inputs walls rows st_walls st_inputs. repeat split.
  - intros Hne Ht HJ. rewrite v2_compute_nonempty by exact Hne.
    rewrite Ht. cbn [Py.bind]. now rewrite HJ.
  - intros out H. apply v2_compute_ok in H as (rows' & _ & HJ & ->). exact HJ.
  - apply streamlit_zero_Jp.
Qed.

Lemma zero_Jp_outcome_witness :
  V2.compute_rigid_diaphragm Demo.plan_inputs Demo.coincident_walls
    = Py.Raise Py.ZeroDivisionError /\
  streamlit_nan_torsion
    (Streamlit.compute_rigid_diaph Demo.st_coincident_walls Demo.st_inputs).
Proof.
  destruct (@zero_Jp_outcome float float_arith Demo.plan_inputs
              Demo.coincident_walls
              (Sorting.sort_values (@Base.Wall_Name float)
                 (match Py.for_each V2.classify_row
                          (map (V2.frame_row 2%float 1%float) Demo.coincident_walls) with
                  | Py.Ok l => l
                  | Py.Raise _ => []
                  end))
              Demo.st_coincident_walls Demo.st_inputs) as (H1 & _ & H3).
  split.
  - apply H1; [discriminate|vm_compute; reflexivity|vm_compute; reflexivity].
  - apply H3. vm_compute; reflexivity.
Defined.

(** C3 as stated fails on the R1 script and on the streamlit solver: on
    four walls that all sit on the centre of rigidity [Jp] is zero, and
    both return a table whose total shears are NaN. *)
Lemma zero_Jp_returns_nan_table :
  (exists out,
     R1.compute_rigid_diaphragm Demo.plan_inputs Demo.coincident_walls = Py.Ok out /\
     Summary.Jp (snd out) = 0%float /\
     Forall (fun r => is_nan (Row.Vx_kN r) = true /\ is_nan (Row.Vy_kN r) = true)
            (fst out)) /\
  (let out := Streamlit.compute_rigid_diaph Demo.st_coincident_walls Demo.st_inputs in
   Streamlit.Globals.Jp (snd out) = 0%float /\
   Forall (fun r => is_nan (Streamlit.Out.V_X r) = true /\
                    is_nan (Streamlit.Out.V_Y r) = true) (fst out)).
Proof.
  split.
  - eexists. split; [vm_compute; reflexivity|].
    split; [reflexivity|]. repeat constructor.
  - split; [vm_compute; reflexivity|]. vm_compute. repeat constructor.
Qed.




(** ** Claim C10: the weights are echoed and nothing else *)

Section Weights.
Context {F : Type} {AF : Arith F}.

Lemma wall_row_forget classify X Y (w : Wall.t F) :
  Template.wall_row classify X Y (forget_wk w)
  = (r <- Template.wall_row classify X Y w ;; Py.Ok (forget_base_wk r)).
Proof.
  unfold Template.wall_row; cbn.
  destruct (Template.rigidity_modulus _ _) as [Di|e]; cbn [Py.bind]; [|reflexivity].
  destruct (classify _ Di) as [[rix riy]|e]; reflexivity.
Qed.

Lemma loop_forget classify X Y (ws : list (Wall.t F)) :
  Template.loop classify X Y (map (@forget_wk F) ws)
  = lift_rows (@forget_base_wk F) (Template.loop classify X Y ws).
Proof.
  unfold Template.loop. induction ws as [|w ws IH]; [reflexivity|].
  cbn [map Py.for_each]. rewrite wall_row_forget, IH.
  destruct (Template.wall_row classify X Y w) as [r|e]; cbn [Py.bind]; [|reflexivity].
  destruct (Py.for_each _ ws) as [rows|e]; reflexivity.
Qed.

(** The table-wide steps read the rows only through the columns that
    [forget_base_wk] keeps. *)
Lemma finish_forget undefined W (i : Inputs.t F) rows :
  forget_pair (Template.finish undefined W i rows)
  = forget_pair (Template.finish undefined None (forget_W i)
                   (map (@forget_base_wk F) rows)).
Proof.
  unfold forget_pair, Template.finish, Template.Jp_of, Template.polar,
    Template.Xcr_of, Template.Ycr_of. cbn.
  rewrite !map_map. reflexivity.
Qed.

Lemma Jp_of_forget undefined (rows : list (Base.t F)) :
  Template.Jp_of undefined (map (@forget_base_wk F) rows)
  = Template.Jp_of undefined rows.
Proof.
  unfold Template.Jp_of, Template.polar, Template.Xcr_of, Template.Ycr_of.
  rewrite !map_map. reflexivity.
Qed.

Lemma frame_forgotten (rows : list (Base.t F)) :
  Template.frame (map (@forget_base_wk F) rows) = map (@forget_base_wk F) rows.
Proof.
  unfold Template.frame.
  replace (existsb _ (map (@forget_base_wk F) rows)) with false; [reflexivity|].
  induction rows as [|r rows IH]; [reflexivity|]. cbn [map existsb]. exact IH.
Qed.

Lemma template_forget classify (i : Inputs.t F) ws :
  forget_weights (Template.compute classify i ws)
  = forget_weights (Template.compute classify (forget_W i)
                      (map (@forget_wk F) ws)).
Proof.
  rewrite !template_compute_eq. cbn [forget_W Inputs.X_offset Inputs.Y_offset].
  rewrite loop_forget.
  destruct (Template.loop _ _ _ ws) as [[|r rows]|e];
    cbn [lift_rows map Py.bind forget_weights]; try reflexivity.
  f_equal.
  rewrite (finish_forget fnan None i (Template.frame (r :: rows))).
  rewrite (frame_map (@forget_base_wk F)) by reflexivity.
  change (forget_base_wk r :: map (@forget_base_wk F) rows)
    with (map (@forget_base_wk F) (r :: rows)).
  now rewrite frame_forgotten.
Qed.

Lemma sort_forget (df : list (Row.t F)) :
  map (@forget_row_wk F) (Sorting.sort_values (@Row.Wall_Name F) df)
  = Sorting.sort_values (@Row.Wall_Name F) (map (@forget_row_wk F) df).
Proof. now rewrite sort_values_map. Qed.

Lemma appr1_forget (i : Inputs.t F) ws :
  forget_weights (AppR1.compute_rigid_diaphragm i ws)
  = (o <- forget_weights (Template.compute AppR1._wall_orientation_factors i ws) ;;
     Py.Ok (Sorting.sort_values (@Row.Wall_Name F) (fst o), snd o)).
Proof.
  unfold AppR1.compute_rigid_diaphragm.
  destruct (Template.compute _ i ws) as [[df s]|e]; [|reflexivity].
  cbn [Py.bind forget_weights fst snd]. unfold forget_pair.
  cbn [fst snd]. now rewrite sort_forget.
Qed.

Lemma v2_classify_forget X Y (w : Wall.t F) :
  (r <- V2.classify_row (V2.frame_row X Y (forget_wk w)) ;;
   Py.Ok (forget_base_wk r))
  = (r <- V2.classify_row (V2.frame_row X Y w) ;; Py.Ok (forget_base_wk r)).
Proof.
  unfold V2.classify_row, V2.frame_row; cbn.
  destruct (V2._wall_orientation_factors _ _) as [[rix riy]|e]; reflexivity.
Qed.

Lemma v2_classified_forget X Y (ws : list (Wall.t F)) :
  lift_rows (@forget_base_wk F)
    (Py.for_each V2.classify_row
       (map (V2.frame_row X Y) (map (@forget_wk F) ws)))
  = lift_rows (@forget_base_wk F)
      (Py.for_each V2.classify_row (map (V2.frame_row X Y) ws)).
Proof.
  induction ws as [|w ws IH]; [reflexivity|]. cbn [map Py.for_each].
  pose proof (v2_classify_forget X Y w) as Hw.
  destruct (V2.classify_row (V2.frame_row X Y (forget_wk w))) as [r1|e1];
    destruct (V2.classify_row (V2.frame_row X Y w)) as [r2|e2];
    cbn [Py.bind] in *; try discriminate; try (now inversion Hw).
  - destruct (Py.for_each _ (map _ (map _ ws))) as [l1|e1];
      destruct (Py.for_each _ (map _ ws)) as [l2|e2];
      cbn in *; try discriminate; try (now inversion IH).
    inversion Hw; inversion IH. congruence.
Qed.

Lemma sort_forget_base (l : list (Base.t F)) :
  map (@forget_base_wk F) (Sorting.sort_values (@Base.Wall_Name F) l)
  = Sorting.sort_values (@Base.Wall_Name F) (map (@forget_base_wk F) l).
Proof. now rewrite sort_values_map. Qed.

Lemma v2_table_forget X Y (ws : list (Wall.t F)) :
  lift_rows (@forget_base_wk F) (V2.table X Y (map (@forget_wk F) ws))
  = lift_rows (@forget_base_wk F) (V2.table X Y ws).
Proof.
  unfold V2.table. pose proof (v2_classified_forget X Y ws) as H.
  destruct (Py.for_each _ (map _ (map _ ws))) as [l1|e1];
    destruct (Py.for_each _ (map _ ws)) as [l2|e2];
    cbn in *; try discriminate; try exact H.
  inversion H as [H']. f_equal. now rewrite !sort_forget_base, H'.
Qed.

Lemma v2_forget_eq (i1 i2 : Inputs.t F) ws1 ws2 :
  same_but_weights i1 ws1 i2 ws2 ->
  existsb (@V2.has_w_k F) ws1 = existsb (@V2.has_w_k F) ws2 ->
  forget_weights (V2.compute_rigid_diaphragm i1 ws1)
  = forget_weights (V2.compute_rigid_diaphragm i2 ws2).
Proof.
  intros [Hi Hw] Hk. rewrite !v2_compute_eq.
  assert (HX : Inputs.X_offset i1 = Inputs.X_offset i2)
    by exact (f_equal (@Inputs.X_offset F) Hi).
  assert (HY : Inputs.Y_offset i1 = Inputs.Y_offset i2)
    by exact (f_equal (@Inputs.Y_offset F) Hi).
  pose proof (v2_table_forget (Inputs.X_offset i1) (Inputs.Y_offset i1) ws1) as T1.
  pose proof (v2_table_forget (Inputs.X_offset i2) (Inputs.Y_offset i2) ws2) as T2.
  rewrite Hw, HX, HY, T2 in T1. clear T2.
  destruct ws1 as [|w1 ws1], ws2 as [|w2 ws2]; try discriminate; [reflexivity|].
  rewrite <- Hk, HX, HY.
  destruct (V2.table _ _ (w1 :: ws1)) as [r1|e1];
    destruct (V2.table _ _ (w2 :: ws2)) as [r2|e2];
    cbn [lift_rows Py.bind forget_weights] in *; try discriminate;
    [|now inversion T1].
  inversion T1 as [T]. clear T1.
  rewrite <- (Jp_of_forget fzero r1), <- (Jp_of_forget fzero r2), T.
  destruct (is_zero _); [reflexivity|].
  destruct (existsb _ _); [|reflexivity]. cbn [forget_weights]. f_equal.
  rewrite (finish_forget fzero _ i1 r1), (finish_forget fzero _ i2 r2).
  now rewrite T, Hi.
Qed.

Lemma loop_echo classify X Y (ws : list (Wall.t F)) rows :
  Template.loop classify X Y ws = Py.Ok rows ->
  map (@Base.w_k_kN F) rows = map (@Wall.w_k_kN F) ws.
Proof.
  unfold Template.loop. intros H. apply for_each_Forall2 in H.
  induction H as [|w r ws rows Hw _ IH]; [reflexivity|].
  cbn [map]. rewrite IH. f_equal.
  unfold Template.wall_row in Hw.
  destruct (Template.rigidity_modulus _ _) as [Di|e]; cbn [Py.bind] in Hw;
    [|discriminate].
  destruct (classify _ Di) as [[rix riy]|e]; cbn [Py.bind] in Hw; [|discriminate].
  now inversion Hw.
Qed.

Lemma frame_echo (rows : list (Base.t F)) :
  map (@Base.w_k_kN F) (Template.frame rows)
  = pd_weights (map (@Base.w_k_kN F) rows).
Proof.
  unfold Template.frame, pd_weights.
  replace (existsb has_value (map (@Base.w_k_kN F) rows))
    with (existsb Template.has_weight rows).
  - destruct (existsb _ rows); [|reflexivity]. now rewrite !map_map.
  - induction rows as [|r rows IH]; [reflexivity|]. cbn [map existsb].
    now rewrite IH.
Qed.

(** The column [w_k (kN)] of the table the R1 body returns. *)
Lemma template_echo classify (i : Inputs.t F) ws rows :
  Template.loop classify (Inputs.X_offset i) (Inputs.Y_offset i) ws = Py.Ok rows ->
  map (@Row.w_k_kN F) (fst (Template.finish fnan None i (Template.frame rows)))
  = pd_weights (map (@Wall.w_k_kN F) ws).
Proof.
  intros Hl. apply loop_echo in Hl. rewrite <- Hl, <- frame_echo.
  unfold Template.finish; cbn [fst]. now rewrite map_map.
Qed.

Lemma v2_classified_echo X Y (ws : list (Wall.t F)) cl :
  Py.for_each V2.classify_row (map (V2.frame_row X Y) ws) = Py.Ok cl ->
  map (@Base.w_k_kN F) cl = map numeric_weight (map (@Wall.w_k_kN F) ws).
Proof.
  rewrite for_each_map. intros H. apply for_each_Forall2 in H.
  induction H as [|w r ws rows Hw _ IH]; [reflexivity|].
  cbn [map]. rewrite IH. f_equal.
  unfold V2.classify_row, V2.frame_row in Hw.
  destruct (V2._wall_orientation_factors _ _) as [[rix riy]|e];
    cbn [Py.bind] in Hw; [|discriminate].
  now inversion Hw.
Qed.

(** The column [w_k (kN)] of the table app_v2 returns. *)
Lemma v2_echo undefined W (i : Inputs.t F) X Y ws rows :
  V2.table X Y ws = Py.Ok rows ->
  Permutation (map (@Row.w_k_kN F) (fst (Template.finish undefined W i rows)))
    (map numeric_weight (map (@Wall.w_k_kN F) ws)).
Proof.
  unfold V2.table. intros H.
  destruct (Py.for_each _ _) as [cl|e] eqn:E; cbn [Py.bind] in H; [|discriminate].
  inversion H as [Hr]. apply v2_classified_echo in E. rewrite <- E.
  unfold Template.finish; cbn [fst]. rewrite map_map.
  change (fun x => Row.w_k_kN (Template.fill _ _ _ _ _ _ _ _ _ _ _ x))
    with (@Base.w_k_kN F).
  apply Permutation_map, sort_values_perm.
Qed.

End Weights.

(** ** The laws hold in binary64 *)

Module FloatLaws.

Local Open Scope float_scope.

Lemma SF_nan : Prim2SF PrimFloat.nan = S754_nan.
Proof. reflexivity. Qed.

Lemma SF_zero : Prim2SF 0 = S754_zero false.
Proof. reflexivity. Qed.

Lemma is_zero_SF x s : Prim2SF x = S754_zero s -> PrimFloat.eqb x 0 = true.
Proof.
  intros H. rewrite FloatAxioms.eqb_spec, H, SF_zero. now destruct s.
Qed.

Lemma float_zero_inv x : PrimFloat.eqb x 0 = true -> exists s, Prim2SF x = S754_zero s.
Proof.
  rewrite FloatAxioms.eqb_spec, SF_zero.
  destruct (Prim2SF x) as [s|s| |s m e]; intros H.
  - now exists s.
  - destruct s; discriminate.
  - discriminate.
  - destruct s; discriminate.
Qed.

Lemma not_zero_SF x s : PrimFloat.eqb x 0 = false -> Prim2SF x <> S754_zero s.
Proof. intros H E. apply is_zero_SF in E. congruence. Qed.

Lemma not_nan_SF x : negb (PrimFloat.eqb x x) = false -> Prim2SF x <> S754_nan.
Proof.
  rewrite FloatAxioms.eqb_spec. intros H E. rewrite E in H. discriminate.
Qed.

Lemma sub_nan_r x : x - PrimFloat.nan = PrimFloat.nan.
Proof.
  apply Prim2SF_inj. rewrite sub_spec, SF_nan. now destruct (Prim2SF x).
Qed.

Lemma mul_nan_l x : PrimFloat.nan * x = PrimFloat.nan.
Proof.
  apply Prim2SF_inj. rewrite mul_spec, SF_nan. reflexivity.
Qed.

Lemma mul_nan_r x : x * PrimFloat.nan = PrimFloat.nan.
Proof.
  apply Prim2SF_inj. rewrite mul_spec, SF_nan. now destruct (Prim2SF x).
Qed.

Lemma div_nan_l x : PrimFloat.nan / x = PrimFloat.nan.
Proof.
  apply Prim2SF_inj. rewrite div_spec, SF_nan. reflexivity.
Qed.

Lemma add_nan_l x : PrimFloat.nan + x = PrimFloat.nan.
Proof.
  apply Prim2SF_inj. rewrite add_spec, SF_nan. reflexivity.
Qed.

Lemma div_zero_l a b :
  PrimFloat.eqb a 0 = true -> PrimFloat.eqb b 0 = false ->
  negb (PrimFloat.eqb b b) = false -> PrimFloat.eqb (a / b) 0 = true.
Proof.
  intros Ha Hb Hn. apply float_zero_inv in Ha as [s Hs].
  pose proof (@not_zero_SF b) as Hz. specialize (fun s => Hz s Hb).
  pose proof (not_nan_SF _ Hn) as Hnn.
  destruct (Prim2SF b) as [sb|sb| |sb m e] eqn:E.
  - now destruct (Hz sb).
  - apply (@is_zero_SF _ (xorb s sb)). now rewrite div_spec, Hs, E.
  - now destruct Hnn.
  - apply (@is_zero_SF _ (xorb s sb)). now rewrite div_spec, Hs, E.
Qed.

Lemma mul_zero_zero x y :
  PrimFloat.eqb x 0 = true -> PrimFloat.eqb y 0 = true ->
  PrimFloat.eqb (x * y) 0 = true.
Proof.
  intros Hx Hy. apply float_zero_inv in Hx as [s Hs], Hy as [t Ht].
  apply (@is_zero_SF _ (xorb s t)). now rewrite mul_spec, Hs, Ht.
Qed.

Lemma pow3_zero x :
  PrimFloat.eqb x 0 = true -> PrimFloat.eqb (x * x * x) 0 = true.
Proof. intros H. now repeat apply mul_zero_zero. Qed.

Lemma mul_const_zero c x s m e :
  Prim2SF c = S754_finite s m e ->
  PrimFloat.eqb x 0 = true -> PrimFloat.eqb (c * x) 0 = true.
Proof.
  intros Hc Hx. apply float_zero_inv in Hx as [t Ht].
  apply (@is_zero_SF _ (xorb s t)). now rewrite mul_spec, Hc, Ht.
Qed.

Lemma add_zero x y :
  PrimFloat.eqb x 0 = true -> PrimFloat.eqb y 0 = true ->
  PrimFloat.eqb (x + y) 0 = true.
Proof.
  intros Hx Hy. apply float_zero_inv in Hx as [s Hs], Hy as [t Ht].
  destruct s, t; eapply is_zero_SF; rewrite add_spec, Hs, Ht; reflexivity.
Qed.

Lemma mul_finite_zero x :
  negb (negb (PrimFloat.eqb x x) || PrimFloat.is_infinity x) = true ->
  PrimFloat.eqb (x * 0) 0 = true.
Proof.
  intros H. apply negb_true_iff, orb_false_iff in H as [Hn Hi].
  pose proof (not_nan_SF _ Hn) as Hnn.
  unfold PrimFloat.is_infinity in Hi.
  rewrite FloatAxioms.eqb_spec, abs_spec in Hi.
  destruct (Prim2SF x) as [s|s| |s m e] eqn:E.
  - apply (@is_zero_SF _ (xorb s false)). now rewrite mul_spec, E, SF_zero.
  - discriminate Hi.
  - now destruct Hnn.
  - apply (@is_zero_SF _ (xorb s false)). now rewrite mul_spec, E, SF_zero.
Qed.

End FloatLaws.

#[export] Instance float_laws : @ArithLaws float float_arith.
Proof.
  constructor.
  - reflexivity.
  - reflexivity.
  - exact FloatLaws.sub_nan_r.
  - exact FloatLaws.mul_nan_l.
  - exact FloatLaws.mul_nan_r.
  - exact FloatLaws.div_nan_l.
  - exact FloatLaws.add_nan_l.
  - exact FloatLaws.div_zero_l.
  - exact FloatLaws.pow3_zero.
  - intros x. now apply (@FloatLaws.mul_const_zero 4%float x false 4503599627370496%positive (-50)%Z).
  - intros x. now apply (@FloatLaws.mul_const_zero 3%float x false 6755399441055744%positive (-51)%Z).
  - exact FloatLaws.add_zero.
  - exact FloatLaws.mul_finite_zero.
Qed.

(** ** The laws hold in the exact carrier *)

Module XLaws.

Local Open Scope Qc_scope.




(** [x == 0.0] picks out the rational zero. *)
Lemma xreal_zero_inv (x : xreal) : is_zero x = true -> x = Fin 0.
Proof.
  destruct x as [q| |]; cbn; try discriminate.
  intros H. apply Qc_eq_bool_correct in H. now subst.
Qed.

Lemma is_zero_Fin (q : Qc) : is_zero (Fin q) = X.qzero q.
Proof. reflexivity. Qed.

Lemma is_zero_0 : is_zero (Fin 0) = true.
Proof. reflexivity. Qed.

End XLaws.

#[export] Instance xreal_laws : @ArithLaws xreal xreal_arith.
Proof.
  constructor.
  - reflexivity.
  - reflexivity.
  - intros [q|s|]; reflexivity.
  - intros x; reflexivity.
  - intros [q|s|]; reflexivity.
  - intros x; reflexivity.
  - intros x; reflexivity.
  - intros a b Ha Hb Hn. apply XLaws.xreal_zero_inv in Ha. subst a.
    destruct b as [q|s|]; cbn in *; try discriminate; [|reflexivity].
    change (Qc_eq_bool q (Q2Qc 0)) with (X.qzero q) in Hb.
    unfold X.div. rewrite Hb.
    replace (Q2Qc 0 / q)%Qc with (Q2Qc 0); [reflexivity|].
    unfold Qcdiv. ring.
  - intros x Hx. apply XLaws.xreal_zero_inv in Hx. now subst x.
  - intros x Hx. apply XLaws.xreal_zero_inv in Hx. now subst x.
  - intros x Hx. apply XLaws.xreal_zero_inv in Hx. now subst x.
  - intros x y Hx Hy. apply XLaws.xreal_zero_inv in Hx, Hy. now subst x y.
  - intros [q|s|] H; [|destruct s; discriminate H|discriminate H].
    change (X.qzero (q * 0)%Qc = true).
    replace (q * 0)%Qc with 0%Qc by ring. reflexivity.
Qed.

(** C10.  In the three [compute_rigid_diaphragm] variants the wall
    weights [w_k] and the diaphragm weight [W] reach no computed
    quantity: two inputs that differ in them only have the same outcome
    once the echoed weights are set aside (the same exception, or tables
    and summaries equal in every other column and key).  The weights
    are echoed and nothing else: the column [w_k (kN)] of the R1 table
    holds the weights of the walls in their order, as the frame holds
    them (NaN for a wall without a weight as soon as one wall has a
    weight, [None] throughout when none has); the tables of the two
    apps hold them in the sorted order; the summary of the R1 variants
    has no key [W] and the v2 summary echoes [W]. *)
Theorem weights_noninterference :
  forall (F : Type) (AF : Arith F) (i1 i2 : Inputs.t F)
         (ws1 ws2 : list (Wall.t F)),
    same_but_weights i1 ws1 i2 ws2 ->
    forget_weights (R1.compute_rigid_diaphragm i1 ws1)
      = forget_weights (R1.compute_rigid_diaphragm i2 ws2) /\
    forget_weights (AppR1.compute_rigid_diaphragm i1 ws1)
      = forget_weights (AppR1.compute_rigid_diaphragm i2 ws2) /\
    (existsb (@V2.has_w_k F) ws1 = existsb (@V2.has_w_k F) ws2 ->
     forget_weights (V2.compute_rigid_diaphragm i1 ws1)
       = forget_weights (V2.compute_rigid_diaphragm i2 ws2)) /\
    (forall out, R1.compute_rigid_diaphragm i1 ws1 = Py.Ok out ->
       map (@Row.w_k_kN F) (fst out) = pd_weights (map (@Wall.w_k_kN F) ws1) /\
       Summary.W (snd out) = None) /\
    (forall out, AppR1.compute_rigid_diaphragm i1 ws1 = Py.Ok out ->
       Permutation (map (@Row.w_k_kN F) (fst out))
         (pd_weights (map (@Wall.w_k_kN F) ws1)) /\
       Summary.W (snd out) = None) /\
    (forall out, V2.compute_rigid_diaphragm i1 ws1 = Py.Ok out ->
       Permutation (map (@Row.w_k_kN F) (fst out))
         (map numeric_weight (map (@Wall.w_k_kN F) ws1)) /\
       Summary.W (snd out) = Some (Inputs.W i1)).
Proof.
  intros F AF i1 i2 ws1 ws2 H. pose proof H as [Hi Hw].
  split; [|split; [|split; [|split; [|split]]]].
  - unfold R1.compute_rigid_diaphragm.
    rewrite (template_forget _ i1 ws1), (template_forget _ i2 ws2).
    now rewrite Hi, Hw.
  - rewrite !appr1_forget.
    rewrite (template_forget _ i1 ws1), (template_forget _ i2 ws2).
    now rewrite Hi, Hw.
  - intros Hk. now apply v2_forget_eq.
  - intros out Ho. apply template_compute_ok in Ho as (rows & Hl & _ & ->).
    split; [|reflexivity]. eapply template_echo; exact Hl.
  - intros out Ho. apply appr1_compute_ok in Ho as (o & Ho & ->).
    apply template_compute_ok in Ho as (rows & Hl & _ & ->).
    split; [|reflexivity]. cbn [fst].
    erewrite <- template_echo by exact Hl.
    apply Permutation_map, sort_values_perm.
  - intros out Ho. apply v2_compute_ok in Ho as (rows & Hl & _ & ->).
    split; [|reflexivity]. eapply v2_echo; exact Hl.
Qed.

Lemma weights_noninterference_witness :
  forget_weights (R1.compute_rigid_diaphragm Demo.plan_inputs Demo.plan_walls)
    = forget_weights
        (R1.compute_rigid_diaphragm Demo.weighted_inputs Demo.weighted_walls) /\
  forget_weights (V2.compute_rigid_diaphragm Demo.plan_inputs Demo.plan_walls)
    = forget_weights
        (V2.compute_rigid_diaphragm Demo.weighted_inputs Demo.weighted_walls) /\
  exists out,
    R1.compute_rigid_diaphragm Demo.plan_inputs Demo.partly_weighted_walls
    = Py.Ok out /\
    map (@Row.w_k_kN float) (fst out)
    = [Some 5%float; Some PrimFloat.nan; Some PrimFloat.nan; Some 7%float] /\
    map (@Row.Vx_kN float) (fst out)
    = [43.75%float; 56.25%float; 0%float; 0%float].
Proof.
  destruct (@weights_noninterference float float_arith
              Demo.plan_inputs Demo.weighted_inputs
              Demo.plan_walls Demo.weighted_walls) as (H1 & _ & H3 & _).
  - split; reflexivity.
  - split; [exact H1|]. split; [apply H3; reflexivity|].
    destruct (@weights_noninterference float float_arith
                Demo.plan_inputs Demo.plan_inputs
                Demo.partly_weighted_walls Demo.plan_walls)
      as (_ & _ & _ & H4 & _); [split; reflexivity|].
    eexists. split; [vm_compute; reflexivity|].
    split; [|vm_compute; reflexivity].
    refine (proj1 (H4 _ _)). vm_compute; reflexivity.
Defined.

(** ** Claim C8: east-west walls only *)

Section EastWest.
Context {F : Type} {AF : Arith F} {LF : ArithLaws}.

Lemma neq0_zero : neq0 (fzero : F) = false.
Proof. unfold neq0. now rewrite feqb_zero_zero. Qed.

Lemma fold_zeros (l : list F) :
  Forall (fun x => x = fzero) l -> fold_left fadd l fzero = fzero.
Proof.
  induction 1 as [|x l -> _ IH]; [reflexivity|].
  cbn [fold_left]. now rewrite fadd_zero_zero.
Qed.

Lemma series_sum_zeros (l : list F) :
  Forall (fun x => x = fzero) l -> series_sum l = fzero.
Proof.
  intros H. unfold series_sum. apply fold_zeros.
  induction H as [|x l -> _ IH]; constructor; [|exact IH].
  now destruct (is_nan fzero).
Qed.

Lemma wall_row_EW tail X Y (w : Wall.t F) r :
  classified_EW (Wall.Wall_Name w) = true ->
  Template.wall_row (Template.orientation tail) X Y w = Py.Ok r ->
  Base.Riy r = fzero.
Proof.
  unfold classified_EW, Template.wall_row, Template._clean_wall_name,
    Template.orientation. intros ->.
  destruct (Template.rigidity_modulus _ _) as [Di|e]; cbn [Py.bind];
    [|discriminate].
  destruct (py_div fone Di) as [q|e]; cbn [Py.bind]; [|discriminate].
  intros H; now inversion H.
Qed.

Lemma loop_EW tail X Y (walls : list (Wall.t F)) rows :
  Forall (fun w => classified_EW (Wall.Wall_Name w) = true) walls ->
  Template.loop (Template.orientation tail) X Y walls = Py.Ok rows ->
  Forall (fun r => Base.Riy r = fzero) rows.
Proof.
  intros HEW H. apply for_each_Forall2 in H.
  induction H as [|w r ws rs Hw _ IH]; constructor.
  - eapply wall_row_EW; [|exact Hw]. now inversion HEW.
  - apply IH. now inversion HEW.
Qed.

Lemma sum_Riy_zero (rows : list (Base.t F)) :
  Forall (fun r => Base.Riy r = fzero) rows ->
  series_sum (map (@Base.Riy F) rows) = fzero.
Proof.
  intros H. apply series_sum_zeros. now apply Forall_map.
Qed.

End EastWest.

Section EastWestRows.
Context {F : Type} {AF : Arith F} {LF : ArithLaws}.

(** A row without north-south rigidity, in a table whose [Xcr] is NaN. *)
Lemma fill_EW Fx Fy ex ey exbar eybar Ycr sum_Rix Jp (b : Base.t F) :
  Base.Riy b = fzero ->
  let r := Template.fill Fx Fy ex ey exbar eybar fnan Ycr sum_Rix fzero Jp b in
  Row.Riy r = fzero /\
  Row.Direct_Shear_Ratio_y r = fzero /\
  Row.Direct_Shear_y r = fmul Fy fzero /\
  Row.Vy_Real_Tor r = fnan /\
  Row.Vy_Acc_Tor r = fnan /\
  Row.Vy_kN r = fnan.
Proof.
  intros Hb. cbn. unfold Template.xbar.
  rewrite neq0_zero, fsub_nan_r, !fmul_nan_r, !fmul_nan_l, !fdiv_nan_l,
    !fmul_nan_r, !fadd_nan_l.
  repeat split. exact Hb.
Qed.

End EastWestRows.

(** C8, amended.  When every wall is classified east-west, the R1
    script returns (if it returns) a summary with [sum_Riy = 0] and with
    [Xcr] - not [Ycr] - as the NaN sentinel; [Ycr] is the weighted mean
    of the walls when [sum_Rix] is not zero.  In every row [Riy] and the
    direct Y shear ratio are zero and the direct Y shear is [Fy * 0.0]
    (zero for a finite [Fy]), but the real-torsion, the
    accidental-torsion and the total Y shear are NaN, not zero: the NaN
    of [Xcr] reaches them through [xbar]. *)
Theorem all_east_west_outcome :
  forall (F : Type) (AF : Arith F) (LF : @ArithLaws F AF)
         (inputs : Inputs.t F) (walls : list (Wall.t F))
         (out : list (Row.t F) * Summary.t F),
    Forall (fun w => classified_EW (Wall.Wall_Name w) = true) walls ->
    R1.compute_rigid_diaphragm inputs walls = Py.Ok out ->
    Summary.sum_Riy (snd out) = fzero /\
    Summary.Xcr (snd out) = fnan /\
    (is_zero (Summary.sum_Rix (snd out)) = false ->
     Summary.Ycr (snd out)
     = fdiv (series_sum (map (@Row.Rix_yk F) (fst out)))
            (Summary.sum_Rix (snd out))) /\
    Forall (fun r =>
      Row.Riy r = fzero /\
      Row.Direct_Shear_Ratio_y r = fzero /\
      Row.Direct_Shear_y r = fmul (Inputs.Fy inputs) fzero /\
      (is_finite (Inputs.Fy inputs) = true ->
       is_zero (Row.Direct_Shear_y r) = true) /\
      Row.Vy_Real_Tor r = fnan /\
      Row.Vy_Acc_Tor r = fnan /\
      Row.Vy_kN r = fnan) (fst out).
Proof.
  intros F AF LF inputs walls out HEW H.
  apply template_compute_ok in H as (rows & Hl & _ & ->).
  apply (loop_EW _ _ _ HEW) in Hl.
  apply frame_Forall in Hl; [|now intros r Hr]. to_frame rows.
  pose proof (sum_Riy_zero Hl) as Hs.
  assert (HX : Template.Xcr_of fnan rows = fnan).
  { unfold Template.Xcr_of, Template.center. now rewrite Hs, neq0_zero. }
  split; [exact Hs|]. split; [exact HX|]. split.
  - apply (finish_center_computed fnan None inputs rows).
  - unfold Template.finish; cbn [fst]. rewrite HX, Hs.
    apply Forall_forall; intros r Hr.
    apply in_map_iff in Hr as [b [<- Hb]].
    rewrite Forall_forall in Hl.
    destruct (fill_EW (Inputs.Fx inputs) (Inputs.Fy inputs)
                (fabs (fsub (fsub (Inputs.Xcm_manual inputs)
                               (Inputs.X_offset inputs)) fnan))
                (fabs (fsub (fsub (Inputs.Ycm_manual inputs)
                               (Inputs.Y_offset inputs))
                         (Template.Ycr_of fnan rows)))
                (fmul ftenth (Inputs.L inputs)) (fmul ftenth (Inputs.B inputs))
                (Template.Ycr_of fnan rows)
                (series_sum (map (@Base.Rix F) rows))
                (Template.Jp_of fnan rows) b (Hl b Hb))
      as (H1 & H2 & H3 & H4 & H5 & H6).
    unfold Template.Jp_of in *. rewrite HX in *.
    repeat split; try assumption.
    intros Hfin. rewrite H3. now apply fmul_finite_zero.
Qed.

Lemma all_east_west_outcome_witness :
  exists out,
    R1.compute_rigid_diaphragm Demo.plan_inputs Demo.ew_walls = Py.Ok out /\
    Summary.sum_Riy (snd out) = 0%float /\
    Summary.Xcr (snd out) = PrimFloat.nan /\
    Forall (fun r => Row.Vy_kN r = PrimFloat.nan) (fst out).
Proof.
  eexists. split; [vm_compute; reflexivity|].
  destruct (@all_east_west_outcome float float_arith float_laws
              Demo.plan_inputs Demo.ew_walls _
              ltac:(repeat constructor) ltac:(vm_compute; reflexivity))
    as (H1 & H2 & _ & H4).
  split; [exact H1|]. split; [exact H2|].
  eapply Forall_impl; [|exact H4]. intros r Hr. apply Hr.
Defined.

(** C8 as stated fails on the R1 script: with east-west walls only,
    [Ycr] is 4, not NaN (the NaN is [Xcr]), and the total Y shear of
    every wall is NaN, not zero. *)
Lemma east_west_only_counterexample :
  exists out,
    R1.compute_rigid_diaphragm Demo.plan_inputs Demo.ew_walls = Py.Ok out /\
    Summary.Ycr (snd out) = 4%float /\
    is_nan (Summary.Ycr (snd out)) = false /\
    Forall (fun r => is_nan (Row.Vy_Real_Tor r) = true /\
                     is_nan (Row.Vy_Acc_Tor r) = true /\
                     is_nan (Row.Vy_kN r) = true /\
                     is_zero (Row.Vy_kN r) = false) (fst out).
Proof.
  eexists. split; [vm_compute; reflexivity|].
  split; [reflexivity|]. split; [reflexivity|]. repeat constructor.
Qed.

(** ** Claim C9: walls without a positive length or height *)

Section Geometry.
Context {F : Type} {AF : Arith F}.

Lemma wall_row_zero_length classify X Y (w : Wall.t F) :
  is_zero (Wall.Length_m w) = true ->
  Template.wall_row classify X Y w = Py.Raise Py.ZeroDivisionError.
Proof.
  intros H. unfold Template.wall_row, Template.rigidity_modulus, py_div.
  now rewrite H.
Qed.

Lemma orientation_zero_Di tail name (Di : F) :
  is_zero Di = true -> Py.raises (Template.orientation tail name Di).
Proof.
  intros H. unfold Template.orientation, py_div. rewrite H.
  destruct (Str.contains "EW" _); [eexists; reflexivity|].
  destruct (Str.contains "NS" _); eexists; reflexivity.
Qed.

Context {LF : ArithLaws}.

Lemma modulus_zero (q : F) :
  is_zero q = true ->
  is_zero (fadd (fmul ffour (fpow3 q)) (fmul fthree q)) = true.
Proof.
  intros H. apply fadd_zero.
  - now apply fmul_four_zero, fpow3_zero.
  - now apply fmul_three_zero.
Qed.

Lemma wall_row_zero_height tail X Y (w : Wall.t F) :
  is_zero (Wall.Height_m w) = true ->
  is_zero (Wall.Length_m w) = false ->
  is_nan (Wall.Length_m w) = false ->
  Py.raises (Template.wall_row (Template.orientation tail) X Y w).
Proof.
  intros Hh Hl Hn.
  unfold Template.wall_row, Template.rigidity_modulus, py_div, py_pow3.
  rewrite Hl. cbn [Py.bind].
  destruct (_ && _); cbn [Py.bind]; [eexists; reflexivity|].
  destruct (@orientation_zero_Di tail
              (Template._clean_wall_name (Wall.Wall_Name w))
              (fadd (fmul ffour (fpow3 (fdiv (Wall.Height_m w) (Wall.Length_m w))))
                    (fmul fthree (fdiv (Wall.Height_m w) (Wall.Length_m w)))))
    as [e He].
  - apply modulus_zero. now apply fdiv_zero_l.
  - rewrite He. now exists e.
Qed.

Lemma v2_classify_zero_height X Y (w : Wall.t F) :
  is_zero (Wall.Height_m w) = true ->
  is_zero (Wall.Length_m w) = false ->
  is_nan (Wall.Length_m w) = false ->
  Py.raises (V2.classify_row (V2.frame_row X Y w)).
Proof.
  intros Hh Hl Hn.
  unfold V2.classify_row, V2.frame_row, V2._wall_orientation_factors,
    Template.rigidity_modulus_np.
  destruct (@orientation_zero_Di "." (Str.strip (Wall.Wall_Name w))
              (fadd (fmul ffour (fpow3 (fdiv (Wall.Height_m w) (Wall.Length_m w))))
                    (fmul fthree (fdiv (Wall.Height_m w) (Wall.Length_m w)))))
    as [e He].
  - apply modulus_zero. now apply fdiv_zero_l.
  - rewrite He. now exists e.
Qed.

End Geometry.

(** C9, amended.  No variant checks the geometry.  In the R1 script and
    the R1 app a wall of zero length stops the solve with the
    [ZeroDivisionError] of [height / length] (which names no wall), and
    in those two and in app_v2 so does a wall of zero height whose
    length is a nonzero number, through [1.0 / Di]; no table is
    returned.  A negative length or height is not rejected.  The
    streamlit solver raises nothing: every non-empty input row,
    whatever its length and height, has its row in the table. *)
Theorem degenerate_geometry_outcome :
  forall (F : Type) (AF : Arith F) (LF : @ArithLaws F AF)
         (inputs : Inputs.t F) (walls : list (Wall.t F)) (w : Wall.t F)
         (st_walls : list (Streamlit.WallIn.t F))
         (st_inputs : Streamlit.In.t F) (r : Streamlit.WallIn.t F),
    (In w walls -> is_zero (Wall.Length_m w) = true ->
       Py.raises (R1.compute_rigid_diaphragm inputs walls) /\
       Py.raises (AppR1.compute_rigid_diaphragm inputs walls) /\
       (forall pre post rows,
          walls = pre ++ w :: post ->
          Template.loop R1._wall_orientation_factors (Inputs.X_offset inputs)
            (Inputs.Y_offset inputs) pre = Py.Ok rows ->
          R1.compute_rigid_diaphragm inputs walls
          = Py.Raise Py.ZeroDivisionError)) /\
    (In w walls -> is_zero (Wall.Height_m w) = true ->
     is_zero (Wall.Length_m w) = false -> is_nan (Wall.Length_m w) = false ->
       Py.raises (R1.compute_rigid_diaphragm inputs walls) /\
       Py.raises (AppR1.compute_rigid_diaphragm inputs walls) /\
       Py.raises (V2.compute_rigid_diaphragm inputs walls)) /\
    (In r st_walls -> Streamlit.is_empty_row r = false ->
       exists o,
         In o (fst (Streamlit.compute_rigid_diaph st_walls st_inputs)) /\
         Streamlit.Out.marker o
           = Streamlit.clean_marker (Streamlit.WallIn.marker r) /\
         Streamlit.Out.L o = Streamlit.WallIn.L r /\
         Streamlit.Out.H o = Streamlit.WallIn.H r).
Proof.
  intros F AF LF inputs walls w st_walls st_inputs r.
  split; [|split].
  - intros Hin Hz. repeat split.
    + apply template_raises. eapply loop_raises_at; [exact Hin|].
      rewrite wall_row_zero_length by exact Hz. eexists; reflexivity.
    + apply appr1_raises, template_raises. eapply loop_raises_at; [exact Hin|].
      rewrite wall_row_zero_length by exact Hz. eexists; reflexivity.
    + intros pre post rows -> Hpre. apply template_raise.
      unfold Template.loop in *.
      eapply for_each_first_raise; [exact Hpre|].
      now apply wall_row_zero_length.
  - intros Hin Hh Hl Hn. repeat split.
    + apply template_raises. eapply loop_raises_at; [exact Hin|].
      now apply wall_row_zero_height.
    + apply appr1_raises, template_raises. eapply loop_raises_at; [exact Hin|].
      now apply wall_row_zero_height.
    + apply v2_raises. eapply v2_table_raises_at; [exact Hin|].
      now apply v2_classify_zero_height.
  - intros Hin Hne.
    destruct (streamlit_row_kept st_walls st_inputs r Hin Hne)
      as (o & Ho & Hm & HL & HH & _).
    exists o. now repeat split.
Qed.

Lemma degenerate_geometry_outcome_witness :
  R1.compute_rigid_diaphragm Demo.plan_inputs Demo.zero_length_walls
    = Py.Raise Py.ZeroDivisionError /\
  Py.raises (R1.compute_rigid_diaphragm Demo.plan_inputs Demo.zero_height_walls) /\
  Py.raises (V2.compute_rigid_diaphragm Demo.plan_inputs Demo.zero_height_walls) /\
  exists o,
    In o (fst (Streamlit.compute_rigid_diaph Demo.st_zero_length_walls
                 Demo.st_inputs)) /\
    Streamlit.Out.marker o = "EW2"%string /\
    Streamlit.Out.L o = 0%float /\
    Streamlit.Out.H o = 2%float.
Proof.
  destruct (@degenerate_geometry_outcome float float_arith float_laws
              Demo.plan_inputs Demo.zero_length_walls
              (Wall.mk "EW2" 0 2 (Some 0) 0 9)%float
              Demo.st_zero_length_walls Demo.st_inputs
              (Streamlit.WallIn.mk "EW2" 0 2 0 0 9)%float) as (H1 & _ & H3).
  destruct (@degenerate_geometry_outcome float float_arith float_laws
              Demo.plan_inputs Demo.zero_height_walls
              (Wall.mk "EW2" 2 0 (Some 0) 0 9)%float
              Demo.st_zero_length_walls Demo.st_inputs
              (Streamlit.WallIn.mk "EW2" 0 2 0 0 9)%float) as (_ & H2 & _).
  destruct H1 as (_ & _ & H1); [right; left; reflexivity|reflexivity|].
  destruct H2 as (H2 & _ & H2'); [right; left; reflexivity|reflexivity..|].
  split.
  { eapply (H1 [Wall.mk "EW1" 2 2 (Some 0) 0 1]%float);
      [reflexivity|vm_compute; reflexivity]. }
  split; [exact H2|]. split; [exact H2'|].
  apply H3; [right; left; reflexivity|reflexivity].
Defined.

(** C9 as stated fails on the R1 script and on app_v2: a wall of length
    [-1] is accepted, and the table that is returned holds it, with the
    negative rigidity [Rix = 1/(-38)]. *)
Lemma negative_length_accepted :
  (exists out,
     R1.compute_rigid_diaphragm Demo.plan_inputs Demo.negative_length_walls
       = Py.Ok out /\
     map (@Row.Length_m float) (fst out) = [-1; 2; 2; 2]%float /\
     map (@Row.Di float) (fst out) = [-38; 7; 7; 7]%float /\
     Forall (fun r => is_finite (Row.Vx_kN r) = true /\
                      is_finite (Row.Vy_kN r) = true) (fst out)) /\
  (exists out,
     V2.compute_rigid_diaphragm Demo.plan_inputs Demo.negative_length_walls
       = Py.Ok out /\
     map (@Row.Length_m float) (fst out) = [-1; 2; 2; 2]%float).
Proof.
  split.
  - eexists. split; [vm_compute; reflexivity|].
    split; [reflexivity|]. split; [reflexivity|]. repeat constructor.
  - eexists. split; [vm_compute; reflexivity|]. reflexivity.
Qed.

(** ** Exact arithmetic *)

Module Exact.

Local Open Scope Qc_scope.
















End Exact.

(** ** Claim C6: the direct shears add up to the applied forces *)

Module Conservation.

Local Open Scope Qc_scope.
















End Conservation.



(** ** Claim C5: moving the origin and the plan together *)

Module Offset.

Local Open Scope Qc_scope.











End Offset.




(** In binary64 the cancellation is not exact: moving the default
    layout of the apps by [(0.1, 0.2)] changes the last digits of the
    total Y shear of wall NS1. *)
Lemma translation_rounds_in_binary64 :
  exists out out',
    R1.compute_rigid_diaphragm Demo.inputs Demo.walls = Py.Ok out /\
    R1.compute_rigid_diaphragm
      (translate_inputs 0.1%float 0.2%float Demo.inputs)
      (map (translate_wall 0.1%float 0.2%float) Demo.walls) = Py.Ok out' /\
    nth 2 (map (@Row.Vy_kN float) (fst out)) 0%float = 3221.6803634182634%float /\
    nth 2 (map (@Row.Vy_kN float) (fst out')) 0%float = 3221.6803634182725%float.
Proof.
  do 2 eexists.
  split; [vm_compute; reflexivity|].
  split; [vm_compute; reflexivity|].
  split; reflexivity.
Qed.

(** * Further properties of the code *)

(** ** Strings: markers survive stripping, stripping is idempotent *)

Lemma space_upper c : Str.is_space c = true -> Str.upper_char c = c.
Proof.
  unfold Str.is_space, Str.upper_char. intros H.
  destruct ((97 <=? nat_of_ascii c) && (nat_of_ascii c <=? 122)) eqn:E;
    [|reflexivity].
  apply andb_true_iff in E as [E1 E2].
  apply Nat.leb_le in E1, E2.
  apply orb_true_iff in H as [H|H]; apply andb_true_iff in H as [H1 H2];
    apply Nat.leb_le in H1, H2; lia.
Qed.

(** A two-letter marker made of letters other than whitespace. *)
Lemma prefix_lstrip a b c s :
  Str.is_space a = false -> Str.is_space c = true ->
  String.prefix (String a b) (Str.upper (String c s)) = false.
Proof.
  intros Ha Hc. cbn [Str.upper String.prefix].
  destruct (ascii_dec a (Str.upper_char c)) as [E|E]; [|reflexivity].
  rewrite space_upper in E by exact Hc. subst. congruence.
Qed.

Lemma contains_lstrip a b s :
  Str.is_space a = false ->
  Str.contains (String a b) (Str.upper s) = true ->
  Str.contains (String a b) (Str.upper (Str.lstrip s)) = true.
Proof.
  intros Ha. induction s as [|c s IH]; [trivial|].
  cbn [Str.lstrip]. destruct (Str.is_space c) eqn:Hc; [|trivial].
  intros H. apply IH.
  change (Str.upper (String c s)) with (String (Str.upper_char c) (Str.upper s)) in H.
  cbn [Str.contains] in H. apply orb_true_iff in H as [H|H]; [|exact H].
  change (String (Str.upper_char c) (Str.upper s)) with (Str.upper (String c s)) in H.
  now rewrite prefix_lstrip in H.
Qed.

Lemma rstrip_head c s :
  Str.is_space c = false -> exists r, Str.rstrip (String c s) = String c r.
Proof.
  intros Hc. cbn [Str.rstrip]. destruct (Str.rstrip s) as [|d r].
  - rewrite Hc. now exists EmptyString.
  - now exists (String d r).
Qed.

Lemma rstrip_cons_nonempty c s :
  Str.rstrip s <> EmptyString -> Str.rstrip (String c s) = String c (Str.rstrip s).
Proof.
  intros H. cbn [Str.rstrip]. destruct (Str.rstrip s); [contradiction|reflexivity].
Qed.

Lemma contains_nil_false a b : Str.contains (String a b) EmptyString = false.
Proof. reflexivity. Qed.

Lemma contains_rstrip a b s :
  Str.is_space a = false -> Str.is_space b = false ->
  Str.contains (String a (String b EmptyString)) (Str.upper s) = true ->
  Str.contains (String a (String b EmptyString)) (Str.upper (Str.rstrip s)) = true.
Proof.
  intros Ha Hb. induction s as [|c s IH]; [trivial|].
  intros H.
  change (Str.upper (String c s)) with (String (Str.upper_char c) (Str.upper s)) in H.
  cbn [Str.contains] in H. apply orb_true_iff in H as [H|H].
  - (* the marker starts at [c] *)
    destruct s as [|d s]; [cbn in H; destruct (ascii_dec a (Str.upper_char c)); discriminate|].
    cbn [Str.upper String.prefix] in H.
    destruct (ascii_dec a (Str.upper_char c)) as [Ec|]; [|discriminate].
    destruct (ascii_dec b (Str.upper_char d)) as [Ed|]; [|discriminate].
    assert (Hd : Str.is_space d = false).
    { destruct (Str.is_space d) eqn:E; [|reflexivity].
      rewrite space_upper in Ed by exact E. congruence. }
    destruct (@rstrip_head d s Hd) as [r Hr].
    rewrite rstrip_cons_nonempty by (rewrite Hr; discriminate).
    rewrite Hr. cbn [Str.upper Str.contains String.prefix].
    destruct (ascii_dec a (Str.upper_char c)); [|contradiction].
    destruct (ascii_dec b (Str.upper_char d)); [|contradiction].
    now destruct (Str.upper r).
  - specialize (IH H).
    assert (Hne : Str.rstrip s <> EmptyString).
    { intros E. rewrite E in IH. discriminate IH. }
    rewrite rstrip_cons_nonempty by exact Hne.
    cbn [Str.upper Str.contains]. rewrite IH. apply orb_true_r.
Qed.

(** A marker found in the name is found in the stripped name. *)
Lemma contains_strip a b s :
  Str.is_space a = false -> Str.is_space b = false ->
  Str.contains (String a (String b EmptyString)) (Str.upper s) = true ->
  Str.contains (String a (String b EmptyString)) (Str.upper (Str.strip s)) = true.
Proof.
  intros Ha Hb H. unfold Str.strip.
  apply contains_rstrip; [exact Ha|exact Hb|]. now apply contains_lstrip.
Qed.

Lemma contains_strip_eq a b s :
  Str.is_space a = false -> Str.is_space b = false ->
  Str.contains (String a (String b EmptyString)) (Str.upper (Str.strip s))
  = Str.contains (String a (String b EmptyString)) (Str.upper s).
Proof.
  intros Ha Hb.
  destruct (Str.contains _ (Str.upper s)) eqn:E.
  - now apply contains_strip.
  - destruct (Str.contains _ (Str.upper (Str.strip s))) eqn:E'; [|reflexivity].
    apply contains_upper_strip in E'. congruence.
Qed.

Lemma bad_name_strip nm : Page.bad_name (Str.strip nm) = Page.bad_name nm.
Proof.
  unfold Page.bad_name.
  now rewrite (@contains_strip_eq "E" "W"), (@contains_strip_eq "N" "S").
Qed.

Lemma lstrip_fixed s :
  match s with
  | EmptyString => True
  | String c _ => Str.is_space c = false
  end -> Str.lstrip s = s.
Proof. destruct s as [|c s]; [reflexivity|]. cbn. now intros ->. Qed.

Lemma rstrip_idem s : Str.rstrip (Str.rstrip s) = Str.rstrip s.
Proof.
  induction s as [|c s IH]; [reflexivity|].
  cbn [Str.rstrip]. destruct (Str.rstrip s) as [|d r] eqn:E.
  - destruct (Str.is_space c) eqn:Hc; [reflexivity|].
    cbn. now rewrite Hc.
  - rewrite rstrip_cons_nonempty by (rewrite IH; discriminate).
    now rewrite IH.
Qed.

Lemma lstrip_head s :
  match Str.lstrip s with
  | EmptyString => True
  | String c _ => Str.is_space c = false
  end.
Proof.
  induction s as [|c s IH]; [exact I|].
  cbn [Str.lstrip]. destruct (Str.is_space c) eqn:E; [exact IH|exact E].
Qed.

Lemma strip_idem s : Str.strip (Str.strip s) = Str.strip s.
Proof.
  unfold Str.strip.
  assert (H : Str.lstrip (Str.rstrip (Str.lstrip s)) = Str.rstrip (Str.lstrip s)).
  { apply lstrip_fixed. pose proof (lstrip_head s) as Hh.
    destruct (Str.lstrip s) as [|c t]; [exact I|].
    destruct (@rstrip_head c t Hh) as [r ->]. exact Hh. }
  rewrite H. apply rstrip_idem.
Qed.

(** ** Which exceptions the solvers raise *)

Section Errors.
Context {F : Type} {AF : Arith F}.

Lemma bad_name_unmarked nm : Page.bad_name nm = unmarked nm.
Proof. reflexivity. Qed.

Lemma py_div_raise (a b : F) e :
  py_div a b = Py.Raise e -> e = Py.ZeroDivisionError /\ is_zero b = true.
Proof.
  unfold py_div. destruct (is_zero b); [|discriminate].
  intros H; inversion H. now split.
Qed.

Lemma py_div_ok (a b r : F) :
  py_div a b = Py.Ok r -> is_zero b = false /\ r = fdiv a b.
Proof.
  unfold py_div. destruct (is_zero b); [discriminate|].
  intros H; inversion H. now split.
Qed.

Lemma modulus_raise (h l : F) e :
  Template.rigidity_modulus h l = Py.Raise e ->
  (e = Py.ZeroDivisionError /\ is_zero l = true) \/
  (e = Py.OverflowError /\ is_zero l = false).
Proof.
  unfold Template.rigidity_modulus.
  destruct (py_div h l) as [q|e0] eqn:E; cbn [Py.bind].
  - apply py_div_ok in E as [E _]. unfold py_pow3.
    destruct (is_finite q && fisinf (fpow3 q)); cbn [Py.bind]; [|discriminate].
    intros H; inversion H. now right.
  - apply py_div_raise in E as [-> E]. intros H; inversion H. now left.
Qed.

(** The classifier fails on a zero [Di] of a marked name, and on an
    unmarked name. *)
Lemma orientation_raise tail nm (Di : F) e :
  Template.orientation tail nm Di = Py.Raise e ->
  (Page.bad_name nm = false /\ is_zero Di = true /\ e = Py.ZeroDivisionError) \/
  (Page.bad_name nm = true /\
   e = Py.ValueError
         ("Wall Name '" ++ nm ++ "' must contain 'EW' or 'NS'" ++ tail)).
Proof.
  unfold Template.orientation, Page.bad_name.
  destruct (Str.contains "EW" (Str.upper nm)) eqn:E1; cbn [negb andb].
  - destruct (py_div fone Di) as [r|e0] eqn:E; cbn [Py.bind]; [discriminate|].
    apply py_div_raise in E as [-> E]. intros H; inversion H. now left.
  - destruct (Str.contains "NS" (Str.upper nm)) eqn:E2; cbn [negb].
    + destruct (py_div fone Di) as [r|e0] eqn:E; cbn [Py.bind]; [discriminate|].
      apply py_div_raise in E as [-> E]. intros H; inversion H. now left.
    + intros H; inversion H. now right.
Qed.

Lemma orientation_ok tail nm (Di : F) R :
  Template.orientation tail nm Di = Py.Ok R ->
  Page.bad_name nm = false /\ is_zero Di = false /\
  ((Str.contains "EW" (Str.upper nm) = true /\ R = (fdiv fone Di, fzero)) \/
   (Str.contains "EW" (Str.upper nm) = false /\ R = (fzero, fdiv fone Di))).
Proof.
  unfold Template.orientation, Page.bad_name.
  destruct (Str.contains "EW" (Str.upper nm)) eqn:E1; cbn [negb andb].
  - destruct (py_div fone Di) as [r|e0] eqn:E; cbn [Py.bind]; [|discriminate].
    apply py_div_ok in E as [E ->]. intros H; inversion H. auto.
  - destruct (Str.contains "NS" (Str.upper nm)) eqn:E2; cbn [negb];
      [|discriminate].
    destruct (py_div fone Di) as [r|e0] eqn:E; cbn [Py.bind]; [|discriminate].
    apply py_div_ok in E as [E ->]. intros H; inversion H. auto.
Qed.

End Errors.

Section Failures.
Context {F : Type} {AF : Arith F}.

Lemma unmarked_strip_eq nm : unmarked (Str.strip nm) = unmarked nm.
Proof. exact (bad_name_strip nm). Qed.

Lemma wall_row_failure tail X Y (w : Wall.t F) e :
  Template.wall_row (Template.orientation tail) X Y w = Py.Raise e ->
  row_failure tail w e.
Proof.
  unfold Template.wall_row, Template._clean_wall_name, row_failure.
  destruct (Template.rigidity_modulus _ _) as [Di|e0] eqn:EM; cbn [Py.bind].
  - destruct (Template.orientation tail _ Di) as [R|e0] eqn:EO; cbn [Py.bind];
      [discriminate|].
    intros H; inversion H; subst e0.
    apply orientation_raise in EO as [(Hb & Hz & ->)|(Hb & ->)];
      rewrite bad_name_strip in Hb.
    + left. split; [reflexivity|]. right. now exists Di.
    + right; right. split; [reflexivity|]. split; [exact Hb|now exists Di].
  - intros H; inversion H; subst e0.
    apply modulus_raise in EM as [[-> Hz]|[He Hz]].
    + left. split; [reflexivity|now left].
    + right; left. split; [exact He|]. now rewrite <- He.
Qed.

Lemma for_each_raise_inv (A B : Type) (f : A -> Py.result B) l e :
  Py.for_each f l = Py.Raise e ->
  exists pre a post bs,
    l = pre ++ a :: post /\ Py.for_each f pre = Py.Ok bs /\ f a = Py.Raise e.
Proof.
  induction l as [|x l IH]; cbn [Py.for_each]; [discriminate|].
  destruct (f x) as [b|e0] eqn:Ex; cbn [Py.bind].
  - destruct (Py.for_each f l) as [bs|e0] eqn:El; cbn [Py.bind]; [discriminate|].
    intros H; inversion H; subst e0.
    destruct (IH eq_refl) as (pre & a & post & bs & -> & Hpre & Ha).
    exists (x :: pre), a, post, (b :: bs). repeat split; [|exact Ha].
    cbn [Py.for_each]. now rewrite Ex, Hpre.
  - intros H; inversion H; subst e0.
    exists [], x, l, []. now repeat split.
Qed.

(** The exceptions of the R1 body. *)
Lemma template_failure tail (inputs : Inputs.t F) walls e :
  Template.compute (Template.orientation tail) inputs walls = Py.Raise e ->
  (walls = [] /\ e = Py.KeyError "Rix") \/
  exists pre w post rows,
    walls = pre ++ w :: post /\
    Template.loop (Template.orientation tail) (Inputs.X_offset inputs)
      (Inputs.Y_offset inputs) pre = Py.Ok rows /\
    row_failure tail w e.
Proof.
  rewrite template_compute_eq.
  destruct (Template.loop _ _ _ walls) as [rows|e0] eqn:E; cbn [Py.bind].
  - destruct rows as [|r rows]; [|discriminate].
    intros H; inversion H. left. split; [|reflexivity].
    apply for_each_length in E. now destruct walls.
  - intros H; inversion H; subst e0. right.
    apply for_each_raise_inv in E as (pre & w & post & rows & -> & Hpre & Hw).
    exists pre, w, post, rows. repeat split; [exact Hpre|].
    now apply wall_row_failure in Hw.
Qed.

Lemma v2_classify_failure X Y (w : Wall.t F) e :
  V2.classify_row (V2.frame_row X Y w) = Py.Raise e -> v2_row_failure w e.
Proof.
  unfold V2.classify_row, V2.frame_row, V2._wall_orientation_factors,
    v2_row_failure.
  destruct (Template.orientation "." _ _) as [R|e0] eqn:EO; cbn [Py.bind];
    [discriminate|].
  intros H; inversion H; subst e0.
  apply orientation_raise in EO as [(Hb & Hz & ->)|(Hb & ->)];
    rewrite bad_name_strip in Hb.
  - left. now repeat split.
  - right. now split.
Qed.

Lemma v2_failure (inputs : Inputs.t F) walls e :
  V2.compute_rigid_diaphragm inputs walls = Py.Raise e ->
  (walls = [] /\ e = Py.ValueError "No walls provided.") \/
  (exists pre w post rows,
     walls = pre ++ w :: post /\
     V2.table (Inputs.X_offset inputs) (Inputs.Y_offset inputs) pre = Py.Ok rows /\
     v2_row_failure w e) \/
  (exists rows,
     V2.table (Inputs.X_offset inputs) (Inputs.Y_offset inputs) walls = Py.Ok rows /\
     is_zero (Template.Jp_of fzero rows) = true /\ e = Py.ZeroDivisionError) \/
  (exists rows,
     walls <> [] /\
     V2.table (Inputs.X_offset inputs) (Inputs.Y_offset inputs) walls = Py.Ok rows /\
     is_zero (Template.Jp_of fzero rows) = false /\
     existsb (@V2.has_w_k F) walls = false /\ e = Py.KeyError "['w_k (kN)'] not in index").
Proof.
  rewrite v2_compute_eq. destruct walls as [|w0 walls].
  { intros H; inversion H. now left. }
  intros H; right; revert H. unfold V2.table at 1. rewrite for_each_map.
  destruct (Py.for_each _ (w0 :: walls)) as [cl|e0] eqn:E; cbn [Py.bind].
  - assert (Ht : V2.table (Inputs.X_offset inputs) (Inputs.Y_offset inputs)
                   (w0 :: walls)
                 = Py.Ok (Sorting.sort_values (@Base.Wall_Name F) cl)).
    { unfold V2.table. rewrite for_each_map, E. reflexivity. }
    destruct (is_zero (Template.Jp_of fzero _)) eqn:HJ.
    + intros H; inversion H. right; left.
      exists (Sorting.sort_values (@Base.Wall_Name F) cl).
      split; [exact Ht|]. split; [exact HJ|reflexivity].
    + destruct (existsb _ _) eqn:Hk; [discriminate|].
      intros H; inversion H. right; right.
      exists (Sorting.sort_values (@Base.Wall_Name F) cl).
      split; [discriminate|].
      split; [exact Ht|]. split; [exact HJ|]. split; reflexivity.
  - intros H; inversion H; subst e0. left.
    apply for_each_raise_inv in E as (pre & w & post & rows & Hw & Hpre & Hf).
    exists pre, w, post, (Sorting.sort_values (@Base.Wall_Name F) rows).
    split; [exact Hw|]. split.
    + unfold V2.table. rewrite for_each_map, Hpre. reflexivity.
    + exact (v2_classify_failure _ _ _ Hf).
Qed.

End Failures.

(** X1.  The R1 script and the R1 app raise in two ways only.  An
    empty wall list gives [KeyError: 'Rix'] (the empty frame has no
    column).  Otherwise the exception comes from the first wall of the
    list whose loop turn fails, and it is a [ZeroDivisionError] (zero
    length, or zero [Di] of a marked wall), an [OverflowError] of the
    cube, or the naming [ValueError]; the table-wide steps raise
    nothing. *)
Theorem r1_exceptions :
  forall (F : Type) (AF : Arith F) (inputs : Inputs.t F)
         (walls : list (Wall.t F)) (e : Py.error),
    R1.compute_rigid_diaphragm inputs [] = Py.Raise (Py.KeyError "Rix") /\
    (R1.compute_rigid_diaphragm inputs walls = Py.Raise e ->
     (walls = [] /\ e = Py.KeyError "Rix") \/
     exists pre w post rows,
       walls = pre ++ w :: post /\
       Template.loop R1._wall_orientation_factors (Inputs.X_offset inputs)
         (Inputs.Y_offset inputs) pre = Py.Ok rows /\
       row_failure " so the script can assign Rix/Riy." w e) /\
    (AppR1.compute_rigid_diaphragm inputs walls = Py.Raise e ->
     (walls = [] /\ e = Py.KeyError "Rix") \/
     exists pre w post rows,
       walls = pre ++ w :: post /\
       Template.loop AppR1._wall_orientation_factors (Inputs.X_offset inputs)
         (Inputs.Y_offset inputs) pre = Py.Ok rows /\
       row_failure "." w e).
Proof.
  intros F AF inputs walls e. split; [reflexivity|]. split.
  - apply template_failure.
  - unfold AppR1.compute_rigid_diaphragm.
    destruct (Template.compute _ inputs walls) as [o|e0] eqn:E; cbn [Py.bind];
      [discriminate|].
    intros H; inversion H; subst e0. now apply template_failure.
Qed.

Lemma r1_exceptions_witness :
  R1.compute_rigid_diaphragm Demo.plan_inputs Demo.zero_height_walls
  = Py.Raise Py.ZeroDivisionError /\
  ((Demo.zero_height_walls = [] /\ Py.ZeroDivisionError = Py.KeyError "Rix") \/
   exists pre w post rows,
     Demo.zero_height_walls = pre ++ w :: post /\
     Template.loop R1._wall_orientation_factors
       (Inputs.X_offset Demo.plan_inputs) (Inputs.Y_offset Demo.plan_inputs) pre
     = Py.Ok rows /\
     row_failure " so the script can assign Rix/Riy." w Py.ZeroDivisionError).
Proof.
  split; [vm_compute; reflexivity|].
  apply (proj1 (proj2 (@r1_exceptions float float_arith Demo.plan_inputs
                         Demo.zero_height_walls Py.ZeroDivisionError))).
  vm_compute; reflexivity.
Defined.

(** X2.  [compute_rigid_diaphragm] of app_v2 raises in four ways only:
    [ValueError: No walls provided.] for an empty list; the exception
    of the first wall the classifier loop fails on, a
    [ZeroDivisionError] for a zero [Di] of a marked wall or the naming
    [ValueError]; [ZeroDivisionError] when [Jp] is zero; and
    [KeyError: 'w_k (kN)'] when no wall has that key.  The cube never
    raises there: [Di] is computed on columns. *)
Theorem v2_exceptions :
  forall (F : Type) (AF : Arith F) (inputs : Inputs.t F)
         (walls : list (Wall.t F)) (e : Py.error),
    V2.compute_rigid_diaphragm inputs [] = Py.Raise (Py.ValueError "No walls provided.") /\
    (V2.compute_rigid_diaphragm inputs walls = Py.Raise e ->
     (e <> Py.OverflowError) /\
     ((walls = [] /\ e = Py.ValueError "No walls provided.") \/
      (exists pre w post rows,
         walls = pre ++ w :: post /\
         V2.table (Inputs.X_offset inputs) (Inputs.Y_offset inputs) pre = Py.Ok rows /\
         v2_row_failure w e) \/
      (exists rows,
         V2.table (Inputs.X_offset inputs) (Inputs.Y_offset inputs) walls = Py.Ok rows /\
         is_zero (Template.Jp_of fzero rows) = true /\ e = Py.ZeroDivisionError) \/
      (exists rows,
         walls <> [] /\
         V2.table (Inputs.X_offset inputs) (Inputs.Y_offset inputs) walls = Py.Ok rows /\
         is_zero (Template.Jp_of fzero rows) = false /\
         existsb (@V2.has_w_k F) walls = false /\ e = Py.KeyError "['w_k (kN)'] not in index"))).
Proof.
  intros F AF inputs walls e. split; [reflexivity|].
  intros H. apply v2_failure in H. split; [|exact H].
  destruct H as [[_ ->]|[(pre & w & post & rows & _ & _ & Hf)|
                 [(rows & _ & _ & ->)|(rows & _ & _ & _ & _ & ->)]]];
    try discriminate.
  destruct Hf as [(-> & _)|(-> & _)]; discriminate.
Qed.

Lemma v2_exceptions_witness :
  V2.compute_rigid_diaphragm Demo.plan_inputs Demo.coincident_walls
  = Py.Raise Py.ZeroDivisionError /\
  Py.ZeroDivisionError <> Py.OverflowError.
Proof.
  split; [vm_compute; reflexivity|].
  apply (proj2 (@v2_exceptions float float_arith Demo.plan_inputs
                  Demo.coincident_walls Py.ZeroDivisionError)).
  vm_compute; reflexivity.
Defined.

(** ** The pages of the two apps *)

Section Pages.
Context {F : Type} {AF : Arith F}.

Lemma filter_nil_Forall (A : Type) (p : A -> bool) l :
  filter p l = [] -> Forall (fun x => p x = false) l.
Proof.
  induction l as [|x l IH]; cbn [filter]; [constructor|].
  destruct (p x) eqn:E; [discriminate|]. intros H. constructor; auto.
Qed.

Lemma for_each_ok (A B : Type) (f : A -> Py.result B) l :
  Forall (fun a => exists b, f a = Py.Ok b) l ->
  exists bs, Py.for_each f l = Py.Ok bs.
Proof.
  induction 1 as [|a l [b Hb] _ [bs Hbs]]; [now exists []|].
  exists (b :: bs). cbn [Py.for_each]. now rewrite Hb, Hbs.
Qed.

Lemma report_error (m : Py.result (list (Row.t F) * Summary.t F)) s e :
  Page.report m = Page.Stop (Page.TextError s e) ->
  m = Py.Raise e /\ e <> Py.ZeroDivisionError.
Proof.
  destruct m as [o|[msg| | |k]]; cbn; intros H; inversion H; subst;
    (split; [reflexivity|discriminate]).
Qed.

Lemma report_text (m : Py.result (list (Row.t F) * Summary.t F)) s :
  Page.report m = Page.Stop (Page.Text s) ->
  m = Py.Raise Py.ZeroDivisionError /\ s = Page.Jp_zero_text.
Proof.
  destruct m as [o|[msg| | |k]]; cbn; intros H; inversion H; subst.
  now split.
Qed.

Lemma report_show (m : Py.result (list (Row.t F) * Summary.t F)) df sm :
  Page.report m = Page.Show df sm -> m = Py.Ok (df, sm).
Proof.
  destruct m as [[d s]|[msg| | |k]]; cbn; intros H; inversion H; subst.
  reflexivity.
Qed.

Lemma report_names (m : Py.result (list (Row.t F) * Summary.t F)) s bad :
  Page.report m <> Page.Stop (Page.TextNames s bad).
Proof. destruct m as [o|[msg| | |k]]; cbn; discriminate. Qed.

(** The R1 page calls the solver on a non-empty list of marked walls,
    or not at all. *)
Lemma appr1_on_run_cases (inputs : Inputs.t F) walls_df :
  let walls := map Page.to_dict (AppR1.kept walls_df) in
  (walls = [] /\
   AppR1.on_run inputs walls_df
   = Page.Stop (Page.Text "Please add at least one wall.")) \/
  (walls <> [] /\
   (exists nm bad,
      filter (fun w => Page.bad_name (Wall.Wall_Name w)) walls <> [] /\
      AppR1.on_run inputs walls_df
      = Page.Stop (Page.TextNames Page.bad_names_text (nm :: bad)))) \/
  (walls <> [] /\
   Forall (fun w => unmarked (Wall.Wall_Name w) = false) walls /\
   AppR1.on_run inputs walls_df
   = Page.report (AppR1.compute_rigid_diaphragm inputs walls)).
Proof.
  intros walls. unfold AppR1.on_run. fold walls.
  destruct (AppR1.kept walls_df) as [|r rs] eqn:Ek.
  { left. now split. }
  right. cbn [List.length Nat.eqb].
  assert (Hne : walls <> []) by (unfold walls; discriminate).
  destruct (filter _ walls) as [|w0 bad] eqn:Eb; cbn [map].
  - right. split; [exact Hne|]. split; [|reflexivity].
    now apply filter_nil_Forall in Eb.
  - left. split; [exact Hne|]. eexists _, _. split; [discriminate|reflexivity].
Qed.

Lemma appr1_marked_failure (inputs : Inputs.t F) walls e :
  walls <> [] ->
  Forall (fun w => unmarked (Wall.Wall_Name w) = false) walls ->
  AppR1.compute_rigid_diaphragm inputs walls = Py.Raise e ->
  exists w, In w walls /\
    ((e = Py.ZeroDivisionError /\
      (is_zero (Wall.Length_m w) = true \/
       exists Di,
         Template.rigidity_modulus (Wall.Height_m w) (Wall.Length_m w) = Py.Ok Di /\
         is_zero Di = true)) \/
     (e = Py.OverflowError /\
      Template.rigidity_modulus (Wall.Height_m w) (Wall.Length_m w)
      = Py.Raise Py.OverflowError)).
Proof.
  intros Hne Hm. unfold AppR1.compute_rigid_diaphragm.
  destruct (Template.compute _ inputs walls) as [o|e0] eqn:E; cbn [Py.bind];
    [discriminate|].
  intros H; inversion H; subst e0.
  apply template_failure in E as [[-> _]|(pre & w & post & rows & -> & _ & Hf)];
    [contradiction|].
  exists w. split; [apply in_elt|].
  rewrite Forall_forall in Hm. specialize (Hm w (in_elt _ _ _)).
  destruct Hf as [(-> & Hz)|[(-> & Ho)|(_ & Hu & _)]].
  - left. split; [reflexivity|]. destruct Hz as [Hz|(Di & HD & Hz & _)];
      [now left|right; now exists Di].
  - right. now split.
  - congruence.
Qed.

Lemma wall_row_ok tail X Y (w : Wall.t F) Di :
  unmarked (Wall.Wall_Name w) = false ->
  Template.rigidity_modulus (Wall.Height_m w) (Wall.Length_m w) = Py.Ok Di ->
  is_zero Di = false ->
  exists r, Template.wall_row (Template.orientation tail) X Y w = Py.Ok r.
Proof.
  intros Hu HD Hz. unfold Template.wall_row, Template._clean_wall_name.
  rewrite HD. cbn [Py.bind].
  rewrite <- unmarked_strip_eq in Hu. unfold unmarked in Hu.
  unfold Template.orientation, py_div. rewrite Hz.
  destruct (Str.contains "EW" _); cbn [Py.bind]; [eexists; reflexivity|].
  destruct (Str.contains "NS" _); cbn [Py.bind]; [eexists; reflexivity|].
  discriminate Hu.
Qed.

Lemma appr1_sound_walls (inputs : Inputs.t F) walls :
  walls <> [] ->
  Forall (fun w => unmarked (Wall.Wall_Name w) = false) walls ->
  Forall (fun w => exists Di,
            Template.rigidity_modulus (Wall.Height_m w) (Wall.Length_m w)
            = Py.Ok Di /\ is_zero Di = false) walls ->
  exists out, AppR1.compute_rigid_diaphragm inputs walls = Py.Ok out.
Proof.
  intros Hne Hm Hg.
  assert (H : Forall (fun w => exists r,
                Template.wall_row AppR1._wall_orientation_factors
                  (Inputs.X_offset inputs) (Inputs.Y_offset inputs) w = Py.Ok r)
                walls).
  { rewrite Forall_forall in *. intros w Hw.
    destruct (Hg w Hw) as (Di & HD & Hz).
    eapply wall_row_ok; [now apply Hm|exact HD|exact Hz]. }
  apply for_each_ok in H as [rows Hrows].
  unfold AppR1.compute_rigid_diaphragm. rewrite template_compute_eq.
  unfold Template.loop. rewrite Hrows. cbn [Py.bind].
  apply for_each_length in Hrows.
  destruct rows as [|r rows]; [now destruct walls|].
  cbn [Py.bind]. eexists; reflexivity.
Qed.

(** The v2 page calls the solver on a list of marked walls, or not at
    all. *)
Lemma v2_on_run_cases (inputs : Inputs.t F) walls_df :
  let walls := map Page.to_dict (V2.kept walls_df) in
  (exists nm bad,
     V2.on_run inputs walls_df
     = Page.Stop (Page.TextNames Page.bad_names_text (nm :: bad))) \/
  (Forall (fun w => unmarked (Wall.Wall_Name w) = false) walls /\
   V2.on_run inputs walls_df
   = Page.report (V2.compute_rigid_diaphragm inputs walls)).
Proof.
  intros walls. unfold V2.on_run.
  destruct (filter Page.bad_name _) as [|nm bad] eqn:Eb.
  - right. split; [|reflexivity].
    apply filter_nil_Forall in Eb. unfold walls.
    rewrite Forall_map in Eb |- *. exact Eb.
  - left. now exists nm, bad.
Qed.

Lemma to_dict_has_w_k (rs : list (Editor.t F)) :
  rs <> [] -> existsb (@V2.has_w_k F) (map Page.to_dict rs) = true.
Proof. destruct rs as [|r rs]; [contradiction|reflexivity]. Qed.

End Pages.

(** X3.  On the page of the R1 app the solver's naming [ValueError] and
    its [KeyError] for an empty table cannot occur: rows whose name is
    blank are dropped, an empty table is reported as such, and names
    without a marker are listed before the solver is called.  The
    [Error: ...] text can only carry an [OverflowError], and a table is
    shown only when the solver returned it for the kept rows. *)
Theorem app_r1_page_guards :
  forall (F : Type) (AF : Arith F) (inputs : Inputs.t F)
         (walls_df : list (Editor.t F)),
    let walls := map Page.to_dict (AppR1.kept walls_df) in
    (walls = [] ->
     AppR1.on_run inputs walls_df
     = Page.Stop (Page.Text "Please add at least one wall.")) /\
    (forall s e,
       AppR1.on_run inputs walls_df = Page.Stop (Page.TextError s e) ->
       e = Py.OverflowError) /\
    (forall df sm,
       AppR1.on_run inputs walls_df = Page.Show df sm ->
       walls <> [] /\
       Forall (fun w => unmarked (Wall.Wall_Name w) = false) walls /\
       AppR1.compute_rigid_diaphragm inputs walls = Py.Ok (df, sm)).
Proof.
  intros F AF inputs walls_df walls.
  destruct (appr1_on_run_cases inputs walls_df)
    as [[He Hr]|[(Hne & nm & bad & _ & Hr)|(Hne & Hm & Hr)]];
    fold walls in He || fold walls in Hne; rewrite Hr.
  - split; [reflexivity|]. split; [discriminate|discriminate].
  - split; [contradiction|]. split; [discriminate|discriminate].
  - split; [contradiction|]. split.
    + intros s e H. apply report_error in H as [H Hz].
      destruct (appr1_marked_failure inputs Hne Hm H)
        as (w & _ & [(-> & _)|(-> & _)]); [contradiction|reflexivity].
    + intros df sm H. apply report_show in H. now repeat split.
Qed.

Lemma app_r1_page_guards_witness :
  AppR1.on_run Demo.plan_inputs PageDemo.slender_rows
  = Page.Stop (Page.TextError "Error: " Py.OverflowError) /\
  Py.OverflowError = Py.OverflowError.
Proof.
  split; [vm_compute; reflexivity|].
  apply (proj1 (proj2 (@app_r1_page_guards float float_arith Demo.plan_inputs
                         PageDemo.slender_rows)) "Error: "%string).
  vm_compute; reflexivity.
Defined.

(** X4.  On the page of the R1 app the text "Jp became zero ..." does
    not report a zero [Jp].  It is shown when a kept wall has zero
    length or a zero [Di] (then [Jp] was never computed); and whenever
    every kept wall is marked and has a [Di] other than zero, the page
    shows the table the solver returned, whatever the value of [Jp]. *)
Theorem app_r1_page_jp_text :
  forall (F : Type) (AF : Arith F) (inputs : Inputs.t F)
         (walls_df : list (Editor.t F)),
    let walls := map Page.to_dict (AppR1.kept walls_df) in
    (AppR1.on_run inputs walls_df = Page.Stop (Page.Text Page.Jp_zero_text) ->
     exists w, In w walls /\
       (is_zero (Wall.Length_m w) = true \/
        exists Di,
          Template.rigidity_modulus (Wall.Height_m w) (Wall.Length_m w)
          = Py.Ok Di /\ is_zero Di = true)) /\
    (walls <> [] ->
     Forall (fun w => unmarked (Wall.Wall_Name w) = false) walls ->
     Forall (fun w => exists Di,
               Template.rigidity_modulus (Wall.Height_m w) (Wall.Length_m w)
               = Py.Ok Di /\ is_zero Di = false) walls ->
     exists df sm,
       AppR1.on_run inputs walls_df = Page.Show df sm /\
       AppR1.compute_rigid_diaphragm inputs walls = Py.Ok (df, sm)).
Proof.
  intros F AF inputs walls_df walls. split.
  - destruct (appr1_on_run_cases inputs walls_df)
      as [[He Hr]|[(Hne & nm & bad & _ & Hr)|(Hne & Hm & Hr)]];
      rewrite Hr; try discriminate.
    intros H. apply report_text in H as [H _].
    destruct (appr1_marked_failure inputs Hne Hm H)
      as (w & Hw & [(_ & Hz)|(Hx & _)]); [|discriminate].
    exists w. now split.
  - intros Hne Hm Hg.
    destruct (appr1_sound_walls inputs Hne Hm Hg) as [[df sm] Ho].
    exists df, sm. split; [|exact Ho].
    destruct (appr1_on_run_cases inputs walls_df)
      as [[He Hr]|[(_ & nm & bad & Hb & Hr)|(_ & _ & Hr)]].
    + contradiction.
    + exfalso. apply Hb. fold walls.
      clear - Hm. induction Hm as [|w l Hw _ IH]; [reflexivity|].
      cbn [filter]. rewrite bad_name_unmarked, Hw. exact IH.
    + rewrite Hr. fold walls. now rewrite Ho.
Qed.

Lemma app_r1_page_jp_text_witness :
  (AppR1.on_run Demo.plan_inputs PageDemo.zero_length_rows
   = Page.Stop (Page.Text Page.Jp_zero_text) /\
   exists w, In w (map Page.to_dict (AppR1.kept PageDemo.zero_length_rows)) /\
     (is_zero (Wall.Length_m w) = true \/
      exists Di,
        Template.rigidity_modulus (Wall.Height_m w) (Wall.Length_m w)
        = Py.Ok Di /\ is_zero Di = true)) /\
  exists df sm,
    AppR1.on_run Demo.plan_inputs PageDemo.coincident_rows = Page.Show df sm /\
    Summary.Jp sm = 0%float.
Proof.
  split.
  - split; [vm_compute; reflexivity|].
    apply (proj1 (@app_r1_page_jp_text float float_arith Demo.plan_inputs
                    PageDemo.zero_length_rows)).
    vm_compute; reflexivity.
  - destruct (proj2 (@app_r1_page_jp_text float float_arith Demo.plan_inputs
                       PageDemo.coincident_rows)) as (df & sm & Hs & Hc).
    + discriminate.
    + repeat constructor.
    + repeat constructor; eexists; (split; [vm_compute; reflexivity|reflexivity]).
    + exists df, sm. split; [exact Hs|].
      vm_compute in Hc. now inversion Hc.
Defined.

(** X5.  On the page of app_v2 rows whose name is blank are dropped and
    names without a marker are listed before the solver is called, so
    the naming [ValueError] and the [KeyError] of the solver cannot
    occur.  The [Error: ...] text can only carry [No walls provided.],
    for a table without kept rows.  The text "Jp became zero ..." is
    shown when a kept wall has a zero [Di] or when [Jp] is zero, and a
    table that is shown has a [Jp] other than zero. *)
Theorem v2_page_outcomes :
  forall (F : Type) (AF : Arith F) (inputs : Inputs.t F)
         (walls_df : list (Editor.t F)),
    let walls := map Page.to_dict (V2.kept walls_df) in
    (forall s e,
       V2.on_run inputs walls_df = Page.Stop (Page.TextError s e) ->
       walls = [] /\ e = Py.ValueError "No walls provided.") /\
    (forall s,
       V2.on_run inputs walls_df = Page.Stop (Page.Text s) ->
       s = Page.Jp_zero_text /\
       ((exists w, In w walls /\
           is_zero (Template.rigidity_modulus_np (Wall.Height_m w)
                      (Wall.Length_m w)) = true) \/
        (exists rows,
           V2.table (Inputs.X_offset inputs) (Inputs.Y_offset inputs) walls
           = Py.Ok rows /\
           is_zero (Template.Jp_of fzero rows) = true))) /\
    (forall df sm,
       V2.on_run inputs walls_df = Page.Show df sm ->
       V2.compute_rigid_diaphragm inputs walls = Py.Ok (df, sm) /\
       is_zero (Summary.Jp sm) = false).
Proof.
  intros F AF inputs walls_df walls.
  destruct (v2_on_run_cases inputs walls_df) as [(nm & bad & Hr)|[Hm Hr]];
    rewrite Hr.
  { split; [discriminate|]. split; discriminate. }
  fold walls in Hm |- *.
  assert (Hcases : forall e,
            V2.compute_rigid_diaphragm inputs walls = Py.Raise e ->
            (walls = [] /\ e = Py.ValueError "No walls provided.") \/
            (e = Py.ZeroDivisionError /\
             ((exists w, In w walls /\
                 is_zero (Template.rigidity_modulus_np (Wall.Height_m w)
                            (Wall.Length_m w)) = true) \/
              (exists rows,
                 V2.table (Inputs.X_offset inputs) (Inputs.Y_offset inputs) walls
                 = Py.Ok rows /\
                 is_zero (Template.Jp_of fzero rows) = true)))).
  { intros e H. apply v2_failure in H
      as [H|[(pre & w & post & rows & Hw & _ & Hf)|
             [(rows & Ht & HJ & ->)|(rows & Hne & _ & _ & Hk & _)]]].
    - now left.
    - right. rewrite Forall_forall in Hm.
      assert (Hin : In w walls) by (rewrite Hw; apply in_elt).
      destruct Hf as [(-> & _ & Hz)|(_ & Hu)].
      + split; [reflexivity|]. left. now exists w.
      + rewrite (Hm w Hin) in Hu. discriminate Hu.
    - right. split; [reflexivity|]. right. now exists rows.
    - exfalso. unfold walls in Hk, Hne.
      rewrite to_dict_has_w_k in Hk; [discriminate Hk|].
      intros E. apply Hne. now rewrite E. }
  split; [|split].
  - intros s e H. apply report_error in H as [H Hz].
    destruct (Hcases e H) as [He|[He _]]; [exact He|contradiction].
  - intros s H. apply report_text in H as [H ->]. split; [reflexivity|].
    destruct (Hcases _ H) as [[_ He]|[_ Hc]]; [discriminate He|exact Hc].
  - intros df sm H. apply report_show in H. split; [exact H|].
    apply v2_compute_ok in H as (rows & _ & HJ & Ho).
    apply (f_equal snd) in Ho. cbn [snd] in Ho. now rewrite Ho.
Qed.

Lemma v2_page_outcomes_witness :
  V2.on_run Demo.plan_inputs PageDemo.blank_rows
  = Page.Stop (Page.TextError "Error: " (Py.ValueError "No walls provided.")) /\
  (map Page.to_dict (V2.kept PageDemo.blank_rows) = [] /\
   Py.ValueError "No walls provided." = Py.ValueError "No walls provided.") /\
  V2.on_run Demo.plan_inputs PageDemo.coincident_rows
  = Page.Stop (Page.Text Page.Jp_zero_text).
Proof.
  split; [vm_compute; reflexivity|]. split.
  - apply (proj1 (@v2_page_outcomes float float_arith Demo.plan_inputs
                    PageDemo.blank_rows) "Error: "%string).
    vm_compute; reflexivity.
  - vm_compute; reflexivity.
Defined.

(** ** The row order of the two apps *)

Lemma string_compare_refl s : String.compare s s = Eq.
Proof.
  induction s as [|c s IH]; [reflexivity|].
  cbn [String.compare]. unfold Ascii.compare. now rewrite N.compare_refl.
Qed.

Lemma string_leb_refl s : String.leb s s = true.
Proof. unfold String.leb. now rewrite string_compare_refl. Qed.

Lemma string_leb_trans a b c :
  String.leb a b = true -> String.leb b c = true -> String.leb a c = true.
Proof.
  unfold String.leb. revert b c.
  induction a as [|x a IH]; intros [|y b] [|z c]; cbn [String.compare];
    try reflexivity; try discriminate.
  unfold Ascii.compare. specialize (IH b c).
  destruct (N.compare_spec (N_of_ascii x) (N_of_ascii y)) as [Exy|Exy|Exy];
    destruct (N.compare_spec (N_of_ascii y) (N_of_ascii z)) as [Eyz|Eyz|Eyz];
    destruct (N.compare_spec (N_of_ascii x) (N_of_ascii z)) as [Exz|Exz|Exz];
    try reflexivity; try discriminate; try lia; try exact IH.
Qed.

Lemma key_le_refl a : Sorting.key_le a a = true.
Proof.
  unfold Sorting.key_le. rewrite Nat.eqb_refl, string_leb_refl.
  apply orb_true_r.
Qed.

Lemma key_le_total a b : Sorting.key_le a b = false -> Sorting.key_le b a = true.
Proof.
  unfold Sorting.key_le. intros H.
  apply orb_false_iff in H as [H1 H2]. apply Nat.ltb_ge in H1.
  destruct (Sorting._dir_order b <? Sorting._dir_order a) eqn:E; [reflexivity|].
  apply Nat.ltb_ge in E.
  assert (Ed : Sorting._dir_order a = Sorting._dir_order b) by lia.
  rewrite Ed, Nat.eqb_refl in *. cbn [andb orb] in *.
  destruct (String.leb_total a b) as [H|H]; [congruence|exact H].
Qed.

Lemma key_le_trans a b c :
  Sorting.key_le a b = true -> Sorting.key_le b c = true ->
  Sorting.key_le a c = true.
Proof.
  unfold Sorting.key_le. intros H1 H2.
  apply orb_true_iff in H1 as [H1|H1], H2 as [H2|H2].
  - apply Nat.ltb_lt in H1, H2. apply orb_true_iff; left.
    apply Nat.ltb_lt. lia.
  - apply andb_true_iff in H2 as [H2 _]. apply Nat.eqb_eq in H2.
    rewrite <- H2, H1. reflexivity.
  - apply andb_true_iff in H1 as [H1 _]. apply Nat.eqb_eq in H1.
    rewrite H1, H2. reflexivity.
  - apply andb_true_iff in H1 as [H1 L1], H2 as [H2 L2].
    apply Nat.eqb_eq in H1, H2. rewrite H1, H2, Nat.eqb_refl.
    rewrite (string_leb_trans _ _ _ L1 L2). apply orb_true_r.
Qed.

Section SortFacts.
Context {A : Type} (name : A -> string).

Lemma insert_sorted x l :
  StronglySorted (comes_before name) l -> StronglySorted (comes_before name) (Sorting.insert name x l).
Proof.
  induction 1 as [|y l Hs IH Hy]; cbn [Sorting.insert].
  - repeat constructor.
  - destruct (Sorting.key_le (name x) (name y)) eqn:E.
    + constructor; [now constructor|].
      constructor; [exact E|].
      eapply Forall_impl; [|exact Hy]. intros z Hz.
      unfold comes_before in *. eapply key_le_trans; [exact E|exact Hz].
    + constructor; [exact IH|].
      eapply Permutation_Forall; [symmetry; apply insert_perm|].
      constructor; [|exact Hy]. now apply key_le_total.
Qed.

Lemma sort_values_sorted l : StronglySorted (comes_before name) (Sorting.sort_values name l).
Proof.
  induction l as [|x l IH]; [constructor|].
  cbn [Sorting.sort_values fold_right]. now apply insert_sorted.
Qed.

Lemma sorted_names l :
  StronglySorted (comes_before name) l ->
  StronglySorted (comes_before (fun nm => nm)) (map name l).
Proof.
  induction 1 as [|y l Hs IH Hy]; cbn [map]; constructor; [exact IH|].
  apply Forall_map. exact Hy.
Qed.

(** Sorting a sorted table changes nothing. *)
Lemma insert_head x l :
  Forall (comes_before name x) l -> Sorting.insert name x l = x :: l.
Proof.
  destruct l as [|y l]; [reflexivity|]. intros H. cbn [Sorting.insert].
  apply Forall_inv in H. unfold comes_before in H. now rewrite H.
Qed.

Lemma sort_values_fixed l :
  StronglySorted (comes_before name) l -> Sorting.sort_values name l = l.
Proof.
  induction 1 as [|y l Hs IH Hy]; [reflexivity|].
  cbn [Sorting.sort_values fold_right].
  change (fold_right (Sorting.insert name) [] l) with (Sorting.sort_values name l).
  rewrite IH. now apply insert_head.
Qed.

(** The rows of one name keep the order they had. *)
Lemma insert_filter nm x l :
  filter (fun r => String.eqb (name r) nm) (Sorting.insert name x l)
  = filter (fun r => String.eqb (name r) nm) (x :: l).
Proof.
  induction l as [|y l IH]; [reflexivity|].
  cbn [Sorting.insert].
  destruct (Sorting.key_le (name x) (name y)) eqn:E; [reflexivity|].
  cbn [filter] in *. rewrite IH.
  destruct (String.eqb (name x) nm) eqn:Ex; [|reflexivity].
  destruct (String.eqb (name y) nm) eqn:Ey; [|reflexivity].
  apply String.eqb_eq in Ex, Ey. rewrite Ex, Ey, key_le_refl in E.
  discriminate E.
Qed.

Lemma sort_values_filter nm l :
  filter (fun r => String.eqb (name r) nm) (Sorting.sort_values name l)
  = filter (fun r => String.eqb (name r) nm) l.
Proof.
  induction l as [|x l IH]; [reflexivity|].
  cbn [Sorting.sort_values fold_right].
  change (fold_right (Sorting.insert name) [] l) with (Sorting.sort_values name l).
  rewrite insert_filter. cbn [filter]. now rewrite IH.
Qed.

End SortFacts.

Lemma sorted_map (A B : Type) (f : A -> B) (nb : B -> string) l :
  StronglySorted (comes_before (fun a => nb (f a))) l ->
  StronglySorted (comes_before nb) (map f l).
Proof.
  induction 1 as [|y l Hs IH Hy]; cbn [map]; constructor; [exact IH|].
  apply Forall_map. exact Hy.
Qed.

Section ScriptAndApp.
Context {F : Type} {AF : Arith F}.

(** The wording of the naming error aside, the copies of the
    classifier are one function. *)
Lemma orientation_tail t1 t2 nm (Di : F) R :
  Template.orientation t1 nm Di = Py.Ok R ->
  Template.orientation t2 nm Di = Py.Ok R.
Proof.
  unfold Template.orientation.
  destruct (Str.contains "EW" _); [trivial|].
  destruct (Str.contains "NS" _); [trivial|discriminate].
Qed.

Lemma wall_row_tail t1 t2 X Y (w : Wall.t F) r :
  Template.wall_row (Template.orientation t1) X Y w = Py.Ok r ->
  Template.wall_row (Template.orientation t2) X Y w = Py.Ok r.
Proof.
  unfold Template.wall_row.
  destruct (Template.rigidity_modulus _ _) as [Di|e]; cbn [Py.bind]; [|trivial].
  destruct (Template.orientation t1 _ Di) as [R|e] eqn:E; cbn [Py.bind];
    [|discriminate].
  now rewrite (@orientation_tail t1 t2 _ _ _ E).
Qed.

Lemma for_each_ext_ok (A B : Type) (f g : A -> Py.result B) l bs :
  (forall a b, f a = Py.Ok b -> g a = Py.Ok b) ->
  Py.for_each f l = Py.Ok bs -> Py.for_each g l = Py.Ok bs.
Proof.
  intros Hfg. revert bs. induction l as [|a l IH]; intros bs; [trivial|].
  cbn [Py.for_each].
  destruct (f a) as [b|e] eqn:Ea; cbn [Py.bind]; [|discriminate].
  rewrite (Hfg _ _ Ea). cbn [Py.bind].
  destruct (Py.for_each f l) as [bs'|e]; cbn [Py.bind]; [|discriminate].
  now rewrite (IH bs' eq_refl).
Qed.

Lemma template_tail t1 t2 (inputs : Inputs.t F) walls out :
  Template.compute (Template.orientation t1) inputs walls = Py.Ok out ->
  Template.compute (Template.orientation t2) inputs walls = Py.Ok out.
Proof.
  rewrite !template_compute_eq. unfold Template.loop.
  destruct (Py.for_each _ walls) as [rows|e] eqn:E; cbn [Py.bind]; [|discriminate].
  rewrite (for_each_ext_ok _ (Template.wall_row (Template.orientation t2)
                                (Inputs.X_offset inputs) (Inputs.Y_offset inputs))
             walls (fun a b => @wall_row_tail t1 t2 _ _ a b) E).
  trivial.
Qed.

Lemma template_tail_raises t1 t2 (inputs : Inputs.t F) walls :
  Py.raises (Template.compute (Template.orientation t1) inputs walls) ->
  Py.raises (Template.compute (Template.orientation t2) inputs walls).
Proof.
  intros [e He].
  destruct (Template.compute (Template.orientation t2) inputs walls)
    as [out|e2] eqn:E; [|now exists e2].
  apply (@template_tail t2 t1) in E. congruence.
Qed.

End ScriptAndApp.

(** X6.  The tables of the two apps come out ordered by direction, then
    by name: rows whose name contains "EW" first, then rows whose name
    contains "NS", each group in ascending order of the names. *)
Theorem app_tables_sorted :
  forall (F : Type) (AF : Arith F) (inputs : Inputs.t F)
         (walls : list (Wall.t F)) (out : list (Row.t F) * Summary.t F),
    (AppR1.compute_rigid_diaphragm inputs walls = Py.Ok out ->
     StronglySorted (comes_before (@Row.Wall_Name F)) (fst out)) /\
    (V2.compute_rigid_diaphragm inputs walls = Py.Ok out ->
     StronglySorted (comes_before (@Row.Wall_Name F)) (fst out)).
Proof.
  intros F AF inputs walls out. split; intros H.
  - apply appr1_compute_ok in H as (o & _ & ->). cbn [fst].
    apply sort_values_sorted.
  - apply v2_compute_ok in H as (rows & Ht & _ & ->).
    unfold V2.table in Ht.
    destruct (Py.for_each _ _) as [cl|e]; cbn [Py.bind] in Ht; [|discriminate].
    apply Ok_inj in Ht. subst rows.
    unfold Template.finish; cbn [fst].
    apply sorted_map. exact (sort_values_sorted (@Base.Wall_Name F) cl).
Qed.

Lemma app_tables_sorted_witness :
  exists out,
    AppR1.compute_rigid_diaphragm Demo.plan_inputs
      (rev Demo.plan_walls) = Py.Ok out /\
    map (@Row.Wall_Name float) (fst out)
    = ["EW1"; "EW2"; "NS1"; "NS2"]%string /\
    StronglySorted (comes_before (@Row.Wall_Name float)) (fst out).
Proof.
  eexists. split; [vm_compute; reflexivity|]. split; [reflexivity|].
  apply (proj1 (@app_tables_sorted float float_arith Demo.plan_inputs
                  (rev Demo.plan_walls) _)).
  vm_compute; reflexivity.
Defined.

(** X7.  The R1 app returns what the R1 script returns, reordered: the
    same summary and the same rows, as a permutation in which the rows
    of one name keep their order.  One of them raises exactly when the
    other does. *)
Theorem app_r1_is_script_reordered :
  forall (F : Type) (AF : Arith F) (inputs : Inputs.t F)
         (walls : list (Wall.t F)),
    (forall out,
       AppR1.compute_rigid_diaphragm inputs walls = Py.Ok out ->
       exists df,
         R1.compute_rigid_diaphragm inputs walls = Py.Ok (df, snd out) /\
         Permutation df (fst out) /\
         forall nm,
           filter (fun r => String.eqb (Row.Wall_Name r) nm) (fst out)
           = filter (fun r => String.eqb (Row.Wall_Name r) nm) df) /\
    (forall out,
       R1.compute_rigid_diaphragm inputs walls = Py.Ok out ->
       exists df,
         AppR1.compute_rigid_diaphragm inputs walls = Py.Ok (df, snd out) /\
         Permutation (fst out) df) /\
    (Py.raises (R1.compute_rigid_diaphragm inputs walls) <->
     Py.raises (AppR1.compute_rigid_diaphragm inputs walls)).
Proof.
  intros F AF inputs walls. split; [|split].
  - intros out H. apply appr1_compute_ok in H as ([df sm] & H & ->).
    exists df. cbn [fst snd]. split; [|split].
    + exact (@template_tail F AF "." " so the script can assign Rix/Riy." _ _ _ H).
    + symmetry. apply sort_values_perm.
    + intros nm. apply sort_values_filter.
  - intros [df sm] H.
    exists (Sorting.sort_values (@Row.Wall_Name F) df). cbn [fst snd]. split.
    + unfold AppR1.compute_rigid_diaphragm, AppR1._wall_orientation_factors.
      rewrite (@template_tail F AF " so the script can assign Rix/Riy." "." _ _ _ H).
      reflexivity.
    + symmetry. apply sort_values_perm.
  - split.
    + intros H. apply appr1_raises.
      exact (@template_tail_raises F AF " so the script can assign Rix/Riy." "." _ _ H).
    + intros [e He]. unfold AppR1.compute_rigid_diaphragm in He.
      destruct (Template.compute AppR1._wall_orientation_factors inputs walls)
        as [o|e0] eqn:E; cbn [Py.bind] in He; [discriminate|].
      apply (@template_tail_raises F AF "." " so the script can assign Rix/Riy.").
      now exists e0.
Qed.

Lemma app_r1_is_script_reordered_witness :
  exists out df,
    AppR1.compute_rigid_diaphragm Demo.plan_inputs (rev Demo.plan_walls)
    = Py.Ok out /\
    R1.compute_rigid_diaphragm Demo.plan_inputs (rev Demo.plan_walls)
    = Py.Ok (df, snd out) /\
    Permutation df (fst out).
Proof.
  destruct (proj1 (@app_r1_is_script_reordered float float_arith
                     Demo.plan_inputs (rev Demo.plan_walls))
              (match AppR1.compute_rigid_diaphragm Demo.plan_inputs
                       (rev Demo.plan_walls) with
               | Py.Ok o => o
               | Py.Raise _ => ([], Summary.mk 0 0 0 0 0 0 0 0 0 0 0 0 0 0 0 0 0 None)%float
               end))
    as (df & H1 & H2 & _).
  - vm_compute; reflexivity.
  - eexists _, df. split; [vm_compute; reflexivity|]. split; [exact H1|exact H2].
Defined.

(** ** Exact arithmetic: the torsional shears are a pure couple *)

Module Balance.

Local Open Scope Qc_scope.























End Balance.



(** ** The streamlit solver without weights *)

#[export] Instance float_nan_laws : @NanLaws float float_arith.
Proof.
  constructor.
  - reflexivity.
  - intros x. cbn. apply Prim2SF_inj.
    rewrite add_spec, FloatLaws.SF_nan. now destruct (Prim2SF x).
Qed.

#[export] Instance xreal_nan_laws : @NanLaws xreal xreal_arith.
Proof.
  constructor.
  - reflexivity.
  - intros [q|s|]; reflexivity.
Qed.

Section WeightlessFacts.
Context {F : Type} {AF : Arith F} {LF : @ArithLaws F AF} {NF : @NanLaws F AF}.

Lemma fold_add_zeros (l : list F) (a : F) :
  is_zero a = true -> Forall (fun x => is_zero x = true) l ->
  is_zero (fold_left fadd l a) = true.
Proof.
  intros Ha H. revert a Ha. induction H as [|x l Hx _ IH]; intros a Ha; [exact Ha|].
  cbn [fold_left]. apply IH. now apply fadd_zero.
Qed.

Lemma series_sum_no_weight (l : list F) :
  Forall no_weight l -> is_zero (series_sum l) = true.
Proof.
  intros H. unfold series_sum. apply fold_add_zeros; [apply feqb_zero_zero|].
  apply Forall_map. eapply Forall_impl; [|exact H].
  intros x [Hx|Hx].
  - rewrite Hx. apply feqb_zero_zero.
  - destruct (is_nan x); [apply feqb_zero_zero|exact Hx].
Qed.

Lemma fillna0_no_weight (v : F) : no_weight v -> is_zero (Streamlit.fillna0 v) = true.
Proof.
  unfold Streamlit.fillna0. intros [H|H].
  - rewrite H. apply feqb_zero_zero.
  - destruct (is_nan v); [apply feqb_zero_zero|exact H].
Qed.

Lemma ecc_nan_l (r : F) : Streamlit.ecc fnan r = fnan.
Proof. unfold Streamlit.ecc. now rewrite is_nan_nan. Qed.

Lemma out_row_nan_ecc Vx Vy xr yr sE sN exa eya Jp (r : Streamlit.Pre.t F) :
  streamlit_nan_shear
    (Streamlit.out_row Vx Vy xr yr sE sN fnan fnan exa eya Jp r).
Proof.
  unfold streamlit_nan_shear, Streamlit.out_row.
  cbn [Streamlit.Out.RealTor_X Streamlit.Out.RealTor_Y Streamlit.Out.V_X
       Streamlit.Out.V_Y].
  rewrite !fmul_nan_l, !fdiv_nan_l.
  destruct (neq0 Jp); rewrite !fmul_nan_r, !fadd_nan_r, !fadd_nan_l;
    repeat split.
Qed.

End WeightlessFacts.

(** X9.  In the streamlit solver the mass centre is a quotient by the
    total weight.  When no weight is given - every wall weight blank or
    zero, the diaphragm weight blank or zero - the total weight is zero;
    and whenever the total weight is zero the mass centre and the real
    eccentricities are NaN, and with them the real-torsion shear and
    the total shear of every wall, in both directions. *)
Theorem streamlit_without_weights :
  forall (F : Type) (AF : Arith F) (LF : @ArithLaws F AF) (NF : @NanLaws F AF)
         (walls : list (Streamlit.WallIn.t F)) (inputs : Streamlit.In.t F),
    let out := Streamlit.compute_rigid_diaph walls inputs in
    (Forall (fun r => no_weight (Streamlit.WallIn.w r)) walls ->
     no_weight (Streamlit.In.diaphragm_w inputs) ->
     is_zero (Streamlit.Globals.Wtot (snd out)) = true) /\
    (is_zero (Streamlit.Globals.Wtot (snd out)) = true ->
     Streamlit.Globals.xcg_local (snd out) = fnan /\
     Streamlit.Globals.ycg_local (snd out) = fnan /\
     Streamlit.Globals.ex_real (snd out) = fnan /\
     Streamlit.Globals.ey_real (snd out) = fnan /\
     Forall streamlit_nan_shear (fst out)).
Proof.
  intros F AF LF NF walls inputs out. subst out.
  unfold Streamlit.compute_rigid_diaph.
  cbn [fst snd Streamlit.Globals.Wtot Streamlit.Globals.xcg_local
       Streamlit.Globals.ycg_local Streamlit.Globals.ex_real
       Streamlit.Globals.ey_real].
  split.
  - intros Hw Hd. apply fadd_zero.
    + apply series_sum_no_weight. rewrite !Forall_map.
      apply Forall_forall. intros r Hr. apply filter_In in Hr as [Hr _].
      rewrite Forall_forall in Hw. specialize (Hw r Hr).
      unfold Streamlit.wall_w, Streamlit.pre_row. cbn [Streamlit.Pre.w].
      right. now apply fillna0_no_weight.
    + destruct Hd as [Hd|Hd]; [rewrite Hd; apply feqb_zero_zero|].
      destruct (is_nan _); [apply feqb_zero_zero|exact Hd].
  - intros Hz.
    set (Wtot := fadd _ _) in *.
    assert (Hr : forall num, Streamlit.ratio_or_nan num Wtot = fnan).
    { intros num. unfold Streamlit.ratio_or_nan.
      now rewrite neq0_is_zero, Hz. }
    rewrite !Hr, !ecc_nan_l. repeat split.
    apply Forall_map, Forall_forall. intros r _. apply out_row_nan_ecc.
Qed.

Lemma streamlit_without_weights_witness :
  let out := Streamlit.compute_rigid_diaph Demo.st_walls
               PageDemo.st_weightless_inputs in
  is_zero (Streamlit.Globals.Wtot (snd out)) = true /\
  Forall streamlit_nan_shear (fst out).
Proof.
  destruct (@streamlit_without_weights float float_arith float_laws
              float_nan_laws Demo.st_walls PageDemo.st_weightless_inputs)
    as [H1 H2].
  assert (Hz : is_zero (Streamlit.Globals.Wtot
                 (snd (Streamlit.compute_rigid_diaph Demo.st_walls
                         PageDemo.st_weightless_inputs))) = true).
  { apply H1; [repeat constructor; right; reflexivity|right; reflexivity]. }
  split; [exact Hz|]. now apply H2.
Defined.

(** ** The classifier: one direction per wall, and the two readings of
    a marker *)

Section Direction.
Context {F : Type} {AF : Arith F}.

Lemma prefix_exclusive s :
  Str.startswith s "EW" && Str.startswith s "NS" = false.
Proof.
  unfold Str.startswith. destruct s as [|c s]; [reflexivity|].
  cbn [String.prefix].
  destruct (ascii_dec "E" c) as [<-|]; [|reflexivity].
  destruct (ascii_dec "N" "E"); [discriminate|].
  apply andb_false_r.
Qed.

Lemma wall_row_direction tail X Y (w : Wall.t F) r :
  Template.wall_row (Template.orientation tail) X Y w = Py.Ok r ->
  (Base.Rix r = fdiv fone (Base.Di r) /\ Base.Riy r = fzero) \/
  (Base.Rix r = fzero /\ Base.Riy r = fdiv fone (Base.Di r)).
Proof.
  unfold Template.wall_row.
  destruct (Template.rigidity_modulus _ _) as [Di|e]; cbn [Py.bind];
    [|discriminate].
  destruct (Template.orientation tail _ Di) as [R|e] eqn:E; cbn [Py.bind];
    [|discriminate].
  apply orientation_ok in E as (_ & _ & [[_ ->]|[_ ->]]);
    intros H; apply Ok_inj in H; subst r; cbn; auto.
Qed.

Lemma v2_classify_direction X Y (w : Wall.t F) r :
  V2.classify_row (V2.frame_row X Y w) = Py.Ok r ->
  (Base.Rix r = fdiv fone (Base.Di r) /\ Base.Riy r = fzero) \/
  (Base.Rix r = fzero /\ Base.Riy r = fdiv fone (Base.Di r)).
Proof.
  unfold V2.classify_row, V2.frame_row, V2._wall_orientation_factors.
  destruct (Template.orientation "." _ _) as [R|e] eqn:E; cbn [Py.bind];
    [|discriminate].
  apply orientation_ok in E as (_ & _ & [[_ ->]|[_ ->]]);
    intros H; apply Ok_inj in H; subst r; cbn; auto.
Qed.

Lemma finish_direction undefined W (inputs : Inputs.t F) rows :
  Forall (fun r =>
    (Base.Rix r = fdiv fone (Base.Di r) /\ Base.Riy r = fzero) \/
    (Base.Rix r = fzero /\ Base.Riy r = fdiv fone (Base.Di r))) rows ->
  Forall one_direction (fst (Template.finish undefined W inputs rows)).
Proof.
  intros H. unfold Template.finish; cbn [fst]. apply Forall_map.
  eapply Forall_impl; [|exact H]. intros r Hr. exact Hr.
Qed.

Lemma Forall2_Forall_r (A B : Type) (R : A -> B -> Prop) (P : B -> Prop) l l' :
  (forall a b, R a b -> P b) -> Forall2 R l l' -> Forall P l'.
Proof. intros H. induction 1; constructor; eauto. Qed.

End Direction.

(** X10.  Every solver gives a wall rigidity in one direction only.  In
    each row returned by the script, the R1 app and app_v2 one of [Rix]
    and [Riy] is [0.0] and the other is [1.0 / Di]; in each row of the
    streamlit table one of [Ri_EW] and [Ri_NS] is [0.0], since a marker
    cannot start with both "EW" and "NS". *)
Theorem one_direction_per_wall :
  forall (F : Type) (AF : Arith F) (inputs : Inputs.t F)
         (walls : list (Wall.t F)) (out : list (Row.t F) * Summary.t F)
         (st_walls : list (Streamlit.WallIn.t F))
         (st_inputs : Streamlit.In.t F),
    (R1.compute_rigid_diaphragm inputs walls = Py.Ok out ->
     Forall one_direction (fst out)) /\
    (AppR1.compute_rigid_diaphragm inputs walls = Py.Ok out ->
     Forall one_direction (fst out)) /\
    (V2.compute_rigid_diaphragm inputs walls = Py.Ok out ->
     Forall one_direction (fst out)) /\
    Forall streamlit_one_direction
      (fst (Streamlit.compute_rigid_diaph st_walls st_inputs)).
Proof.
  intros F AF inputs walls out st_walls st_inputs.
  split; [|split; [|split]].
  - intros H. apply template_compute_ok in H as (rows & Hl & _ & ->).
    apply finish_direction. apply frame_Forall; [now intros r Hr|].
    apply for_each_Forall2 in Hl.
    eapply Forall2_Forall_r; [|exact Hl].
    intros w r Hr. exact (wall_row_direction _ _ _ _ Hr).
  - intros H. apply appr1_compute_ok in H as (o & H & ->).
    apply template_compute_ok in H as (rows & Hl & _ & ->).
    cbn [fst]. apply sort_values_Forall.
    apply finish_direction. apply frame_Forall; [now intros r Hr|].
    apply for_each_Forall2 in Hl.
    eapply Forall2_Forall_r; [|exact Hl].
    intros w r Hr. exact (wall_row_direction _ _ _ _ Hr).
  - intros H. apply v2_compute_ok in H as (rows & Hl & _ & ->).
    apply finish_direction. unfold V2.table in Hl.
    destruct (Py.for_each _ _) as [cl|e] eqn:E; cbn [Py.bind] in Hl;
      [|discriminate].
    apply Ok_inj in Hl. subst rows. apply sort_values_Forall.
    rewrite for_each_map in E. apply for_each_Forall2 in E.
    eapply Forall2_Forall_r; [|exact E].
    intros w r Hr. exact (v2_classify_direction _ _ _ Hr).
  - unfold Streamlit.compute_rigid_diaph; cbn [fst].
    apply Forall_map, Forall_map, Forall_forall. intros r _.
    unfold streamlit_one_direction, Streamlit.out_row, Streamlit.pre_row.
    cbn [Streamlit.Out.Ri_EW Streamlit.Out.Ri_NS Streamlit.Pre.Ri_EW
         Streamlit.Pre.Ri_NS].
    unfold Streamlit.is_EW, Streamlit.is_NS.
    pose proof (prefix_exclusive
                  (Str.upper (Streamlit.clean_marker (Streamlit.WallIn.marker r))))
      as Hx.
    destruct (Str.startswith _ "EW"); [|now left].
    cbn [andb] in Hx. rewrite Hx. now right.
Qed.

Lemma one_direction_per_wall_witness :
  exists out,
    R1.compute_rigid_diaphragm Demo.plan_inputs Demo.plan_walls = Py.Ok out /\
    Forall one_direction (fst out).
Proof.
  eexists. split; [vm_compute; reflexivity|].
  apply (proj1 (@one_direction_per_wall float float_arith Demo.plan_inputs
                  Demo.plan_walls _ Demo.st_walls Demo.st_inputs)).
  vm_compute; reflexivity.
Defined.

(** X11.  The two readings of a marker.  The streamlit solver asks for
    a marker that starts with "EW" or "NS"; the other three ask for a
    name that contains one, "EW" first.  A marker that starts with
    "EW" is east-west for all of them, and one that starts with "NS"
    and has no "EW" in it is north-south for all of them; but a marker
    that starts with "NS" and contains "EW" is north-south in the
    streamlit solver and east-west in the other three. *)
Theorem marker_readings :
  forall (F : Type) (AF : Arith F) (tail m : string) (Di : F),
    is_zero Di = false ->
    let nm := Template._clean_wall_name m in
    let marker := Streamlit.clean_marker m in
    (Streamlit.is_EW marker = true ->
     Streamlit.is_NS marker = false /\
     Template.orientation tail nm Di = Py.Ok (fdiv fone Di, fzero)) /\
    (Streamlit.is_NS marker = true ->
     Streamlit.is_EW marker = false /\
     (Str.contains "EW" (Str.upper m) = false ->
      Template.orientation tail nm Di = Py.Ok (fzero, fdiv fone Di)) /\
     (Str.contains "EW" (Str.upper m) = true ->
      Template.orientation tail nm Di = Py.Ok (fdiv fone Di, fzero))).
Proof.
  intros F AF tail m Di Hz nm marker.
  assert (Hm : forall p, Str.startswith (Str.upper marker) p = true ->
                         p <> EmptyString ->
                         Str.contains p (Str.upper nm) = true).
  { intros p Hp Hne. subst marker nm.
    unfold Streamlit.clean_marker, Template._clean_wall_name in *.
    destruct (String.eqb m "nan").
    - destruct p; [contradiction|discriminate Hp].
    - now apply startswith_contains. }
  pose proof (prefix_exclusive (Str.upper marker)) as Hx.
  unfold Streamlit.is_EW, Streamlit.is_NS.
  assert (Hew : Str.contains "EW" (Str.upper nm) = true ->
                Template.orientation tail nm Di = Py.Ok (fdiv fone Di, fzero)).
  { intros H. unfold Template.orientation, py_div. now rewrite H, Hz. }
  split.
  - intros H. rewrite H in Hx. cbn [andb] in Hx. split; [exact Hx|].
    apply Hew, Hm; [exact H|discriminate].
  - intros H. rewrite H, andb_true_r in Hx. split; [exact Hx|]. split.
    + intros Hn. unfold Template.orientation, py_div.
      subst nm. unfold Template._clean_wall_name.
      rewrite (@contains_strip_eq "E" "W") by reflexivity. rewrite Hn.
      fold (Template._clean_wall_name m).
      rewrite (Hm "NS"%string H) by discriminate. now rewrite Hz.
    + intros Hn. apply Hew. subst nm. unfold Template._clean_wall_name.
      now rewrite (@contains_strip_eq "E" "W") by reflexivity.
Qed.

Lemma marker_readings_witness :
  Streamlit.is_NS (Streamlit.clean_marker " nsew1 ") = true /\
  @Template.orientation float float_arith "."
    (Template._clean_wall_name " nsew1 ") 2%float
  = Py.Ok (0.5%float, 0%float).
Proof.
  split; [reflexivity|].
  destruct (@marker_readings float float_arith "." " nsew1 " 2%float eq_refl)
    as [_ H].
  destruct (H eq_refl) as (_ & _ & H3). rewrite (H3 eq_refl). reflexivity.
Defined.

(** ** The table and its walls *)

Section EchoFacts.
Context {F : Type} {AF : Arith F}.

Lemma wall_row_echo classify X Y (w : Wall.t F) r :
  Template.wall_row classify X Y w = Py.Ok r ->
  Base.Wall_Name r = Str.strip (Wall.Wall_Name w) /\
  Base.Length_m r = Wall.Length_m w /\
  Base.Height_m r = Wall.Height_m w /\
  Base.w_k_kN r = Wall.w_k_kN w /\
  Base.x_coord_m r = Wall.x_coord_m w /\
  Base.y_coord_m r = Wall.y_coord_m w /\
  Base.xk_m r = fsub (Wall.x_coord_m w) X /\
  Base.yk_m r = fsub (Wall.y_coord_m w) Y.
Proof.
  unfold Template.wall_row.
  destruct (Template.rigidity_modulus _ _) as [Di|e]; cbn [Py.bind];
    [|discriminate].
  destruct (classify _ Di) as [R|e]; cbn [Py.bind]; [|discriminate].
  intros H; apply Ok_inj in H; subst r. cbn. repeat split.
Qed.

Lemma v2_classify_echo X Y (w : Wall.t F) r :
  V2.classify_row (V2.frame_row X Y w) = Py.Ok r ->
  Base.Wall_Name r = Str.strip (Wall.Wall_Name w) /\
  Base.Length_m r = Wall.Length_m w /\
  Base.Height_m r = Wall.Height_m w /\
  Base.w_k_kN r
  = (match Wall.w_k_kN w with Some v => Some v | None => Some fnan end) /\
  Base.x_coord_m r = Wall.x_coord_m w /\
  Base.y_coord_m r = Wall.y_coord_m w /\
  Base.xk_m r = fsub (Wall.x_coord_m w) X /\
  Base.yk_m r = fsub (Wall.y_coord_m w) Y.
Proof.
  unfold V2.classify_row, V2.frame_row.
  destruct (V2._wall_orientation_factors _ _) as [R|e]; cbn [Py.bind];
    [|discriminate].
  intros H; apply Ok_inj in H; subst r. cbn. repeat split.
Qed.

(** The wall read back from a row gives that row again. *)
Lemma wall_row_again classify X Y (w : Wall.t F) r :
  Template.wall_row classify X Y w = Py.Ok r ->
  Template.wall_row classify X Y (base_wall r) = Py.Ok r.
Proof.
  intros H. pose proof (wall_row_echo _ _ _ _ H)
    as (Hn & Hl & Hh & Hk & Hx & Hy & _).
  revert H. unfold Template.wall_row, base_wall, Template._clean_wall_name.
  cbn [Wall.Wall_Name Wall.Length_m Wall.Height_m Wall.w_k_kN Wall.x_coord_m
       Wall.y_coord_m].
  rewrite Hn, Hl, Hh, Hk, Hx, Hy, strip_idem. trivial.
Qed.

Lemma v2_classify_again X Y (w : Wall.t F) r :
  V2.classify_row (V2.frame_row X Y w) = Py.Ok r ->
  V2.classify_row (V2.frame_row X Y (base_wall r)) = Py.Ok r.
Proof.
  intros H. pose proof (v2_classify_echo _ _ _ H)
    as (Hn & Hl & Hh & Hk & Hx & Hy & _).
  revert H. unfold V2.classify_row, V2.frame_row, base_wall.
  cbn [Wall.Wall_Name Wall.Length_m Wall.Height_m Wall.w_k_kN Wall.x_coord_m
       Wall.y_coord_m].
  rewrite Hn, Hl, Hh, Hk, Hx, Hy, strip_idem.
  destruct (V2._wall_orientation_factors _ _) as [R|e]; cbn [Py.bind];
    [|discriminate].
  destruct (Wall.w_k_kN w); trivial.
Qed.

Lemma for_each_again (A B : Type) (f : A -> Py.result B) (g : B -> A) l bs :
  (forall a b, f a = Py.Ok b -> f (g b) = Py.Ok b) ->
  Py.for_each f l = Py.Ok bs -> Py.for_each f (map g bs) = Py.Ok bs.
Proof.
  intros Hfg H. apply for_each_Forall2 in H.
  induction H as [|a b l bs Hab _ IH]; [reflexivity|].
  cbn [map Py.for_each]. now rewrite (Hfg _ _ Hab), IH.
Qed.

Lemma for_each_fixed (A B : Type) (f : A -> Py.result B) (g : B -> A) bs :
  Forall (fun b => f (g b) = Py.Ok b) bs ->
  Py.for_each f (map g bs) = Py.Ok bs.
Proof.
  induction 1 as [|b bs Hb _ IH]; [reflexivity|].
  cbn [map Py.for_each]. now rewrite Hb, IH.
Qed.

(** A row read back with the weight the frame gives it. *)
Lemma wall_row_nan_weight classify X Y (r : Base.t F) :
  Template.wall_row classify X Y (base_wall r) = Py.Ok r ->
  Template.wall_row classify X Y (base_wall (Template.nan_weight r))
  = Py.Ok (Template.nan_weight r).
Proof.
  destruct r as [n l h wk x y xk yk Di rix riy a b].
  unfold Template.wall_row, base_wall, Template.nan_weight.
  cbn [Wall.Wall_Name Wall.Length_m Wall.Height_m Wall.w_k_kN Wall.x_coord_m
       Wall.y_coord_m Base.Wall_Name Base.Length_m Base.Height_m Base.w_k_kN
       Base.x_coord_m Base.y_coord_m Base.xk_m Base.yk_m Base.Di Base.Rix
       Base.Riy Base.Riy_xk Base.Rix_yk].
  destruct (Template.rigidity_modulus _ _) as [d|e]; cbn [Py.bind];
    [|discriminate].
  destruct (classify _ d) as [R|e]; cbn [Py.bind]; [|discriminate].
  intros H. apply Ok_inj in H. injection H as Hn -> -> -> -> -> -> ->.
  now rewrite Hn.
Qed.

Lemma frame_idem (rows : list (Base.t F)) :
  Template.frame (Template.frame rows) = Template.frame rows.
Proof.
  unfold Template.frame.
  destruct (existsb _ rows) eqn:E; [|now rewrite E].
  destruct (existsb _ (map _ rows)); [|reflexivity].
  rewrite map_map. apply map_ext. intros r.
  unfold Template.nan_weight. cbn. now destruct (Base.w_k_kN r).
Qed.

Lemma finish_walls undefined W (inputs : Inputs.t F) rows :
  map row_wall (fst (Template.finish undefined W inputs rows))
  = map base_wall rows.
Proof.
  unfold Template.finish; cbn [fst]. rewrite map_map. reflexivity.
Qed.

Lemma fill_echo Fx Fy ex ey exbar eybar Xcr Ycr sum_Rix sum_Riy Jp X Y
    (walls : list (Wall.t F)) rows :
  Forall2 (fun w r =>
    Base.Wall_Name r = Str.strip (Wall.Wall_Name w) /\
    Base.Length_m r = Wall.Length_m w /\
    Base.Height_m r = Wall.Height_m w /\
    Base.x_coord_m r = Wall.x_coord_m w /\
    Base.y_coord_m r = Wall.y_coord_m w /\
    Base.xk_m r = fsub (Wall.x_coord_m w) X /\
    Base.yk_m r = fsub (Wall.y_coord_m w) Y) walls rows ->
  Forall2 (echoes X Y) walls
    (map (Template.fill Fx Fy ex ey exbar eybar Xcr Ycr sum_Rix sum_Riy Jp) rows).
Proof.
  induction 1 as [|w r ws rs Hr _ IH]; cbn [map]; [constructor|].
  constructor; [exact Hr|exact IH].
Qed.

End EchoFacts.

(** X12.  A returned table has one row per wall and nothing else.  In
    the script the rows are in the order of the walls, each repeating
    its wall's length, height and coordinates, with the name stripped
    and with [xk = x_coord - X_offset], [yk = y_coord - Y_offset]; the
    two apps return such rows in their sorted order. *)
Theorem table_echoes_walls :
  forall (F : Type) (AF : Arith F) (inputs : Inputs.t F)
         (walls : list (Wall.t F)) (out : list (Row.t F) * Summary.t F),
    let X := Inputs.X_offset inputs in
    let Y := Inputs.Y_offset inputs in
    (R1.compute_rigid_diaphragm inputs walls = Py.Ok out ->
     Forall2 (echoes X Y) walls (fst out)) /\
    (AppR1.compute_rigid_diaphragm inputs walls = Py.Ok out ->
     exists df, Permutation df (fst out) /\ Forall2 (echoes X Y) walls df) /\
    (V2.compute_rigid_diaphragm inputs walls = Py.Ok out ->
     exists df, Permutation df (fst out) /\ Forall2 (echoes X Y) walls df).
Proof.
  intros F AF inputs walls out X Y. split; [|split].
  - intros H. apply template_compute_ok in H as (rows & Hl & _ & ->).
    unfold Template.finish; cbn [fst].
    apply fill_echo. apply frame_Forall2; [intros a r Hr; exact Hr|].
    apply for_each_Forall2 in Hl.
    eapply Forall2_impl; [|exact Hl]. intros w r Hr.
    apply wall_row_echo in Hr as (H1 & H2 & H3 & _ & H5 & H6 & H7 & H8).
    now repeat split.
  - intros H. apply appr1_compute_ok in H as (o & H & ->).
    apply template_compute_ok in H as (rows & Hl & _ & ->).
    exists (fst (Template.finish fnan None inputs (Template.frame rows))). split.
    + cbn [fst]. symmetry. apply sort_values_perm.
    + unfold Template.finish; cbn [fst].
      apply fill_echo. apply frame_Forall2; [intros a r Hr; exact Hr|].
      apply for_each_Forall2 in Hl.
      eapply Forall2_impl; [|exact Hl]. intros w r Hr.
      apply wall_row_echo in Hr as (H1 & H2 & H3 & _ & H5 & H6 & H7 & H8).
      now repeat split.
  - intros H. apply v2_compute_ok in H as (rows & Hl & _ & ->).
    unfold V2.table in Hl. rewrite for_each_map in Hl.
    destruct (Py.for_each _ walls) as [cl|e] eqn:E; cbn [Py.bind] in Hl;
      [|discriminate].
    apply Ok_inj in Hl. subst rows.
    unfold Template.finish; cbn [fst].
    set (rows := Sorting.sort_values (@Base.Wall_Name F) cl).
    set (fill := Template.fill _ _ _ _ _ _ _ _ _ _ _).
    exists (map fill cl). split.
    + apply Permutation_map, Permutation_sym, sort_values_perm.
    + apply fill_echo. apply for_each_Forall2 in E.
      eapply Forall2_impl; [|exact E]. intros w r Hr.
      apply v2_classify_echo in Hr as (H1 & H2 & H3 & _ & H5 & H6 & H7 & H8).
      now repeat split.
Qed.

Lemma table_echoes_walls_witness :
  exists out,
    R1.compute_rigid_diaphragm Demo.plan_inputs Demo.plan_walls = Py.Ok out /\
    Forall2 (echoes 2%float 1%float) Demo.plan_walls (fst out).
Proof.
  eexists. split; [vm_compute; reflexivity|].
  apply (proj1 (@table_echoes_walls float float_arith Demo.plan_inputs
                  Demo.plan_walls _)).
  vm_compute; reflexivity.
Defined.

(** X13.  Solving a returned table again returns it.  The first six
    columns of the rows, read back as wall dictionaries and solved with
    the same inputs, give the same table and the same summary, bit for
    bit, in the script and in app_v2: the names are already stripped
    and the v2 rows already sorted. *)
Theorem solving_the_table_again :
  forall (F : Type) (AF : Arith F) (inputs : Inputs.t F)
         (walls : list (Wall.t F)) (out : list (Row.t F) * Summary.t F),
    (R1.compute_rigid_diaphragm inputs walls = Py.Ok out ->
     R1.compute_rigid_diaphragm inputs (map row_wall (fst out)) = Py.Ok out) /\
    (V2.compute_rigid_diaphragm inputs walls = Py.Ok out ->
     V2.compute_rigid_diaphragm inputs (map row_wall (fst out)) = Py.Ok out).
Proof.
  intros F AF inputs walls out. split.
  - intros H. apply template_compute_ok in H as (rows & Hl & Hne & ->).
    rewrite finish_walls. unfold R1.compute_rigid_diaphragm.
    rewrite template_compute_eq. unfold Template.loop in *.
    assert (Ha : Py.for_each
                   (Template.wall_row R1._wall_orientation_factors
                      (Inputs.X_offset inputs) (Inputs.Y_offset inputs))
                   (map base_wall (Template.frame rows))
                 = Py.Ok (Template.frame rows)).
    { apply for_each_fixed, frame_Forall.
      - intros r Hr. exact (wall_row_nan_weight _ _ _ Hr).
      - apply for_each_Forall2 in Hl.
        eapply Forall2_Forall_r; [|exact Hl].
        intros w r Hr. exact (wall_row_again _ _ _ _ Hr). }
    rewrite Ha. cbn [Py.bind]. rewrite frame_idem.
    destruct (Template.frame rows) eqn:E; [|reflexivity].
    exfalso. apply Hne. now apply frame_nil_iff.
  - intros H. pose proof H as H0.
    apply v2_compute_ok in H as (rows & Hl & HJ & ->).
    rewrite finish_walls.
    assert (Hne : rows <> []).
    { intros ->. unfold V2.table in Hl.
      destruct (Py.for_each _ _) as [cl|e] eqn:E; cbn [Py.bind] in Hl;
        [|discriminate].
      apply Ok_inj in Hl. apply sort_values_nil_iff in Hl. subst cl.
      apply for_each_length in E. rewrite length_map in E.
      destruct walls; [|discriminate]. discriminate H0. }
    assert (Ht : V2.table (Inputs.X_offset inputs) (Inputs.Y_offset inputs)
                   (map base_wall rows) = Py.Ok rows).
    { unfold V2.table in *. rewrite for_each_map in *.
      destruct (Py.for_each _ walls) as [cl|e] eqn:E; cbn [Py.bind] in Hl;
        [|discriminate].
      apply Ok_inj in Hl.
      assert (Hall : Forall (fun r =>
                  V2.classify_row
                    (V2.frame_row (Inputs.X_offset inputs)
                       (Inputs.Y_offset inputs) (base_wall r)) = Py.Ok r) rows).
      { rewrite <- Hl. apply sort_values_Forall.
        apply for_each_Forall2 in E.
        eapply Forall2_Forall_r; [|exact E].
        intros w r Hr. exact (v2_classify_again _ _ _ Hr). }
      assert (Hf : Py.for_each
                     (fun a => V2.classify_row
                                 (V2.frame_row (Inputs.X_offset inputs)
                                    (Inputs.Y_offset inputs) a))
                     (map base_wall rows) = Py.Ok rows).
      { clear - Hall. induction Hall as [|r rs Hr _ IH]; [reflexivity|].
        cbn [map Py.for_each]. now rewrite Hr, IH. }
      rewrite Hf. cbn [Py.bind]. f_equal.
      rewrite <- Hl. apply sort_values_fixed, sort_values_sorted. }
    rewrite v2_compute_nonempty by (destruct rows; [contradiction|discriminate]).
    rewrite Ht. cbn [Py.bind]. rewrite HJ.
    assert (Hk : existsb (@V2.has_w_k F) (map base_wall rows) = true).
    { unfold V2.table in Hl. rewrite for_each_map in Hl.
      destruct (Py.for_each _ walls) as [cl|e] eqn:E; cbn [Py.bind] in Hl;
        [|discriminate].
      apply Ok_inj in Hl.
      assert (Hall : Forall (fun r => V2.has_w_k (base_wall r) = true) rows).
      { rewrite <- Hl. apply sort_values_Forall.
        apply for_each_Forall2 in E.
        eapply Forall2_Forall_r; [|exact E].
        intros w r Hr. apply v2_classify_echo in Hr as (_ & _ & _ & Hk & _).
        unfold V2.has_w_k, base_wall. cbn [Wall.w_k_kN]. rewrite Hk.
        now destruct (Wall.w_k_kN w). }
      destruct rows as [|r rs]; [contradiction|].
      cbn [map existsb]. apply Forall_inv in Hall. now rewrite Hall. }
    now rewrite Hk.
Qed.

Lemma solving_the_table_again_witness :
  exists out,
    V2.compute_rigid_diaphragm Demo.plan_inputs (rev Demo.plan_walls) = Py.Ok out /\
    V2.compute_rigid_diaphragm Demo.plan_inputs (map row_wall (fst out))
    = Py.Ok out.
Proof.
  eexists. split; [vm_compute; reflexivity|].
  apply (proj2 (@solving_the_table_again float float_arith Demo.plan_inputs
                  (rev Demo.plan_walls) _)).
  vm_compute; reflexivity.
Defined.

(** ** The order in which the walls are entered *)

Lemma key_le_antisym a b :
  Sorting.key_le a b = true -> Sorting.key_le b a = true -> a = b.
Proof.
  unfold Sorting.key_le. intros H1 H2.
  apply orb_true_iff in H1 as [H1|H1], H2 as [H2|H2].
  - apply Nat.ltb_lt in H1, H2. lia.
  - apply Nat.ltb_lt in H1. apply andb_true_iff in H2 as [H2 _].
    apply Nat.eqb_eq in H2. lia.
  - apply Nat.ltb_lt in H2. apply andb_true_iff in H1 as [H1 _].
    apply Nat.eqb_eq in H1. lia.
  - apply andb_true_iff in H1 as [_ H1], H2 as [_ H2].
    now apply String.leb_antisym.
Qed.

Lemma NoDup_map_In_eq (A B : Type) (f : A -> B) l x y :
  NoDup (map f l) -> In x l -> In y l -> f x = f y -> x = y.
Proof.
  induction l as [|a l IH]; cbn [map]; [contradiction|].
  intros Hn Hx Hy E. inversion Hn as [|? ? Ha Hl]; subst.
  destruct Hx as [->|Hx], Hy as [->|Hy]; [reflexivity| | |now apply IH].
  - exfalso. apply Ha. rewrite E. now apply in_map.
  - exfalso. apply Ha. rewrite <- E. now apply in_map.
Qed.

(** A table with distinct names has one sorted arrangement. *)
Lemma sorted_perm_eq (A : Type) (name : A -> string) l l' :
  NoDup (map name l) ->
  StronglySorted (comes_before name) l ->
  StronglySorted (comes_before name) l' ->
  Permutation l l' -> l = l'.
Proof.
  revert l'. induction l as [|x t IH]; intros l' Hn Hs Hs' Hp.
  - apply Permutation_nil in Hp. now subst.
  - destruct l' as [|y t'].
    { apply Permutation_sym, Permutation_nil in Hp. discriminate Hp. }
    assert (Hy : In y (x :: t)).
    { apply (Permutation_in _ (Permutation_sym Hp)). now left. }
    assert (Hx : In x (y :: t')).
    { apply (Permutation_in _ Hp). now left. }
    inversion Hs as [|? ? Hst Hxt]; subst.
    inversion Hs' as [|? ? Hst' Hyt']; subst.
    assert (Hxy : comes_before name x y).
    { destruct Hy as [<-|Hy]; [apply key_le_refl|].
      rewrite Forall_forall in Hxt. now apply Hxt. }
    assert (Hyx : comes_before name y x).
    { destruct Hx as [<-|Hx]; [apply key_le_refl|].
      rewrite Forall_forall in Hyt'. now apply Hyt'. }
    assert (E : x = y).
    { apply (@NoDup_map_In_eq _ _ name (x :: t)); [exact Hn|now left|exact Hy|].
      now apply key_le_antisym. }
    subst y. f_equal. apply IH; [now inversion Hn|exact Hst|exact Hst'|].
    now apply Permutation_cons_inv in Hp.
Qed.

Lemma sort_values_perm_eq (A : Type) (name : A -> string) l l' :
  NoDup (map name l) -> Permutation l l' ->
  Sorting.sort_values name l = Sorting.sort_values name l'.
Proof.
  intros Hn Hp. apply (@sorted_perm_eq A name).
  - eapply Permutation_NoDup; [|exact Hn].
    apply Permutation_map, Permutation_sym, sort_values_perm.
  - apply sort_values_sorted.
  - apply sort_values_sorted.
  - rewrite sort_values_perm, Hp. symmetry. apply sort_values_perm.
Qed.

Lemma for_each_perm (A B : Type) (f : A -> Py.result B) l l' bs :
  Permutation l l' -> Py.for_each f l = Py.Ok bs ->
  exists bs', Py.for_each f l' = Py.Ok bs' /\ Permutation bs bs'.
Proof.
  intros Hp. revert bs.
  induction Hp as [|x l l' _ IH|x y l|l l' l'' _ IH1 _ IH2]; intros bs H.
  - exists bs. now split.
  - cbn [Py.for_each] in *.
    destruct (f x) as [b|e]; cbn [Py.bind] in *; [|discriminate].
    destruct (Py.for_each f l) as [bs0|e]; cbn [Py.bind] in *; [|discriminate].
    apply Ok_inj in H. subst bs.
    destruct (IH bs0 eq_refl) as (bs' & -> & Hb).
    exists (b :: bs'). split; [reflexivity|now constructor].
  - cbn [Py.for_each] in *.
    destruct (f y) as [b|e]; cbn [Py.bind] in *; [|discriminate].
    destruct (f x) as [c|e]; cbn [Py.bind] in *; [|discriminate].
    destruct (Py.for_each f l) as [bs0|e]; cbn [Py.bind] in *; [|discriminate].
    apply Ok_inj in H. subst bs.
    exists (c :: b :: bs0). split; [reflexivity|apply perm_swap].
  - destruct (IH1 bs H) as (bs1 & H1 & P1).
    destruct (IH2 bs1 H1) as (bs2 & H2 & P2).
    exists bs2. split; [exact H2|now transitivity bs1].
Qed.

Lemma existsb_perm (A : Type) (p : A -> bool) l l' :
  Permutation l l' -> existsb p l = existsb p l'.
Proof.
  induction 1 as [|x l l' _ IH|x y l|l l' l'' _ IH1 _ IH2]; cbn [existsb].
  - reflexivity.
  - now rewrite IH.
  - destruct (p x), (p y); reflexivity.
  - now rewrite IH1.
Qed.

(** X14.  The table of app_v2 does not depend on the order in which the
    walls are entered.  When the stripped names are distinct and the
    solve returns, the solve of any rearrangement of the wall list
    returns the same table and the same summary, bit for bit: the rows
    are sorted before the first sum is taken. *)
Theorem v2_ignores_wall_order :
  forall (F : Type) (AF : Arith F) (inputs : Inputs.t F)
         (walls walls' : list (Wall.t F)) (out : list (Row.t F) * Summary.t F),
    NoDup (map (fun w => Str.strip (Wall.Wall_Name w)) walls) ->
    Permutation walls walls' ->
    V2.compute_rigid_diaphragm inputs walls = Py.Ok out ->
    V2.compute_rigid_diaphragm inputs walls' = Py.Ok out.
Proof.
  intros F AF inputs walls walls' out Hn Hp H.
  assert (Hne : walls <> []) by (intros ->; discriminate H).
  assert (Hne' : walls' <> []).
  { intros ->. apply Permutation_sym, Permutation_nil in Hp. contradiction. }
  rewrite v2_compute_nonempty in H |- * by assumption.
  assert (Ht : V2.table (Inputs.X_offset inputs) (Inputs.Y_offset inputs) walls'
               = V2.table (Inputs.X_offset inputs) (Inputs.Y_offset inputs) walls).
  { unfold V2.table in *. rewrite !for_each_map in *.
    destruct (Py.for_each _ walls) as [cl|e] eqn:E; cbn [Py.bind] in H;
      [|discriminate].
    destruct (for_each_perm _ Hp E) as (cl' & -> & Hc). cbn [Py.bind].
    f_equal. symmetry. apply sort_values_perm_eq; [|exact Hc].
    apply for_each_Forall2 in E.
    replace (map (@Base.Wall_Name F) cl)
      with (map (fun w => Str.strip (Wall.Wall_Name w)) walls); [exact Hn|].
    clear - E. induction E as [|w r ws rs Hr _ IH]; [reflexivity|].
    cbn [map]. rewrite IH. f_equal.
    now apply v2_classify_echo in Hr as (-> & _). }
  rewrite Ht, <- (existsb_perm _ Hp). exact H.
Qed.

Lemma v2_ignores_wall_order_witness :
  V2.compute_rigid_diaphragm Demo.inputs (rev Demo.walls)
  = V2.compute_rigid_diaphragm Demo.inputs Demo.walls.
Proof.
  destruct (V2.compute_rigid_diaphragm Demo.inputs Demo.walls) as [out|e] eqn:E;
    [|vm_compute in E; discriminate E].
  apply (@v2_ignores_wall_order float float_arith Demo.inputs Demo.walls
           (rev Demo.walls) out).
  - repeat constructor; cbn; intuition discriminate.
  - apply Permutation_rev.
  - exact E.
Defined.

Section ScriptAndV2.
Context {F : Type} {AF : Arith F}.

(** ** The R1 app and app_v2 on the same walls *)

(** Where Python's scalar [Di] is computed, it is the column's [Di]. *)
Lemma modulus_np_of_ok (h l Di : F) :
  Template.rigidity_modulus h l = Py.Ok Di ->
  Di = Template.rigidity_modulus_np h l.
Proof.
  unfold Template.rigidity_modulus, Template.rigidity_modulus_np.
  destruct (py_div h l) as [q|e] eqn:E; cbn [Py.bind]; [|discriminate].
  apply py_div_ok in E as [_ ->]. unfold py_pow3.
  destruct (is_finite _ && fisinf _); cbn [Py.bind]; [discriminate|].
  intros H. apply Ok_inj in H. now subst Di.
Qed.

Lemma v2_classify_of_wall_row X Y (w : Wall.t F) r :
  Template.wall_row (Template.orientation ".") X Y w = Py.Ok r ->
  exists r',
    V2.classify_row (V2.frame_row X Y w) = Py.Ok r' /\
    forget_base_wk r' = forget_base_wk r.
Proof.
  unfold Template.wall_row, V2.classify_row, V2.frame_row,
    V2._wall_orientation_factors, Template._clean_wall_name.
  destruct (Template.rigidity_modulus _ _) as [Di|e] eqn:E; cbn [Py.bind];
    [|discriminate].
  apply modulus_np_of_ok in E. subst Di.
  destruct (Template.orientation "." _ _) as [R|e]; cbn [Py.bind];
    [|discriminate].
  intros H. apply Ok_inj in H. subst r.
  eexists. split; reflexivity.
Qed.

Lemma v2_classified_of_loop X Y (ws : list (Wall.t F)) rows :
  Template.loop (Template.orientation ".") X Y ws = Py.Ok rows ->
  exists cl,
    Py.for_each V2.classify_row (map (V2.frame_row X Y) ws) = Py.Ok cl /\
    map (@forget_base_wk F) cl = map (@forget_base_wk F) rows.
Proof.
  unfold Template.loop. intros H. apply for_each_Forall2 in H.
  induction H as [|w r ws rows Hr _ (cl & Hc & Hm)]; [now exists []|].
  apply v2_classify_of_wall_row in Hr as (r' & Hr & Hf).
  exists (r' :: cl). cbn [map Py.for_each]. rewrite Hr, Hc. cbn [Py.bind map].
  split; [reflexivity|]. now rewrite Hf, Hm.
Qed.

End ScriptAndV2.

(** ** The weights in the streamlit solver *)

Section Mass.
Context {F : Type} {AF : Arith F}.

Lemma filter_map_swap (A B : Type) (f : A -> B) (p : B -> bool) l :
  filter p (map f l) = map f (filter (fun a => p (f a)) l).
Proof.
  induction l as [|a l IH]; [reflexivity|]. cbn [map filter].
  destruct (p (f a)); cbn [map]; now rewrite IH.
Qed.

(** What is left of the result after [st_forget] is computed from the
    walls without their weights and from the inputs without the
    diaphragm's weight and position. *)
Lemma streamlit_forget walls (inputs : Streamlit.In.t F) :
  st_forget (Streamlit.compute_rigid_diaph walls inputs)
  = st_forget (Streamlit.compute_rigid_diaph (map (@st_forget_w F AF) walls)
                 (st_forget_mass inputs)).
Proof.
  unfold st_forget, Streamlit.compute_rigid_diaph.
  cbn [fst snd st_forget_mass Streamlit.In.Vx Streamlit.In.Vy
       Streamlit.In.origin_x Streamlit.In.origin_y Streamlit.In.plan_dim_x
       Streamlit.In.plan_dim_y Streamlit.In.diaphragm_w
       Streamlit.In.diaphragm_x Streamlit.In.diaphragm_y].
  rewrite filter_map_swap, !map_map.
  unfold st_forget_globals, st_forget_out.
  f_equal.
Qed.

End Mass.

(** X17.  In the streamlit solver the weights act through the mass
    centre only.  Two runs that differ in the wall weights and in the
    weight and the position of the diaphragm at most agree on the rows
    kept, on the rigidities, the centre of rigidity and [Jp], and on the
    direct-shear and accidental-torsion columns; only the mass centre,
    the real eccentricities, the total weight, the real-torsion columns
    and the totals [V_X], [V_Y] can change. *)
Theorem streamlit_weights_reach_real_torsion_only :
  forall (F : Type) (AF : Arith F)
         (walls1 walls2 : list (Streamlit.WallIn.t F))
         (inputs1 inputs2 : Streamlit.In.t F),
    map (@st_forget_w F AF) walls1 = map (@st_forget_w F AF) walls2 ->
    st_forget_mass inputs1 = st_forget_mass inputs2 ->
    st_forget (Streamlit.compute_rigid_diaph walls1 inputs1)
    = st_forget (Streamlit.compute_rigid_diaph walls2 inputs2).
Proof.
  intros F AF walls1 walls2 inputs1 inputs2 Hw Hi.
  rewrite (streamlit_forget walls1 inputs1), (streamlit_forget walls2 inputs2).
  now rewrite Hw, Hi.
Qed.

Lemma streamlit_weights_reach_real_torsion_only_witness :
  st_forget (Streamlit.compute_rigid_diaph Demo.st_walls Demo.st_inputs)
  = st_forget (Streamlit.compute_rigid_diaph Demo.st_walls
                 PageDemo.st_weightless_inputs) /\
  map (@Streamlit.Out.V_X float)
    (fst (Streamlit.compute_rigid_diaph Demo.st_walls Demo.st_inputs))
  <> map (@Streamlit.Out.V_X float)
       (fst (Streamlit.compute_rigid_diaph Demo.st_walls
               PageDemo.st_weightless_inputs)).
Proof.
  split.
  - apply streamlit_weights_reach_real_torsion_only; reflexivity.
  - intros H. apply (f_equal (hd 0%float)) in H. vm_compute in H.
    float_absurd H.
Defined.
